(** * Extension import, package writing and file export handlers

    A shallow embedding of the IPC handlers registered in
    [src/main/Ui/Menu/menu.ts] (second document of the file, lines 108-356):
    [createMultipleNewLocalFileExtensions] (the spec's [importExtensions]),
    [writeNewExtensionToDisk] (the spec's [writeNewPackage]) and
    [writeFiles] (the spec's [exportFiles]).

    The handlers are asynchronous JavaScript.  They are embedded as state
    transformers over an explicit [World] (file system, extension registry,
    settings, messages shown to the user); what the user answers in a native
    dialog is an input of the handler.  Tasks joined by [Promise.all] are
    linearised from left to right, and a rejected task does not stop its
    siblings (a JavaScript promise cannot be cancelled). *)

From Stdlib Require Import String Ascii List ZArith NArith Bool Lia.
From Stdlib Require Import DecimalString.
Import ListNotations.

Set Warnings "-register-all".

Local Open Scope string_scope.
Local Open Scope list_scope.

Infix "+++" := String.append (right associativity, at level 60).

(* ================================================================== *)
(** ** Characters and strings *)

Module Str.

Definition slash : ascii := "/"%char.
Definition dot : ascii := "."%char.

(** The double quote character, and a string put between double quotes,
    as in the template literals of the error messages. *)
Definition dquote : string := String "034"%char EmptyString.
Definition quoted (s : string) : string := dquote +++ s +++ dquote.

Definition newline : string := String "010"%char EmptyString.

(** Regular expression class [\w]: ASCII letters, digits, underscore. *)
Definition is_word_char (c : ascii) : bool :=
  let n := nat_of_ascii c in
  (((65 <=? n) && (n <=? 90)) || ((97 <=? n) && (n <=? 122))
   || ((48 <=? n) && (n <=? 57)) || (n =? 95))%nat.

(** JavaScript truthiness of a string: only the empty string is falsy. *)
Definition nonempty (s : string) : bool :=
  match s with EmptyString => false | String _ _ => true end.

(** [s.includes(c)] for a one-character needle. *)
Fixpoint has_char (c : ascii) (s : string) : bool :=
  match s with
  | EmptyString => false
  | String d s' => Ascii.eqb c d || has_char c s'
  end.

(** [arr.includes(s)] on an array of strings. *)
Definition includes (arr : list string) (s : string) : bool :=
  existsb (String.eqb s) arr.

(** [s[0] !== "."] : true for the empty string ([undefined !== "."]). *)
Definition first_is_not_dot (s : string) : bool :=
  match s with
  | String c _ => negb (Ascii.eqb c dot)
  | EmptyString => true
  end.

(** Greedy [\w+]: the rest of the string after one or more word
    characters, [None] when the string does not start with one. *)
Fixpoint skip_word_star (s : string) : string :=
  match s with
  | String c s' => if is_word_char c then skip_word_star s' else s
  | EmptyString => EmptyString
  end.

Definition skip_word_plus (s : string) : option string :=
  match s with
  | String c s' => if is_word_char c then Some (skip_word_star s') else None
  | EmptyString => None
  end.

End Str.

(* ================================================================== *)
(** ** Node's [path] module (POSIX flavour)

    The handlers call [path.basename], [path.extname], [path.dirname],
    [path.parse(p).dir], [path.join] and [path.resolve].  They are modelled
    on the segments between separators, following Node's algorithms. *)

Module Path.

Definition sep : string := "/".

(** [s.split("/")]: never empty, the empty string gives one empty segment. *)
Fixpoint split_slash (s : string) : list string :=
  match s with
  | EmptyString => [EmptyString]
  | String c s' =>
      if Ascii.eqb c Str.slash then EmptyString :: split_slash s'
      else match split_slash s' with
           | seg :: rest => String c seg :: rest
           | [] => [String c EmptyString]
           end
  end.

(** [segs.join("/")]. *)
Fixpoint join_slash (segs : list string) : string :=
  match segs with
  | [] => EmptyString
  | [seg] => seg
  | seg :: rest => seg +++ "/" +++ join_slash rest
  end.

Definition isAbsolute (p : string) : bool :=
  match p with
  | String c _ => Ascii.eqb c Str.slash
  | EmptyString => false
  end.

Definition ends_with_slash (p : string) : bool :=
  match rev (split_slash p) with
  | last :: _ :: _ => negb (Str.nonempty last)
  | _ => false
  end.

(** One step of Node's [normalizeString]; [stack] holds the segments kept
    so far, the last one first. *)
Definition normalize_step (allowAboveRoot : bool)
           (stack : list string) (seg : string) : list string :=
  if (seg =? "") || (seg =? ".") then stack
  else if seg =? ".." then
    match stack with
    | top :: below =>
        if top =? ".." then (if allowAboveRoot then ".." :: stack else stack)
        else below
    | [] => if allowAboveRoot then [".."] else []
    end
  else seg :: stack.

Definition normalize_segs (allowAboveRoot : bool) (segs : list string)
  : list string :=
  rev (fold_left (normalize_step allowAboveRoot) segs []).

(** The absolute path made of the given segments. *)
Definition of_segs (segs : list string) : string := "/" +++ join_slash segs.

(** [path.normalize]. *)
Definition normalize (p : string) : string :=
  if negb (Str.nonempty p) then "."
  else
    let body := join_slash (normalize_segs (negb (isAbsolute p)) (split_slash p)) in
    if negb (Str.nonempty body) then
      (if isAbsolute p then "/" else if ends_with_slash p then "./" else ".")
    else
      let body := if ends_with_slash p then body +++ "/" else body in
      if isAbsolute p then "/" +++ body else body.

(** [path.join(a, b)]: empty arguments are skipped. *)
Definition join (a b : string) : string :=
  match Str.nonempty a, Str.nonempty b with
  | true, true => normalize (a +++ "/" +++ b)
  | true, false => normalize a
  | false, true => normalize b
  | false, false => "."
  end.

(** The segments of the absolute, normalised form of [p]; a relative path
    is taken from the working directory [cwd] (an absolute path). *)
Definition abs_segments (cwd p : string) : list string :=
  normalize_segs false
    (split_slash (if isAbsolute p then p else cwd +++ "/" +++ p)).

(** [path.resolve(a, b)]: arguments are taken from the right until an
    absolute one is met; the working directory comes last. *)
Definition resolve (cwd a b : string) : string :=
  if isAbsolute b || negb (Str.nonempty a) then of_segs (abs_segments cwd b)
  else of_segs (abs_segments cwd (a +++ "/" +++ b)).

(** The segments of [p] up to its last non-empty one, and that segment. *)
Fixpoint drop_empty (rsegs : list string) : list string :=
  match rsegs with
  | seg :: rest => if Str.nonempty seg then rsegs else drop_empty rest
  | [] => []
  end.

Definition last_part (p : string) : option (list string * string) :=
  match drop_empty (rev (split_slash p)) with
  | base :: before => Some (rev before, base)
  | [] => None
  end.

(** [path.basename(p)]: the last non-empty segment, trailing separators
    ignored; empty when there is none. *)
Definition basename (p : string) : string :=
  match last_part p with
  | Some (_, base) => base
  | None => EmptyString
  end.

(** [path.parse(p).dir]: the text before the separator that precedes the
    base name. *)
Definition parse_dir (p : string) : string :=
  match last_part p with
  | Some ([], _) => EmptyString
  | Some ([seg], _) => if Str.nonempty seg then seg else "/"
  | Some (before, _) => join_slash before
  | None => if isAbsolute p then "/" else EmptyString
  end.

(** [path.dirname(p)]: as [parse(p).dir], but ["."] where there is no
    directory part and ["//"] for a base name right after two leading
    separators. *)
Definition dirname (p : string) : string :=
  match last_part p with
  | Some ([], _) => "."
  | Some ([seg], _) => if Str.nonempty seg then seg else "/"
  | Some ([seg1; seg2], _) =>
      if Str.nonempty seg1 || Str.nonempty seg2
      then join_slash [seg1; seg2] else "//"
  | Some (before, _) => join_slash before
  | None => if isAbsolute p then "/" else "."
  end.

(** The text from the last dot of [s] on, with the index of that dot. *)
Fixpoint last_dot (s : string) : option (nat * string) :=
  match s with
  | EmptyString => None
  | String c s' =>
      match last_dot s' with
      | Some (i, ext) => Some (S i, ext)
      | None => if Ascii.eqb c Str.dot then Some (0, s) else None
      end
  end.

(** [path.extname(p)]: from the last dot of the base name, empty when the
    base name has no dot, starts with its only dot, or is [".."]. *)
Definition extname (p : string) : string :=
  let base := basename p in
  match last_dot base with
  | Some (0, _) => EmptyString
  | Some (_, ext) => if base =? ".." then EmptyString else ext
  | None => EmptyString
  end.

End Path.


(* ================================================================== *)
(** ** JavaScript values

    A manifest is whatever [JSON.parse] returns.  Numbers are kept as
    integers.  An array carries, next to its elements, the non-index
    properties assigned to it ([named]); [JSON.parse] produces none and
    [JSON.stringify] does not serialise them. *)

Inductive JsValue : Type :=
| JNull
| JBool (b : bool)
| JNumber (n : Z)
| JString (s : string)
| JArray (elems : list JsValue) (named : list (string * JsValue))
| JObject (props : list (string * JsValue)).

Module Js.

Fixpoint assoc {A} (key : string) (l : list (string * A)) : option A :=
  match l with
  | [] => None
  | (k, v) :: rest => if k =? key then Some v else assoc key rest
  end.

(** Assignment to a property: an existing key keeps its place, a new key
    goes last. *)
Fixpoint assoc_set {A} (key : string) (v : A) (l : list (string * A))
  : list (string * A) :=
  match l with
  | [] => [(key, v)]
  | (k, old) :: rest =>
      if k =? key then (k, v) :: rest else (k, old) :: assoc_set key v rest
  end.

(** [typeof v !== "object" || v === null], negated. *)
Definition is_object (v : JsValue) : bool :=
  match v with
  | JArray _ _ | JObject _ => true
  | _ => false
  end.

(** [v.key] for the keys the handlers read ([build], [name]), neither of
    which is found on a prototype; [None] is [undefined]. *)
Definition get (v : JsValue) (key : string) : option JsValue :=
  match v with
  | JObject props => assoc key props
  | JArray _ named => assoc key named
  | _ => None
  end.

(** [v.key = x] on an object or an array. *)
Definition set (v : JsValue) (key : string) (x : JsValue) : JsValue :=
  match v with
  | JObject props => JObject (assoc_set key x props)
  | JArray elems named => JArray elems (assoc_set key x named)
  | _ => v
  end.

(** Truthiness of a value, and of a property that may be [undefined]. *)
Definition truthy (v : JsValue) : bool :=
  match v with
  | JNull => false
  | JBool b => b
  | JNumber n => negb (n =? 0)%Z
  | JString s => Str.nonempty s
  | JArray _ _ | JObject _ => true
  end.

Definition truthy_opt (o : option JsValue) : bool :=
  match o with
  | Some v => truthy v
  | None => false
  end.

Definition string_of_Z (n : Z) : string :=
  NilZero.string_of_int (Z.to_int n).

(** [String(v)], as a template literal renders a value. *)
Fixpoint to_string (v : JsValue) : string :=
  match v with
  | JNull => "null"
  | JBool true => "true"
  | JBool false => "false"
  | JNumber n => string_of_Z n
  | JString s => s
  | JArray elems _ =>
      String.concat ","
        (map (fun e => match e with JNull => EmptyString | _ => to_string e end)
             elems)
  | JObject _ => "[object Object]"
  end.

Definition to_string_opt (o : option JsValue) : string :=
  match o with
  | Some v => to_string v
  | None => "undefined"
  end.

(** Settings fields are strings that may be unset. *)
Definition truthy_str (o : option string) : bool :=
  match o with
  | Some s => Str.nonempty s
  | None => false
  end.

Definition or_str (a b : option string) : option string :=
  if truthy_str a then a else b.

Definition template_str (o : option string) : string :=
  match o with
  | Some s => s
  | None => "undefined"
  end.

End Js.

(* ================================================================== *)
(** ** File contents and the file system

    The file system is a tree of directories.  A path is looked up by the
    segments of its absolute, normalised form. *)

Inductive Content : Type :=
| Text (s : string)
| Binary (bytes : list Byte.byte).

Inductive Node : Type :=
| File (data : Content)
| Dir (entries : list (string * Node)).

Module Fs.

Definition isDirectory (n : Node) : bool :=
  match n with
  | Dir _ => true
  | File _ => false
  end.

Fixpoint assoc_replace (key : string) (n : Node) (l : list (string * Node))
  : list (string * Node) :=
  match l with
  | [] => []
  | (k, old) :: rest =>
      if k =? key then (k, n) :: rest else (k, old) :: assoc_replace key n rest
  end.

Fixpoint find_node (n : Node) (segs : list string) : option Node :=
  match segs with
  | [] => Some n
  | seg :: rest =>
      match n with
      | Dir entries =>
          match Js.assoc seg entries with
          | Some child => find_node child rest
          | None => None
          end
      | File _ => None
      end
  end.

(** [mkdir -p]: fails when a file is in the way. *)
Fixpoint mkdir_p (n : Node) (segs : list string) : option Node :=
  match n with
  | File _ => None
  | Dir entries =>
      match segs with
      | [] => Some n
      | seg :: rest =>
          match Js.assoc seg entries with
          | Some child =>
              match mkdir_p child rest with
              | Some child' => Some (Dir (assoc_replace seg child' entries))
              | None => None
              end
          | None =>
              match mkdir_p (Dir []) rest with
              | Some child' => Some (Dir (entries ++ [(seg, child')]))
              | None => None
              end
          end
      end
  end.

(** Writing a file: its directory must exist, and the target must not be
    a directory. *)
Fixpoint write_at (n : Node) (segs : list string) (data : Content)
  : option Node :=
  match segs with
  | [] =>
      match n with
      | File _ => Some (File data)
      | Dir _ => None
      end
  | seg :: rest =>
      match n with
      | File _ => None
      | Dir entries =>
          match Js.assoc seg entries with
          | Some child =>
              match write_at child rest data with
              | Some child' => Some (Dir (assoc_replace seg child' entries))
              | None => None
              end
          | None =>
              match rest with
              | [] => Some (Dir (entries ++ [(seg, File data)]))
              | _ :: _ => None
              end
          end
      end
  end.

(** A name a directory entry can have. *)
Definition entry_name (name : string) : bool :=
  Str.nonempty name && negb (Str.has_char Str.slash name)
  && negb (name =? ".") && negb (name =? "..").

Fixpoint well_formed (n : Node) : bool :=
  match n with
  | File _ => true
  | Dir entries =>
      forallb (fun e => entry_name (fst e) && well_formed (snd e)) entries
  end.

End Fs.

(* ================================================================== *)
(** ** The extension registry ([Main/ExtensionManager]) *)

Module ExtensionManager.

Definition Id : Type := N.

(** Modelled from the spec: the registry of [Main/ExtensionManager], whose
    source is not part of the repository excerpt.  It maps an extension id
    to the path of its manifest, in insertion order; [nextId] is the next
    id to mint and [notifications] counts the change notifications sent
    to the observers. *)
Record Registry : Type := {
  records : list (Id * string);
  nextId : Id;
  notifications : nat
}.

Record AddResult : Type := { id : Id; existed : bool }.

Definition empty : Registry :=
  {| records := []; nextId := 0%N; notifications := 0 |}.

Fixpoint find_path (manifestPath : string) (rs : list (Id * string))
  : option Id :=
  match rs with
  | [] => None
  | (i, p) :: rest =>
      if p =? manifestPath then Some i else find_path manifestPath rest
  end.

Fixpoint find_id (i : Id) (rs : list (Id * string)) : option string :=
  match rs with
  | [] => None
  | (j, p) :: rest => if (j =? i)%N then Some p else find_id i rest
  end.

(** Modelled from the spec: [addPath(manifestPath)] returns the id of the
    record the path already has, with [existed = true] and no
    notification; otherwise it mints a new id, stores the record,
    notifies the observers and returns [existed = false]. *)
Definition addPath (reg : Registry) (manifestPath : string)
  : Registry * AddResult :=
  match find_path manifestPath (records reg) with
  | Some i => (reg, {| id := i; existed := true |})
  | None =>
      ({| records := records reg ++ [(nextId reg, manifestPath)];
          nextId := N.succ (nextId reg);
          notifications := S (notifications reg) |},
       {| id := nextId reg; existed := false |})
  end.

(** Modelled from the spec: [getPath(id)], failing on an unknown id, and
    [getAllIds()] in insertion order. *)
Definition getPath (reg : Registry) (i : Id) : option string :=
  find_id i (records reg).

Definition getAllIds (reg : Registry) : list Id := map fst (records reg).

(** Ids are below [nextId] and no id and no path is recorded twice. *)
Definition well_formed (reg : Registry) : Prop :=
  NoDup (map fst (records reg))
  /\ NoDup (map snd (records reg))
  /\ Forall (fun r => (fst r < nextId reg)%N) (records reg).

End ExtensionManager.

Abbreviation Id := ExtensionManager.Id.
Abbreviation Registry := ExtensionManager.Registry.

(* ================================================================== *)
(** ** Errors, the world and tasks *)

(** The [Error]s the handlers throw, under the names the specification
    gives them; [FsError] is a rejection coming from the file system. *)
Inductive Error : Type :=
| FsError (syscall path : string)
| ManifestNamingError
| InvalidFileError (name : string)
| ManifestTypeError
| ManifestParseError
| ManifestShapeError
| ReservedFieldError (build : option JsValue)
| NoManifestError
| InvalidDirectoryError
| DestinationExistsError
| UnexpectedDuplicateError
| UnknownIdError
| ManifestReadError.

(** The text each error is constructed with in the source; the text of a
    rejection that comes from the runtime or from the registry is only
    indicative. *)
Definition message (e : Error) : string :=
  match e with
  | FsError syscall path => syscall +++ " '" +++ path +++ "'"
  | ManifestNamingError => "Manifest must be named 'manifest.json'"
  | InvalidFileError name => "Filename " +++ Str.quoted name +++ " not allowed"
  | ManifestTypeError => "Manifest must be a string"
  | ManifestParseError => "Unexpected token in JSON"
  | ManifestShapeError => "Manifest must be a JSON object"
  | ReservedFieldError build =>
      "Manifest 'build' value " +++ Str.quoted (Js.to_string_opt build)
      +++ " not allowed"
  | NoManifestError => "No manifest found"
  | InvalidDirectoryError => "Invalid directory name"
  | DestinationExistsError =>
      "Overwriting existing files or directories not supported"
  | UnexpectedDuplicateError => "Extension unexpectedly already added"
  | UnknownIdError => "Unknown extension id"
  | ManifestReadError => "Cannot read manifest"
  end.

(** [storage.settings.app]: the fields the handlers read and write. *)
Record Settings : Type := {
  lastSavedPluginDir : option string;
  lastExportDir : option string;
  exportDir : option string
}.

(** What the handlers show or log. *)
Inductive Event : Type :=
| MessageBox (type title message detail : string)
| LoggerError (text : string).

Record World : Type := {
  fs : Node;
  cwd : string;
  registry : Registry;
  settings : Settings;
  events : list Event
}.

Definition set_fs (w : World) (n : Node) : World :=
  {| fs := n; cwd := cwd w; registry := registry w;
     settings := settings w; events := events w |}.

Definition set_registry (w : World) (r : Registry) : World :=
  {| fs := fs w; cwd := cwd w; registry := r;
     settings := settings w; events := events w |}.

Definition set_settings (w : World) (s : Settings) : World :=
  {| fs := fs w; cwd := cwd w; registry := registry w;
     settings := s; events := events w |}.

Definition add_event (w : World) (e : Event) : World :=
  {| fs := fs w; cwd := cwd w; registry := registry w;
     settings := settings w; events := events w ++ [e] |}.

Definition set_lastSavedPluginDir (s : Settings) (d : string) : Settings :=
  {| lastSavedPluginDir := Some d; lastExportDir := lastExportDir s;
     exportDir := exportDir s |}.

Definition set_lastExportDir (s : Settings) (d : string) : Settings :=
  {| lastSavedPluginDir := lastSavedPluginDir s; lastExportDir := Some d;
     exportDir := exportDir s |}.

(** How a promise settles. *)
Inductive Completion (A : Type) : Type :=
| Returned (a : A)
| Thrown (e : Error).

Arguments Returned {A} a.
Arguments Thrown {A} e.

(** An asynchronous function over a state [S]. *)
Definition Task (S A : Type) : Type := S -> S * Completion A.

Definition ret {S A} (a : A) : Task S A := fun s => (s, Returned a).

Definition throw {S A} (e : Error) : Task S A := fun s => (s, Thrown e).

Definition bind {S A B} (m : Task S A) (k : A -> Task S B) : Task S B :=
  fun s =>
    match m s with
    | (s', Returned a) => k a s'
    | (s', Thrown e) => (s', Thrown e)
    end.

Notation "x <- m ;; k" := (bind m (fun x => k))
  (at level 61, m at next level, right associativity).
Notation "m ;;; k" := (bind m (fun _ => k))
  (at level 61, right associativity).

(** [await Promise.all(tasks)]: every task runs, whatever the others do; the
    joint promise is rejected with the first rejection.

    The source starts the tasks together and the event loop interleaves
    them.  Here they run one after the other, in the order of the list,
    which is one of the orders the event loop can take; the state given
    back, with a rejection too, is the one reached once every task has
    settled, while the source sees a rejection as soon as it occurs and
    lets the other tasks go on.  Which ids the registry mints for which
    paths, and in which order the records stand, depends on that order:
    what is stated of a joint wait is stated of what does not. *)
Fixpoint promise_all {S} (tasks : list (Task S unit)) : Task S unit :=
  match tasks with
  | [] => ret tt
  | task :: rest =>
      fun s =>
        let (s1, c1) := task s in
        let (s2, c2) := promise_all rest s1 in
        (s2, match c1 with
             | Thrown e => Thrown e
             | Returned _ => c2
             end)
  end.

(** *** File system calls of the handlers *)

Definition lookup_path (w : World) (p : string) : option Node :=
  Fs.find_node (fs w) (Path.abs_segments (cwd w) p).

(** [await fs.promises.stat(p)]: rejected when nothing is at [p]. *)
Definition stat (p : string) : Task World Node :=
  fun w =>
    match lookup_path w p with
    | Some n => (w, Returned n)
    | None => (w, Thrown (FsError "ENOENT: no such file or directory, stat" p))
    end.

(** [await fs.promises.readdir(p)]: the entry names of a directory. *)
Definition readdir (p : string) : Task World (list string) :=
  fun w =>
    match lookup_path w p with
    | Some (Dir entries) => (w, Returned (map fst entries))
    | Some (File _) =>
        (w, Thrown (FsError "ENOTDIR: not a directory, scandir" p))
    | None =>
        (w, Thrown (FsError "ENOENT: no such file or directory, scandir" p))
    end.

(** [fs.promises.writeFile(p, data)], whose rejection the callers catch:
    the result tells whether the file was written. *)
Definition writeFile (p : string) (data : Content) (w : World) : World * bool :=
  match Fs.write_at (fs w) (Path.abs_segments (cwd w) p) data with
  | Some n => (set_fs w n, true)
  | None => (w, false)
  end.

(** Modelled from the spec: [access] of [Utils/Main], the test that "the
    destination path already exists". *)
Definition access (p : string) : Task World bool :=
  fun w =>
    match lookup_path w p with
    | Some _ => (w, Returned true)
    | None => (w, Returned false)
    end.

(** Modelled from the spec: [mkPath] of [Utils/Main], which "creates the
    destination directory (and intermediate directories)"; it is rejected
    when a file is in the way. *)
Definition mkPath (p : string) : Task World unit :=
  fun w =>
    match Fs.mkdir_p (fs w) (Path.abs_segments (cwd w) p) with
    | Some n => (set_fs w n, Returned tt)
    | None => (w, Thrown (FsError "EEXIST: file already exists, mkdir" p))
    end.

(** Modelled from the spec: [MANIFEST_FILE_NAME] of [Const], "a manifest
    file named exactly by a fixed constant name (e.g. manifest.json)"; the
    naming error of the source spells the same name. *)
Definition MANIFEST_FILE_NAME : string := "manifest.json".



(* ================================================================== *)
(** ** What the handlers import *)

(** The imports of the handlers whose definitions are outside the excerpt:
    the extension allow-list of [Const], [sanitizeFileName] of
    [Utils/Common], and the runtime's [JSON.parse] ([None] is a
    [SyntaxError]) and [JSON.stringify(v, undefined, space)], called
    without a replacer; [space] is the number of spaces of one level of
    indentation. *)
Record Host : Type := {
  FILE_EXTENSION_WHITE_LIST : list string;
  sanitizeFileName : string -> string;
  JSON_parse : string -> option JsValue;
  JSON_stringify : JsValue -> Z -> string
}.

(** The user in front of the native dialogs, as [Main/Dialogs] reports the
    answers: the chosen path of a save dialog and the chosen paths of an
    open dialog, nothing when the dialog is dismissed. *)
Record SaveDialogOptions : Type := {
  save_title : option string;
  save_defaultPath : string
}.

Record OpenDialogOptions : Type := {
  open_properties : list string;
  open_buttonLabel : string;
  open_defaultPath : option string
}.

Record Dialogs : Type := {
  showSaveDialog : SaveDialogOptions -> option string;
  showOpenDialog : OpenDialogOptions -> option (list string)
}.

(** The value [dialog.showOpenDialog] of Electron resolves to. *)
Record OpenDialogReturnValue : Type := {
  canceled : bool;
  filePaths : list string
}.

(* ================================================================== *)
(** ** [createMultipleNewLocalFileExtensions] (menu.ts, lines 109-147) *)

(** The object the handler returns; its two arrays are the variables
    [added] and [existed] that [processEntry] closes over. *)
Record ImportResult : Type := {
  added : list Id;
  existed : list Id
}.

Definition ScanState : Type := (World * ImportResult)%type.

Definition lift_world {A} (t : Task World A) : Task ScanState A :=
  fun st =>
    let (w', c) := t (fst st) in ((w', snd st), c).

(** Lines 132-138: [Ext.addPath(entryPath)], then a push on one of the two
    arrays. *)
Definition register_entry (entryPath : string) : Task ScanState unit :=
  fun st =>
    let (w, lists) := st in
    let (reg', res) := ExtensionManager.addPath (registry w) entryPath in
    if ExtensionManager.existed res then
      ((set_registry w reg',
        {| added := added lists;
           existed := existed lists ++ [ExtensionManager.id res] |}),
       Returned tt)
    else
      ((set_registry w reg',
        {| added := added lists ++ [ExtensionManager.id res];
           existed := existed lists |}),
       Returned tt).

(** Lines 131-141: what is done with an entry that is not descended
    into. *)
Definition process_leaf (entryPath : string) (topLevel : bool)
  : Task ScanState unit :=
  if Path.basename entryPath =? MANIFEST_FILE_NAME then
    register_entry entryPath
  else if topLevel then throw ManifestNamingError
  else ret tt.

(** Lines 121-142.  The recursion is on the remaining depth: [levels] is
    [Z.to_nat depth], so that [depth > 0] reads [levels = S _] and
    [depth - 1] is the predecessor (see [processEntry_equation] for the
    equation on [depth] itself). *)
Fixpoint processEntry_levels (levels : nat) (entryPath : string)
         (topLevel : bool) : Task ScanState unit :=
  stats <- lift_world (stat entryPath) ;;
  match levels with
  | S levels' =>
      if Fs.isDirectory stats then
        fileNames <- lift_world (readdir entryPath) ;;
        let fileNames := filter Str.first_is_not_dot fileNames in
        fun st =>
          promise_all
            (map (fun name =>
                    processEntry_levels levels'
                      (Path.resolve (cwd (fst st)) entryPath name) false)
                 fileNames) st
      else process_leaf entryPath topLevel
  | O => process_leaf entryPath topLevel
  end.

Definition processEntry (entryPath : string) (depth : Z) (topLevel : bool)
  : Task ScanState unit :=
  processEntry_levels (Z.to_nat depth) entryPath topLevel.

(** The handler; [dialogResult] is what the awaited
    [dialog.showOpenDialog(null, data.options)] resolved to ([None] for a
    falsy value) and [depth] is [data.depth]. *)
Definition createMultipleNewLocalFileExtensions
           (dialogResult : option OpenDialogReturnValue) (depth : Z)
  : Task World ImportResult :=
  fun w =>
    let nothing := {| added := []; existed := [] |} in
    match dialogResult with
    | None => (w, Returned nothing)
    | Some result =>
        if canceled result then (w, Returned nothing)
        else
          let pickedPaths := filePaths result in
          match promise_all
                  (map (fun name => processEntry name depth true) pickedPaths)
                  (w, nothing) with
          | ((w', lists), Returned _) => (w', Returned lists)
          | ((w', _), Thrown e) => (w', Thrown e)
          end
    end.

(* ================================================================== *)
(** ** [writeNewExtensionToDisk] (menu.ts, lines 186-276) *)

Module PackageWriter.

(** An element of [data.files]. *)
Record PendingFile : Type := {
  name : string;
  content : Content
}.

Record Data : Type := {
  files : list PendingFile;
  dirName : string
}.

(** [files[index].content = text].  The source assigns through
    [manifestFile], an alias of the element of [data.files]. *)
Fixpoint set_content (index : nat) (text : string) (files : list PendingFile)
  : list PendingFile :=
  match files, index with
  | [], _ => []
  | file :: rest, O => {| name := name file; content := Text text |} :: rest
  | file :: rest, S index' => file :: set_content index' text rest
  end.

(** One group [\.\w+] of the file name pattern. *)
Definition skip_dot_word (s : string) : option string :=
  match s with
  | String c s' => if Ascii.eqb c Str.dot then Str.skip_word_plus s' else None
  | EmptyString => None
  end.

(** [/^\w+(?:\.\w+)*\.\w+/.test(name)].  The pattern is anchored at the
    start only and a dot is no word character: after the greedy [\w+]
    one group [\.\w+] must follow, further groups are optional. *)
Definition filename_pattern (name : string) : bool :=
  match Str.skip_word_plus name with
  | Some rest =>
      match skip_dot_word rest with
      | Some _ => true
      | None => false
      end
  | None => false
  end.

Section Handler.

Variable host : Host.

(** Lines 191-195: the condition under which a file name is refused. *)
Definition name_refused (name : string) : bool :=
  negb (Str.includes (FILE_EXTENSION_WHITE_LIST host) (Path.extname name))
  || negb (filename_pattern name)
  || negb (name =? sanitizeFileName host name).

(** Lines 199-211: the manifest file is parsed and inspected. *)
Definition read_manifest (file : PendingFile) : Completion JsValue :=
  match content file with
  | Binary _ => Thrown ManifestTypeError
  | Text text =>
      match JSON_parse host text with
      | None => Thrown ManifestParseError
      | Some manifest =>
          if negb (Js.is_object manifest) then Thrown ManifestShapeError
          else if Js.truthy_opt (Js.get manifest "build") then
            Thrown (ReservedFieldError (Js.get manifest "build"))
          else Returned manifest
      end
  end.

(** Lines 190-213: the loop over [data.files].  [found] holds the
    variables [manifest] and [manifestFile] (the latter as the index of
    the file in [data.files]), [index] is the position of the head of
    [files]. *)
Fixpoint validate (files : list PendingFile) (index : nat)
         (found : option (JsValue * nat))
  : Completion (option (JsValue * nat)) :=
  match files with
  | [] => Returned found
  | file :: rest =>
      if name_refused (name file) then Thrown (InvalidFileError (name file))
      else if name file =? MANIFEST_FILE_NAME then
        match read_manifest file with
        | Returned manifest => validate rest (S index) (Some (manifest, index))
        | Thrown e => Thrown e
        end
      else validate rest (S index) found
  end.

(** Lines 255-264: one [writeFile], whose rejection is logged. *)
Definition save_file (saveDir : string) (manifest : JsValue)
           (file : PendingFile) : Task World unit :=
  fun w =>
    let filePath := Path.join saveDir (name file) in
    match writeFile filePath (content file) w with
    | (w', true) => (w', Returned tt)
    | (w', false) =>
        (add_event w'
           (LoggerError
              ("Cannot save file: " +++ filePath +++ " for extension: "
               +++ Str.quoted (Js.to_string_opt (Js.get manifest "name"))
               +++ ", error:" +++ Str.newline)),
         Returned tt)
    end.

(** Lines 269-275. *)
Definition register_package (saveDir : string) : Task World (option Id) :=
  fun w =>
    let (reg', res) :=
      ExtensionManager.addPath (registry w)
                               (Path.join saveDir MANIFEST_FILE_NAME) in
    if ExtensionManager.existed res then
      (set_registry w reg', Thrown UnexpectedDuplicateError)
    else (set_registry w reg', Returned (Some (ExtensionManager.id res))).

(** Lines 234-275: what happens once the save dialog gave [saveDir].

    The writes of lines 254-267 are issued together and awaited jointly;
    they run here in the order of [data.files].  Two files of one name
    are written to one path: in the source the two writes race and what
    the file holds in the end is not determined, here the later file
    wins.  What is stated of the content of a file is stated for a name
    that occurs once. *)
Definition write_package (manifest : JsValue) (manifestFile : nat)
           (files : list PendingFile) (saveDir : string)
  : Task World (option Id) :=
  let basename := Path.basename saveDir in
  (fun w =>
     (set_settings w
        (set_lastSavedPluginDir (settings w) (Path.parse_dir saveDir)),
      Returned tt)) ;;;
  if negb (Str.nonempty basename) then throw InvalidDirectoryError
  else
    let named := Js.truthy_opt (Js.get manifest "name") in
    let manifest :=
      if named then manifest else Js.set manifest "name" (JString basename) in
    let files :=
      if named then files
      else set_content manifestFile (JSON_stringify host manifest 2) files in
    accessDir <- access saveDir ;;
    if accessDir then throw DestinationExistsError
    else
      mkPath saveDir ;;;
      promise_all (map (save_file saveDir manifest) files) ;;;
      register_package saveDir.

(** Lines 219-228: the options of the save dialog. *)
Definition save_prompt (manifest : JsValue) (data : Data) (w : World)
  : SaveDialogOptions :=
  let dirName := sanitizeFileName host (dirName data) in
  let lastDir := lastSavedPluginDir (settings w) in
  let dir :=
    if Js.truthy_str lastDir
    then Js.template_str lastDir +++ "/" +++ dirName
    else dirName in
  {| save_title :=
       Some (if Js.truthy_opt (Js.get manifest "name")
             then "Choose plugin directory location"
             else "Choose plugin name and directory location");
     save_defaultPath := dir |}.

(** The handler; [ui] answers the save dialog. *)
Definition writeNewExtensionToDisk (ui : Dialogs) (data : Data)
  : Task World (option Id) :=
  fun w =>
    match validate (files data) 0 None with
    | Thrown e => (w, Thrown e)
    | Returned None => (w, Thrown NoManifestError)
    | Returned (Some (manifest, manifestFile)) =>
        let saveDir := showSaveDialog ui (save_prompt manifest data w) in
        if negb (Js.truthy_str saveDir) then (w, Returned None)
        else
          write_package manifest manifestFile (files data)
                        (Js.template_str saveDir) w
    end.

End Handler.

End PackageWriter.

(* ================================================================== *)
(** ** [writeFiles] (menu.ts, lines 293-355) *)

Module ExportWriter.

(** An element of [data.files]. *)
Record ExportFile : Type := {
  name : string;
  buffer : list Byte.byte
}.

(** The [detail] of the message box of lines 347-352. *)
Definition failure_detail (fileName : string) : string :=
  Str.quoted fileName
  +++ " could not be saved. Remaining files will not be saved.".

(** Lines 341-353: the body of the loop, for one file. *)
Definition export_file (directoryPath : string) (file : ExportFile)
  : Task World unit :=
  let outputPath := Path.join directoryPath (name file) in
  mkPath (Path.dirname outputPath) ;;;
  fun w =>
    match writeFile outputPath (Binary (buffer file)) w with
    | (w', true) => (w', Returned tt)
    | (w', false) =>
        (add_event w'
           (MessageBox "error" "Export Failed" "Saving file failed"
                       (failure_detail (name file))),
         Returned tt)
    end.

(** Lines 340-354: [for (const file of files)], each step awaited. *)
Fixpoint export_all (directoryPath : string) (files : list ExportFile)
  : Task World unit :=
  match files with
  | [] => ret tt
  | file :: rest =>
      export_file directoryPath file ;;; export_all directoryPath rest
  end.

Definition set_export_dir (d : string) : Task World unit :=
  fun w => (set_settings w (set_lastExportDir (settings w) d), Returned tt).

(** [files.length === 1 && !files[0].name.includes(path.sep)]. *)
Definition single_plain_file (files : list ExportFile) : option ExportFile :=
  match files with
  | [file] =>
      if negb (Str.has_char Str.slash (name file)) then Some file else None
  | _ => None
  end.

(** Lines 336-354. *)
Definition export_into (directoryPath : string) (files : list ExportFile)
  : Task World unit :=
  if negb (Str.nonempty directoryPath) then ret tt
  else export_all directoryPath files.

(** The handler.  The variable [skipReplaceConfirmation] of the source is
    assigned and never read; it is left out, and so is [wait(1)]. *)
Definition writeFiles (ui : Dialogs) (files : list ExportFile)
  : Task World unit :=
  fun w =>
    let lastDir :=
      Js.or_str (lastExportDir (settings w)) (exportDir (settings w)) in
    match files with
    | [] => (w, Returned tt)
    | _ :: _ =>
        match single_plain_file files with
        | Some file =>
            let originalFileName := name file in
            let savePath :=
              showSaveDialog ui
                {| save_title := None;
                   save_defaultPath :=
                     Js.template_str lastDir +++ "/"
                     +++ Path.basename originalFileName |} in
            if Js.truthy_str savePath then
              let savePath := Js.template_str savePath in
              let directoryPath := Path.dirname savePath in
              let newName := Path.basename savePath in
              let newName :=
                if Path.extname newName =? EmptyString
                then newName +++ Path.extname originalFileName
                else newName in
              (set_export_dir (Path.parse_dir savePath) ;;;
               export_into directoryPath
                 [{| name := newName; buffer := buffer file |}]) w
            else (w, Returned tt)
        | None =>
            match showOpenDialog ui
                    {| open_properties := ["openDirectory"; "createDirectory"];
                       open_buttonLabel := "Save";
                       open_defaultPath := lastDir |} with
            | Some [directoryPath] =>
                (set_export_dir directoryPath ;;;
                 export_into directoryPath files) w
            | _ => (w, Returned tt)
            end
        end
    end.

End ExportWriter.

(* ================================================================== *)
(** ** A host to run the handlers on

    An executable [JSON.parse] and [JSON.stringify(v, undefined, space)]
    for the values of [JsValue], a [sanitizeFileName] and an allow-list, used
    to evaluate the handlers on concrete requests.  The theorems below hold
    for every [Host]. *)

Module Json.

Definition is_ws (c : ascii) : bool :=
  let n := nat_of_ascii c in
  ((n =? 32) || (n =? 9) || (n =? 10) || (n =? 13))%nat.

Definition is_digit (c : ascii) : bool :=
  let n := nat_of_ascii c in ((48 <=? n) && (n <=? 57))%nat.

Fixpoint skip_ws (s : string) : string :=
  match s with
  | String c s' => if is_ws c then skip_ws s' else s
  | EmptyString => EmptyString
  end.

Fixpoint strip_prefix (pre s : string) : option string :=
  match pre, s with
  | EmptyString, _ => Some s
  | String a pre', String b s' =>
      if Ascii.eqb a b then strip_prefix pre' s' else None
  | String _ _, EmptyString => None
  end.

Definition hex_digit (c : ascii) : option nat :=
  let n := nat_of_ascii c in
  if ((48 <=? n) && (n <=? 57))%nat then Some (n - 48)
  else if ((97 <=? n) && (n <=? 102))%nat then Some (n - 87)
  else if ((65 <=? n) && (n <=? 70))%nat then Some (n - 55)
  else None.

Definition hex_char (n : nat) : ascii :=
  ascii_of_nat (if (n <? 10)%nat then 48 + n else 87 + n).

(** The characters of a string literal after its opening quote, up to
    the closing one.  Escapes above code 255
    have no image in [string] and are refused. *)
Fixpoint parse_chars (s : string) : option (string * string) :=
  match s with
  | EmptyString => None
  | String c s' =>
      if Ascii.eqb c "034" then Some (EmptyString, s')
      else if Ascii.eqb c "\" then
        match s' with
        | String e s'' =>
            let simple (d : ascii) :=
              match parse_chars s'' with
              | Some (text, rest) => Some (String d text, rest)
              | None => None
              end in
            if Ascii.eqb e "034" then simple "034"%char
            else if Ascii.eqb e "\" then simple "\"%char
            else if Ascii.eqb e "/" then simple "/"%char
            else if Ascii.eqb e "b" then simple "008"%char
            else if Ascii.eqb e "f" then simple "012"%char
            else if Ascii.eqb e "n" then simple "010"%char
            else if Ascii.eqb e "r" then simple "013"%char
            else if Ascii.eqb e "t" then simple "009"%char
            else if Ascii.eqb e "u" then
              match s'' with
              | String "0" (String "0" (String h (String l s3))) =>
                  match hex_digit h, hex_digit l, parse_chars s3 with
                  | Some hi, Some lo, Some (text, rest) =>
                      Some (String (ascii_of_nat (16 * hi + lo)) text, rest)
                  | _, _, _ => None
                  end
              | _ => None
              end
            else None
        | EmptyString => None
        end
      else if (nat_of_ascii c <? 32)%nat then None
      else
        match parse_chars s' with
        | Some (text, rest) => Some (String c text, rest)
        | None => None
        end
  end.

Fixpoint parse_digits (s : string) (acc : Z) : Z * string :=
  match s with
  | String c s' =>
      if is_digit c
      then parse_digits s' (10 * acc + Z.of_nat (nat_of_ascii c - 48))
      else (acc, s)
  | EmptyString => (acc, s)
  end.

(** An integer literal; a fraction or an exponent is outside the
    integers of [JsValue] and is refused. *)
Definition parse_int (s : string) : option (Z * string) :=
  let after (n : Z) (rest : string) :=
    match rest with
    | String c _ =>
        if Ascii.eqb c "." || Ascii.eqb c "e" || Ascii.eqb c "E"
        then None else Some (n, rest)
    | EmptyString => Some (n, rest)
    end in
  match s with
  | String c s' =>
      if Ascii.eqb c "0" then
        match s' with
        | String d _ => if is_digit d then None else after 0%Z s'
        | EmptyString => after 0%Z s'
        end
      else if is_digit c then
        let (n, rest) := parse_digits s 0%Z in after n rest
      else None
  | EmptyString => None
  end.

Definition parse_number (s : string) : option (Z * string) :=
  match s with
  | String c s' =>
      if Ascii.eqb c "-" then
        match parse_int s' with
        | Some (n, rest) => Some ((- n)%Z, rest)
        | None => None
        end
      else parse_int s
  | EmptyString => None
  end.

Fixpoint parse_value (fuel : nat) (s : string) : option (JsValue * string) :=
  match fuel with
  | O => None
  | S fuel' =>
      match skip_ws s with
      | EmptyString => None
      | String c s' as text =>
          if Ascii.eqb c "034" then
            match parse_chars s' with
            | Some (str, rest) => Some (JString str, rest)
            | None => None
            end
          else if Ascii.eqb c "[" then
            match skip_ws s' with
            | String d rest =>
                if Ascii.eqb d "]" then Some (JArray [] [], rest)
                else
                  match parse_elements fuel' s' with
                  | Some (elems, rest) => Some (JArray elems [], rest)
                  | None => None
                  end
            | EmptyString => None
            end
          else if Ascii.eqb c "{" then
            match skip_ws s' with
            | String d rest =>
                if Ascii.eqb d "}" then Some (JObject [], rest)
                else
                  match parse_members fuel' s' [] with
                  | Some (props, rest) => Some (JObject props, rest)
                  | None => None
                  end
            | EmptyString => None
            end
          else
            match strip_prefix "null" text, strip_prefix "true" text,
                  strip_prefix "false" text with
            | Some rest, _, _ => Some (JNull, rest)
            | _, Some rest, _ => Some (JBool true, rest)
            | _, _, Some rest => Some (JBool false, rest)
            | None, None, None =>
                match parse_number text with
                | Some (n, rest) => Some (JNumber n, rest)
                | None => None
                end
            end
      end
  end

with parse_elements (fuel : nat) (s : string)
     : option (list JsValue * string) :=
  match fuel with
  | O => None
  | S fuel' =>
      match parse_value fuel' s with
      | Some (v, rest) =>
          match skip_ws rest with
          | String c rest' =>
              if Ascii.eqb c "," then
                match parse_elements fuel' rest' with
                | Some (vs, rest'') => Some (v :: vs, rest'')
                | None => None
                end
              else if Ascii.eqb c "]" then Some ([v], rest')
              else None
          | EmptyString => None
          end
      | None => None
      end
  end

with parse_members (fuel : nat) (s : string) (acc : list (string * JsValue))
     : option (list (string * JsValue) * string) :=
  match fuel with
  | O => None
  | S fuel' =>
      match skip_ws s with
      | String q s1 =>
          if Ascii.eqb q "034" then
            match parse_chars s1 with
            | Some (key, s2) =>
                match skip_ws s2 with
                | String colon s3 =>
                    if Ascii.eqb colon ":" then
                      match parse_value fuel' s3 with
                      | Some (v, rest) =>
                          let acc := Js.assoc_set key v acc in
                          match skip_ws rest with
                          | String c rest' =>
                              if Ascii.eqb c ","
                              then parse_members fuel' rest' acc
                              else if Ascii.eqb c "}" then Some (acc, rest')
                              else None
                          | EmptyString => None
                          end
                      | None => None
                      end
                    else None
                | EmptyString => None
                end
            | None => None
            end
          else None
      | EmptyString => None
      end
  end.

(** [JSON.parse(text)]. *)
Definition parse (text : string) : option JsValue :=
  match parse_value (2 * String.length text + 2) text with
  | Some (v, rest) =>
      match skip_ws rest with
      | EmptyString => Some v
      | String _ _ => None
      end
  | None => None
  end.

Fixpoint escape (s : string) : string :=
  match s with
  | EmptyString => EmptyString
  | String c s' =>
      let n := nat_of_ascii c in
      (if Ascii.eqb c "034" then String "\" (String "034" EmptyString)
       else if Ascii.eqb c "\" then "\\"
       else if (n =? 8)%nat then "\b"
       else if (n =? 12)%nat then "\f"
       else if (n =? 10)%nat then "\n"
       else if (n =? 13)%nat then "\r"
       else if (n =? 9)%nat then "\t"
       else if (n <? 32)%nat then
         "\u00" +++ String (hex_char (n / 16)) (String (hex_char (n mod 16)) "")
       else String c EmptyString)
      +++ escape s'
  end.

Definition quote (s : string) : string := Str.quoted (escape s).

Fixpoint spaces (n : nat) : string :=
  match n with
  | O => EmptyString
  | S n' => String " " (spaces n')
  end.

Definition newline : string := Str.newline.

(** [JSON.stringify(v, undefined, 2)] at nesting level [level]. *)
Fixpoint print (level : nat) (v : JsValue) : string :=
  match v with
  | JNull => "null"
  | JBool true => "true"
  | JBool false => "false"
  | JNumber n => Js.string_of_Z n
  | JString s => quote s
  | JArray [] _ => "[]"
  | JArray elems _ =>
      "[" +++ newline
      +++ String.concat ("," +++ newline)
            (map (fun e => spaces (2 * S level) +++ print (S level) e) elems)
      +++ newline +++ spaces (2 * level) +++ "]"
  | JObject [] => "{}"
  | JObject props =>
      "{" +++ newline
      +++ String.concat ("," +++ newline)
            (map (fun kv => spaces (2 * S level) +++ quote (fst kv) +++ ": "
                            +++ print (S level) (snd kv)) props)
      +++ newline +++ spaces (2 * level) +++ "}"
  end.

Definition stringify (v : JsValue) : string := print 0 v.

(** [JSON.stringify(v, undefined, space)] at nesting level [level], for a
    gap of [gap] spaces; without a gap the text has no line break and no
    space. *)
Fixpoint print_gap (gap level : nat) (v : JsValue) : string :=
  match v with
  | JNull => "null"
  | JBool true => "true"
  | JBool false => "false"
  | JNumber n => Js.string_of_Z n
  | JString s => quote s
  | JArray [] _ => "[]"
  | JArray elems _ =>
      match gap with
      | O => "[" +++ String.concat "," (map (print_gap gap level) elems) +++ "]"
      | S _ =>
          "[" +++ newline
          +++ String.concat ("," +++ newline)
                (map (fun e => spaces (gap * S level)
                               +++ print_gap gap (S level) e) elems)
          +++ newline +++ spaces (gap * level) +++ "]"
      end
  | JObject [] => "{}"
  | JObject props =>
      match gap with
      | O =>
          "{" +++ String.concat ","
                    (map (fun kv => quote (fst kv) +++ ":"
                                    +++ print_gap gap level (snd kv)) props)
          +++ "}"
      | S _ =>
          "{" +++ newline
          +++ String.concat ("," +++ newline)
                (map (fun kv => spaces (gap * S level) +++ quote (fst kv)
                                +++ ": " +++ print_gap gap (S level) (snd kv))
                     props)
          +++ newline +++ spaces (gap * level) +++ "}"
      end
  end.

(** The number [space] gives a gap of at most ten spaces, and none when
    it is below 1. *)
Definition stringify_space (v : JsValue) (space : Z) : string :=
  print_gap (Z.to_nat (Z.min space 10)) 0 v.

End Json.

Module Sample.

(** Modelled from the spec: [sanitizeFileName] "strips characters unsafe
    for a filesystem entry name"; here the separators, the characters
    reserved by file systems and the control characters. *)
Definition unsafe_char (c : ascii) : bool :=
  let n := nat_of_ascii c in
  (n <? 32)%nat || (127 <? n)%nat
  || Str.has_char c ("/\?<>:*|" +++ Str.dquote).

Fixpoint strip_unsafe (s : string) : string :=
  match s with
  | EmptyString => EmptyString
  | String c s' =>
      if unsafe_char c then strip_unsafe s' else String c (strip_unsafe s')
  end.

Definition host : Host :=
  {| FILE_EXTENSION_WHITE_LIST := [".html"; ".js"; ".ts"; ".json"; ".css"];
     sanitizeFileName := strip_unsafe;
     JSON_parse := Json.parse;
     JSON_stringify := Json.stringify_space |}.

Definition no_settings : Settings :=
  {| lastSavedPluginDir := None; lastExportDir := None; exportDir := None |}.

(** A world over the tree [root], with nothing registered yet. *)
Definition world (root : Node) : World :=
  {| fs := root; cwd := "/"; registry := ExtensionManager.empty;
     settings := no_settings; events := [] |}.

(** A user who dismisses every dialog, and one who always picks [p]. *)
Definition dismiss : Dialogs :=
  {| showSaveDialog := fun _ => None; showOpenDialog := fun _ => None |}.

Definition choose (p : string) : Dialogs :=
  {| showSaveDialog := fun _ => Some p; showOpenDialog := fun _ => Some [p] |}.

Definition pick (paths : list string) : option OpenDialogReturnValue :=
  Some {| canceled := false; filePaths := paths |}.

(** [/plugins/a/manifest.json], [/plugins/b/x/manifest.json] and a hidden
    [/plugins/.cache/manifest.json]. *)
Definition plugins : Node :=
  Dir [("plugins",
        Dir [("a", Dir [("manifest.json", File (Text "{}"));
                        ("code.js", File (Text "run()"))]);
             ("b", Dir [("x", Dir [("manifest.json", File (Text "{}"))])]);
             (".cache", Dir [("manifest.json", File (Text "{}"))])])].

Definition text_file (n text : string) : PackageWriter.PendingFile :=
  {| PackageWriter.name := n; PackageWriter.content := Text text |}.

Definition package (files : list PackageWriter.PendingFile) : PackageWriter.Data :=
  {| PackageWriter.files := files; PackageWriter.dirName := "myplug" |}.

(** The manifest text [{"key": value}] for a value given as JSON text. *)
Definition manifest_with (key value : string) : string :=
  "{" +++ Str.quoted key +++ ":" +++ value +++ "}".

(** [/out] holds a directory named [a.png], so that no file [a.png] can
    be written there. *)
Definition out_dir : Node := Dir [("out", Dir [("a.png", Dir [])])].

Definition png (n : string) : ExportWriter.ExportFile :=
  {| ExportWriter.name := n; ExportWriter.buffer := [Byte.x89] |}.

End Sample.

(* ================================================================== *)
(** ** Vocabulary of the statements *)

(** Two worlds that differ in the registry at most. *)
Definition same_files (w w' : World) : Prop :=
  fs w' = fs w /\ cwd w' = cwd w /\ settings w' = settings w
  /\ events w' = events w.

(** A file of a package that the validation loop passes over without an
    error: its name is not refused and, when it is named as the manifest,
    its content is a text that parses to an object with no truthy
    [build]. *)
Definition accepted (host : Host) (file : PackageWriter.PendingFile) : Prop :=
  PackageWriter.name_refused host (PackageWriter.name file) = false
  /\ (PackageWriter.name file = MANIFEST_FILE_NAME ->
      exists manifest, PackageWriter.read_manifest host file = Returned manifest).

(** The manifest and the files of a package as they are once the name is
    defaulted (lines 241-244), and the world once the last save directory
    is set (line 236). *)
Definition named_manifest (manifest : JsValue) (saveDir : string) : JsValue :=
  if Js.truthy_opt (Js.get manifest "name") then manifest
  else Js.set manifest "name" (JString (Path.basename saveDir)).

Definition named_files (host : Host) (manifest : JsValue) (manifestFile : nat)
           (pending : list PackageWriter.PendingFile) (saveDir : string)
  : list PackageWriter.PendingFile :=
  if Js.truthy_opt (Js.get manifest "name") then pending
  else PackageWriter.set_content manifestFile
         (JSON_stringify host (named_manifest manifest saveDir) 2) pending.

Definition remember_dir (w : World) (saveDir : string) : World :=
  set_settings w (set_lastSavedPluginDir (settings w) (Path.parse_dir saveDir)).

(** What the scan maintains while it runs from a registry whose ids were
    [ids0]: the registry stays well formed, the ids it gained are exactly
    those pushed on [added], and every id pushed on [existed] is
    registered. *)
Definition collected (ids0 : list Id) (st : ScanState) : Prop :=
  ExtensionManager.well_formed (registry (fst st))
  /\ ExtensionManager.getAllIds (registry (fst st)) = ids0 ++ added (snd st)
  /\ Forall (fun i => In i (ExtensionManager.getAllIds (registry (fst st))))
            (existed (snd st)).

(** The outcome of an import reports the manifest at [manifestPath]: the
    import returned, and one of the ids it returned is registered for that
    path. *)
Definition discovers (outcome : World * Completion ImportResult)
           (manifestPath : string) : Prop :=
  exists lists i,
    snd outcome = Returned lists
    /\ In i (added lists ++ existed lists)
    /\ ExtensionManager.getPath (registry (fst outcome)) i = Some manifestPath.

(** The path of the entry reached from [root] through [names], as
    [processEntry] builds it with [path.resolve]. *)
Definition descend (cwd root : string) (names : list string) : string :=
  fold_left (Path.resolve cwd) names root.

(** The state of a scan reports the manifest at [manifestPath]: one of the
    ids pushed so far is registered for that path. *)
Definition reported (manifestPath : string) (st : ScanState) : Prop :=
  exists i,
    In i (added (snd st) ++ existed (snd st))
    /\ ExtensionManager.getPath (registry (fst st)) i = Some manifestPath.

(** Every id pushed so far is registered for a path that lies at most
    [limit] segments below [root]. *)
Definition within (cwd root : string) (limit : nat) (st : ScanState) : Prop :=
  forall i,
    In i (added (snd st) ++ existed (snd st)) ->
    exists q names,
      ExtensionManager.getPath (registry (fst st)) i = Some q
      /\ Path.abs_segments cwd q = Path.abs_segments cwd root ++ names
      /\ length names <= limit.

(** The directory at [segs] exists in the tree [n] and holds files only. *)
Definition flat_dir (n : Node) (segs : list string) : Prop :=
  exists entries,
    Fs.find_node n segs = Some (Dir entries)
    /\ Forall (fun e => Fs.isDirectory (snd e) = false) entries.

(** The content of the last of [pending] that is named [n]. *)
Fixpoint content_for (n : string) (pending : list PackageWriter.PendingFile)
  : option Content :=
  match pending with
  | [] => None
  | file :: rest =>
      match content_for n rest with
      | Some data => Some data
      | None =>
          if PackageWriter.name file =? n
          then Some (PackageWriter.content file) else None
      end
  end.

(* ================================================================== *)
(** ** The walk of an import, as a function

    What [processEntry] does depends on the file system only through the
    manifests it comes upon.  They are listed here in the order in which
    the linearised tasks register them. *)

(** The paths that [processEntry], given [levels] levels, hands to
    [Ext.addPath] from [entryPath]: an entry that is not descended into is
    handed over when its base name is the manifest file name. *)
Fixpoint manifests_found (w : World) (levels : nat) (entryPath : string)
  : list string :=
  match lookup_path w entryPath with
  | None => []
  | Some node =>
      match levels, node with
      | S levels', Dir entries =>
          flat_map
            (fun name =>
               manifests_found w levels'
                 (Path.resolve (cwd w) entryPath name))
            (filter Str.first_is_not_dot (map fst entries))
      | _, _ =>
          if Path.basename entryPath =? MANIFEST_FILE_NAME
          then [entryPath] else []
      end
  end.

(** The same for the paths picked in the dialog, with [data.depth]. *)
Definition picked_manifests (w : World) (depth : Z) (pickedPaths : list string)
  : list string :=
  flat_map (manifests_found w (Z.to_nat depth)) pickedPaths.

(** The state and the registry after one more [Ext.addPath]. *)
Definition register_step (st : ScanState) (manifestPath : string) : ScanState :=
  fst (register_entry manifestPath st).

Definition add_path (reg : Registry) (manifestPath : string) : Registry :=
  fst (ExtensionManager.addPath reg manifestPath).

(** An entry that [processEntry] does not descend into: anything but a
    directory, and a directory when no depth is left. *)
Definition not_descended (node : Node) (depth : Z) : bool :=
  negb (Fs.isDirectory node && (0 <? depth)%Z).

(* ================================================================== *)
(** ** The plugin menu (menu.ts, lines 7-94) *)

Module PluginMenu.

(** What a click does: [handleUrl(url)] or [app.emit(channel, action)]. *)
Inductive Effect : Type :=
| HandleUrl (url : string)
| AppEmit (channel : string) (action : JsValue).

(** An item of an Electron menu as [electronOfPluginMenuItem] builds it.
    The [click] of a normal item is always [handlePluginMenuAction]; it
    is not stored. *)
Inductive ElectronItem : Type :=
| NormalItem (label : string) (enabled : bool) (visible : option bool)
             (pluginMenuAction : option JsValue)
| SeparatorItem
| SubmenuItem (label : string) (submenu : list ElectronItem).

(** [item.pluginMenuAction]. *)
Definition pluginMenuAction_of (item : ElectronItem) : option JsValue :=
  match item with
  | NormalItem _ _ _ action => action
  | SeparatorItem | SubmenuItem _ _ => None
  end.

(** The action of an item when it is a normal item, as a list. *)
Definition normal_action (item : ElectronItem) : list (option JsValue) :=
  match item with
  | NormalItem _ _ _ action => [action]
  | SeparatorItem | SubmenuItem _ _ => []
  end.

(** [action.type === "manage"]. *)
Definition is_manage (action : JsValue) : bool :=
  match Js.get action "type" with
  | Some (JString t) => t =? "manage"
  | _ => false
  end.

(** Lines 7-21.  [window] tells whether a window was passed; the keyboard
    event is not looked at. *)
Definition handlePluginMenuAction (item : option ElectronItem) (window : bool)
  : option Effect :=
  match item with
  | Some item =>
      match pluginMenuAction_of item with
      | Some action =>
          if Js.truthy action && window then
            if is_manage action then Some (HandleUrl "/my_plugins")
            else Some (AppEmit "handlePluginMenuAction" action)
          else None
      | None => None
      end
  | None => None
  end.

Section Items.

(** The type of the [name] of an action item, and
    [stringOfActionMenuItemName] of [Utils/Common], which renders it. *)
Variable ActionName : Type.
Variable stringOfActionMenuItemName : ActionName -> string.

(** [Menu.MenuItem], the union that the [switch] of line 25 goes through;
    [disabled], [visible] and [menuAction] may be missing. *)
Inductive MenuItem : Type :=
| RunMenuAction (name : ActionName) (menuAction : option JsValue)
                (disabled : option bool) (visible : option bool)
| Separator
| Submenu (name : string) (submenu : list MenuItem).

(** Lines 24-55. *)
Fixpoint electronOfPluginMenuItem (input : MenuItem) : ElectronItem :=
  match input with
  | RunMenuAction name menuAction disabled visible =>
      NormalItem (stringOfActionMenuItemName name)
                 (negb (match disabled with Some b => b | None => false end))
                 visible menuAction
  | Separator => SeparatorItem
  | Submenu name submenu =>
      SubmenuItem name (map electronOfPluginMenuItem submenu)
  end.

(** The action items of a plugin menu, in document order. *)
Fixpoint action_items (input : MenuItem) : list (option JsValue) :=
  match input with
  | RunMenuAction _ menuAction _ _ => [menuAction]
  | Separator => []
  | Submenu _ submenu => flat_map action_items submenu
  end.

End Items.

(** The items of an Electron menu, in document order, submenus
    included. *)
Fixpoint items_of (item : ElectronItem) : list ElectronItem :=
  item :: match item with
          | SubmenuItem _ submenu => flat_map items_of submenu
          | NormalItem _ _ _ _ | SeparatorItem => []
          end.

(** An item of the application menu, as [buildActionToMenuItemMap] reads
    it: its [action], its [submenu], and a [label] for the rest of it. *)
Inductive AppItem : Type :=
| MenuEntry (label : string) (action : option string)
            (submenu : option (list AppItem)).

Definition action_of (item : AppItem) : option string :=
  match item with MenuEntry _ action _ => action end.

(** Lines 82-89, for one [item]: [map] is the object that [parseMenu]
    fills, its keys in the order of their first assignment. *)
Fixpoint parseItem (item : AppItem) (map : list (string * AppItem))
  : list (string * AppItem) :=
  match item with
  | MenuEntry _ action submenu =>
      let map :=
        if Js.truthy_str action
        then Js.assoc_set (Js.template_str action) item map
        else map in
      match submenu with
      | Some items => fold_left (fun m sub => parseItem sub m) items map
      | None => map
      end
  end.

(** Lines 81-90. *)
Definition parseMenu (items : list AppItem) (map : list (string * AppItem))
  : list (string * AppItem) :=
  fold_left (fun m item => parseItem item m) items map.

(** Lines 79-94. *)
Definition buildActionToMenuItemMap (menu : list AppItem)
  : list (string * AppItem) :=
  parseMenu menu [].

(** The items of the menu in the order in which the loop meets them, and
    whether an item is stored under the key [a]. *)
Fixpoint entries_of (item : AppItem) : list AppItem :=
  item :: match item with
          | MenuEntry _ _ (Some items) => flat_map entries_of items
          | MenuEntry _ _ None => []
          end.

Definition has_action (a : string) (item : AppItem) : bool :=
  Js.truthy_str (action_of item) && (Js.template_str (action_of item) =? a).

(** The last item stored under [a] among those met, or what the map held
    before. *)
Definition latest (a : string) (met : list AppItem)
           (map : list (string * AppItem)) : option AppItem :=
  match find (has_action a) (rev met) with
  | Some item => Some item
  | None => Js.assoc a map
  end.

End PluginMenu.

(** What no step of an export changes, and the only way it is
    rejected. *)
Definition export_frame (w : World) (outcome : World * Completion unit) : Prop :=
  registry (fst outcome) = registry w
  /\ cwd (fst outcome) = cwd w
  /\ settings (fst outcome) = settings w
  /\ forall e, snd outcome = Thrown e -> exists syscall p, e = FsError syscall p.

(* ================================================================== *)
(** ** [openExtensionDirectory] (menu.ts, lines 161-165) *)

(** The path handed to [shell.openPath]: the directory part of the path
    registered for [id]; [Ext.getPath] fails on an unknown id. *)
Definition openExtensionDirectory (id : Id) (w : World) : Completion string :=
  match ExtensionManager.getPath (registry w) id with
  | Some manifestPath => Returned (Path.parse_dir manifestPath)
  | None => Thrown UnknownIdError
  end.

(* ================================================================== *)
(** * Properties *)

(** ** Paths *)

(** The path functions on the samples of Node's documentation and on the
    corner cases of its algorithms. *)
Example path_samples :
  Path.basename "/plugins/a/manifest.json" = "manifest.json"
  /\ Path.basename "/a/b//" = "b"
  /\ Path.basename "/" = ""
  /\ Path.parse_dir "/a/b" = "/a"
  /\ Path.parse_dir "/a" = "/"
  /\ Path.parse_dir "/" = "/"
  /\ Path.parse_dir "a//b" = "a/"
  /\ Path.parse_dir "b" = ""
  /\ Path.dirname "/out/sub/a.png" = "/out/sub"
  /\ Path.dirname "a.png" = "."
  /\ Path.dirname "a//b" = "a/"
  /\ Path.dirname "//a" = "//"
  /\ Path.extname "code.min.js" = ".js"
  /\ Path.extname ".bashrc" = ""
  /\ Path.extname "a." = "."
  /\ Path.extname ".." = ""
  /\ Path.join "/out" "sub/../a.png" = "/out/a.png"
  /\ Path.join "/out" "a/" = "/out/a/"
  /\ Path.resolve "/home" "/plugins" "a" = "/plugins/a"
  /\ Path.resolve "/home" "/" "a" = "/a"
  /\ Path.resolve "/home" "plugins" "a" = "/home/plugins/a"
  /\ Path.resolve "/home" "" "a" = "/home/a".
Proof. repeat split; reflexivity. Qed.

Section PathFacts.

Import Path.

Local Arguments Ascii.eqb : simpl never.
Local Arguments String.eqb : simpl never.

Lemma split_slash_not_nil (s : string) :
  exists seg rest, split_slash s = seg :: rest.
Proof.
  destruct s as [| c s]; simpl; eauto.
  destruct (Ascii.eqb c Str.slash); eauto.
  destruct (split_slash s); eauto.
Qed.

Lemma split_slash_app (a b : string) :
  split_slash (a +++ "/" +++ b) = split_slash a ++ split_slash b.
Proof.
  induction a as [| c a IH].
  - reflexivity.
  - change (split_slash (String c a +++ "/" +++ b))
      with (if Ascii.eqb c Str.slash
            then EmptyString :: split_slash (a +++ "/" +++ b)
            else match split_slash (a +++ "/" +++ b) with
                 | seg :: rest => String c seg :: rest
                 | [] => [String c EmptyString]
                 end).
    rewrite IH. simpl.
    destruct (Ascii.eqb c Str.slash); [reflexivity |].
    destruct (split_slash_not_nil a) as (seg & rest & ->).
    reflexivity.
Qed.

Lemma split_slash_plain (s : string) :
  Str.has_char Str.slash s = false -> split_slash s = [s].
Proof.
  induction s as [| c s IH]; simpl; intros H.
  - reflexivity.
  - apply orb_false_iff in H as [Hc Hs].
    rewrite Ascii.eqb_sym, Hc, (IH Hs). reflexivity.
Qed.

Lemma split_slash_segments (s : string) :
  Forall (fun seg => Str.has_char Str.slash seg = false) (split_slash s).
Proof.
  induction s as [| c s IH]; simpl.
  - repeat constructor.
  - destruct (Ascii.eqb c Str.slash) eqn:E.
    + constructor; [reflexivity | exact IH].
    + destruct (split_slash s) as [| seg rest].
      * repeat constructor. simpl. now rewrite Ascii.eqb_sym, E.
      * inversion IH; subst. constructor; [| assumption].
        simpl. rewrite Ascii.eqb_sym, E. assumption.
Qed.

Lemma entry_name_plain (n : string) :
  Fs.entry_name n = true -> Str.has_char Str.slash n = false.
Proof.
  unfold Fs.entry_name. intros H.
  repeat (apply andb_true_iff in H as [H ?]).
  now apply negb_true_iff.
Qed.

Lemma split_join_slash (segs : list string) :
  segs <> [] ->
  Forall (fun seg => Str.has_char Str.slash seg = false) segs ->
  split_slash (join_slash segs) = segs.
Proof.
  induction segs as [| seg rest IH]; intros Hne Hall; [congruence |].
  inversion Hall as [| ? ? Hseg Hrest]; subst.
  destruct rest as [| seg' rest'].
  - simpl. now apply split_slash_plain.
  - change (join_slash (seg :: seg' :: rest'))
      with (seg +++ "/" +++ join_slash (seg' :: rest')).
    rewrite split_slash_app, (split_slash_plain _ Hseg), IH;
      [reflexivity | congruence | assumption].
Qed.

(** Normalising a list of segments that ends in entry names keeps them. *)
Lemma normalize_step_entry (stack : list string) (seg : string) :
  Fs.entry_name seg = true -> normalize_step false stack seg = seg :: stack.
Proof.
  unfold Fs.entry_name, normalize_step. intros H.
  repeat (apply andb_true_iff in H as [H ?]).
  destruct seg as [| c seg]; [discriminate |].
  apply negb_true_iff in H0, H1.
  rewrite H0, H1. reflexivity.
Qed.

Lemma fold_normalize_entries (names stack : list string) :
  Forall (fun n => Fs.entry_name n = true) names ->
  fold_left (normalize_step false) names stack = rev names ++ stack.
Proof.
  revert stack.
  induction names as [| n names IH]; intros stack Hall; simpl.
  - reflexivity.
  - inversion Hall; subst.
    rewrite normalize_step_entry by assumption.
    rewrite IH by assumption. now rewrite <- app_assoc.
Qed.

Lemma normalize_segs_app (segs names : list string) :
  Forall (fun n => Fs.entry_name n = true) names ->
  normalize_segs false (segs ++ names) = normalize_segs false segs ++ names.
Proof.
  intros Hall. unfold normalize_segs.
  rewrite fold_left_app, fold_normalize_entries by assumption.
  now rewrite rev_app_distr, rev_involutive.
Qed.

Lemma normalize_segs_entries (names : list string) :
  Forall (fun n => Fs.entry_name n = true) names ->
  normalize_segs false names = names.
Proof.
  intros Hall. apply (normalize_segs_app [] names Hall).
Qed.

Lemma normalize_segs_skip_empty (segs : list string) :
  normalize_segs false (segs ++ [EmptyString]) = normalize_segs false segs.
Proof.
  unfold normalize_segs. rewrite fold_left_app. reflexivity.
Qed.

Lemma normalize_step_keeps (stack : list string) (seg : string) :
  Str.has_char Str.slash seg = false ->
  Forall (fun n => Fs.entry_name n = true) stack ->
  Forall (fun n => Fs.entry_name n = true) (normalize_step false stack seg).
Proof.
  intros Hseg Hstack. unfold normalize_step.
  destruct (seg =? "") eqn:E1; [assumption |].
  destruct (seg =? ".") eqn:E2; [assumption |].
  simpl.
  destruct (seg =? "..") eqn:E3.
  - destruct stack as [| top below]; [constructor |].
    inversion Hstack; subst.
    destruct (top =? ".."); assumption.
  - constructor; [| assumption].
    unfold Fs.entry_name. rewrite Hseg, E2, E3.
    destruct seg; [discriminate | reflexivity].
Qed.

Lemma normalize_segs_clean (segs : list string) :
  Forall (fun seg => Str.has_char Str.slash seg = false) segs ->
  Forall (fun n => Fs.entry_name n = true) (normalize_segs false segs).
Proof.
  intros Hall. unfold normalize_segs.
  apply Forall_rev.
  assert (G : forall stack,
             Forall (fun n => Fs.entry_name n = true) stack ->
             Forall (fun n => Fs.entry_name n = true)
                    (fold_left (normalize_step false) segs stack)).
  { induction Hall as [| seg segs Hseg _ IH]; intros stack Hstack; simpl.
    - assumption.
    - apply IH. now apply normalize_step_keeps. }
  apply G. constructor.
Qed.

Lemma abs_segments_clean (cwd p : string) :
  Forall (fun n => Fs.entry_name n = true) (abs_segments cwd p).
Proof.
  unfold abs_segments. apply normalize_segs_clean, split_slash_segments.
Qed.

Lemma entries_plain (names : list string) :
  Forall (fun n => Fs.entry_name n = true) names ->
  Forall (fun seg => Str.has_char Str.slash seg = false) names.
Proof.
  intros H. eapply Forall_impl; [| exact H]. apply entry_name_plain.
Qed.

Lemma split_of_segs (names : list string) :
  Forall (fun n => Fs.entry_name n = true) names ->
  names <> [] ->
  split_slash (of_segs names) = EmptyString :: names.
Proof.
  intros Hall Hne. unfold of_segs. simpl.
  f_equal. apply split_join_slash; [assumption | now apply entries_plain].
Qed.

Lemma abs_segments_of_segs (cwd : string) (names : list string) :
  Forall (fun n => Fs.entry_name n = true) names ->
  abs_segments cwd (of_segs names) = names.
Proof.
  intros Hall. unfold abs_segments.
  change (isAbsolute (of_segs names)) with true. cbv iota.
  destruct names as [| n names].
  - reflexivity.
  - rewrite split_of_segs by (assumption || congruence).
    apply (normalize_segs_app [EmptyString] (n :: names) Hall).
Qed.

Lemma entry_name_relative (n : string) :
  Fs.entry_name n = true -> isAbsolute n = false /\ Str.nonempty n = true.
Proof.
  intros H. pose proof (entry_name_plain _ H) as Hp.
  unfold Fs.entry_name in H.
  repeat (apply andb_true_iff in H as [H ?]).
  destruct n as [| c n]; [discriminate |].
  simpl in Hp. apply orb_false_iff in Hp as [Hc _].
  simpl. now rewrite Ascii.eqb_sym, Hc.
Qed.

Lemma isAbsolute_app (a b : string) :
  Str.nonempty a = true -> isAbsolute (a +++ b) = isAbsolute a.
Proof. destruct a; [discriminate | reflexivity]. Qed.

Lemma append_assoc (a b c : string) : (a +++ b) +++ c = a +++ b +++ c.
Proof. induction a; simpl; congruence. Qed.

(** The segments of [a/name]. *)
Lemma abs_segments_child (cwd a name : string) :
  Fs.entry_name name = true ->
  Str.nonempty a = true ->
  abs_segments cwd (a +++ "/" +++ name) = abs_segments cwd a ++ [name].
Proof.
  intros Hname Ha. unfold abs_segments.
  rewrite (isAbsolute_app a _ Ha).
  destruct (isAbsolute a).
  - rewrite split_slash_app, (split_slash_plain name (entry_name_plain _ Hname)).
    apply normalize_segs_app. now constructor.
  - rewrite <- (append_assoc cwd "/" (a +++ "/" +++ name)).
    rewrite <- (append_assoc (cwd +++ "/") a ("/" +++ name)).
    rewrite split_slash_app, (split_slash_plain name (entry_name_plain _ Hname)).
    rewrite (append_assoc cwd "/" a).
    apply normalize_segs_app. now constructor.
Qed.

Lemma abs_segments_empty (cwd name : string) :
  Fs.entry_name name = true ->
  abs_segments cwd name = abs_segments cwd EmptyString ++ [name].
Proof.
  intros Hname. unfold abs_segments.
  destruct (entry_name_relative _ Hname) as [-> _]. simpl isAbsolute. cbv iota.
  rewrite !split_slash_app.
  rewrite (split_slash_plain name (entry_name_plain _ Hname)).
  simpl (split_slash EmptyString).
  rewrite normalize_segs_skip_empty.
  apply normalize_segs_app. now constructor.
Qed.

(** [path.resolve(a, name)] appends one segment to those of [a]. *)
Lemma abs_segments_resolve (cwd a name : string) :
  Fs.entry_name name = true ->
  abs_segments cwd (resolve cwd a name) = abs_segments cwd a ++ [name].
Proof.
  intros Hname. unfold resolve.
  destruct (entry_name_relative _ Hname) as [-> _]. simpl orb.
  destruct (Str.nonempty a) eqn:Ha; simpl negb; cbv iota.
  - rewrite abs_segments_of_segs by apply abs_segments_clean.
    now apply abs_segments_child.
  - rewrite abs_segments_of_segs by apply abs_segments_clean.
    destruct a; [| discriminate]. now apply abs_segments_empty.
Qed.

Lemma resolve_of_segs (cwd a name : string) :
  Fs.entry_name name = true ->
  resolve cwd a name = of_segs (abs_segments cwd a ++ [name]).
Proof.
  intros Hname. unfold resolve.
  destruct (entry_name_relative _ Hname) as [-> _]. simpl orb.
  destruct (Str.nonempty a) eqn:Ha; simpl negb; cbv iota.
  - now rewrite abs_segments_child.
  - destruct a; [| discriminate]. now rewrite abs_segments_empty.
Qed.

Lemma drop_empty_entry (n : string) (rest : list string) :
  Fs.entry_name n = true -> drop_empty (n :: rest) = n :: rest.
Proof.
  intros H. destruct (entry_name_relative _ H) as [_ Hn].
  simpl. now rewrite Hn.
Qed.

Lemma basename_of_segs (names : list string) (name : string) :
  Forall (fun n => Fs.entry_name n = true) names ->
  Fs.entry_name name = true ->
  basename (of_segs (names ++ [name])) = name.
Proof.
  intros Hall Hname. unfold basename, last_part.
  rewrite split_of_segs.
  - change (EmptyString :: names ++ [name])
      with ((EmptyString :: names) ++ [name]).
    rewrite rev_app_distr. simpl rev at 1.
    simpl app at 1. now rewrite drop_empty_entry.
  - apply Forall_app. split; [assumption | now constructor].
  - destruct names; discriminate.
Qed.

Lemma basename_resolve (cwd a name : string) :
  Fs.entry_name name = true -> basename (resolve cwd a name) = name.
Proof.
  intros Hname. rewrite resolve_of_segs by assumption.
  apply basename_of_segs; [apply abs_segments_clean | assumption].
Qed.

End PathFacts.

(* ================================================================== *)
(** ** Tasks *)

Lemma promise_all_invariant {S : Type} (P : S -> Prop)
      (tasks : list (Task S unit)) :
  (forall task, In task tasks ->
                forall s s' c, P s -> task s = (s', c) -> P s') ->
  forall s s' c, P s -> promise_all tasks s = (s', c) -> P s'.
Proof.
  induction tasks as [| task rest IH]; intros Hstep s s' c Hs Hrun.
  - inversion Hrun; subst. exact Hs.
  - simpl in Hrun.
    destruct (task s) as [s1 c1] eqn:E1.
    destruct (promise_all rest s1) as [s2 c2] eqn:E2.
    inversion Hrun; subst.
    apply (IH (fun t Ht => Hstep t (or_intror Ht)) s1 s' c2); [| exact E2].
    apply (Hstep task (or_introl eq_refl) s s1 c1 Hs E1).
Qed.

(** A task that is rejected in every state that satisfies an invariant of
    the tasks rejects the joint promise. *)
Lemma promise_all_rejected {S : Type} (P : S -> Prop)
      (tasks : list (Task S unit)) (failing : Task S unit) :
  (forall task, In task tasks ->
                forall s s' c, P s -> task s = (s', c) -> P s') ->
  In failing tasks ->
  (forall s, P s -> exists e, snd (failing s) = Thrown e) ->
  forall s, P s -> exists e, snd (promise_all tasks s) = Thrown e.
Proof.
  induction tasks as [| task rest IH]; intros Hstep Hin Hfail s Hs.
  - destruct Hin.
  - simpl.
    destruct (task s) as [s1 c1] eqn:E1.
    destruct (promise_all rest s1) as [s2 c2] eqn:E2. simpl.
    destruct c1 as [[] | e]; [| eauto].
    destruct Hin as [-> | Hin].
    + destruct (Hfail s Hs) as [e He]. rewrite E1 in He. discriminate.
    + assert (Hs1 : P s1) by (eapply (Hstep task); [now left | exact Hs | exact E1]).
      destruct (IH (fun t Ht => Hstep t (or_intror Ht)) Hin Hfail s1 Hs1)
        as [e He].
      rewrite E2 in He. eauto.
Qed.

(** ** The scan reads the file system and never writes it *)

Lemma same_files_lookup (w w' : World) (p : string) :
  same_files w w' -> lookup_path w' p = lookup_path w p.
Proof. intros (Hfs & Hcwd & _). unfold lookup_path. now rewrite Hfs, Hcwd. Qed.

(** The steps of [processEntry], by what is found at [entryPath]. *)
Lemma processEntry_levels_unfold (levels : nat) (entryPath : string)
      (topLevel : bool) (w : World) (lists : ImportResult) :
  processEntry_levels levels entryPath topLevel (w, lists) =
  match lookup_path w entryPath with
  | None =>
      ((w, lists),
       Thrown (FsError "ENOENT: no such file or directory, stat" entryPath))
  | Some node =>
      match levels, node with
      | S levels', Dir entries =>
          promise_all
            (map (fun name =>
                    processEntry_levels levels'
                      (Path.resolve (cwd w) entryPath name) false)
                 (filter Str.first_is_not_dot (map fst entries)))
            (w, lists)
      | _, _ => process_leaf entryPath topLevel (w, lists)
      end
  end.
Proof.
  destruct levels; simpl; unfold bind, lift_world, stat, readdir; simpl;
    destruct (lookup_path w entryPath) as [[data | entries] |] eqn:E;
    simpl; try rewrite E; reflexivity.
Qed.

Lemma register_entry_same_files (entryPath : string) (st st' : ScanState)
      (c : Completion unit) (w : World) :
  same_files w (fst st) ->
  register_entry entryPath st = (st', c) -> same_files w (fst st').
Proof.
  intros H Hrun. unfold register_entry in Hrun.
  destruct st as [w0 lists].
  destruct (ExtensionManager.addPath (registry w0) entryPath) as [reg' res].
  destruct (ExtensionManager.existed res); inversion Hrun; subst; exact H.
Qed.

Lemma process_leaf_same_files (entryPath : string) (topLevel : bool)
      (st st' : ScanState) (c : Completion unit) (w : World) :
  same_files w (fst st) ->
  process_leaf entryPath topLevel st = (st', c) -> same_files w (fst st').
Proof.
  intros H Hrun. unfold process_leaf in Hrun.
  destruct (Path.basename entryPath =? MANIFEST_FILE_NAME).
  - eapply register_entry_same_files; eauto.
  - destruct topLevel; inversion Hrun; subst; exact H.
Qed.

Lemma processEntry_same_files (w : World) (levels : nat) :
  forall entryPath topLevel st st' c,
    same_files w (fst st) ->
    processEntry_levels levels entryPath topLevel st = (st', c) ->
    same_files w (fst st').
Proof.
  induction levels as [| levels IH];
    intros entryPath topLevel [w0 lists] st' c Hst Hrun;
    rewrite processEntry_levels_unfold in Hrun;
    destruct (lookup_path w0 entryPath) as [node |];
    try (inversion Hrun; subst; exact Hst).
  - eapply process_leaf_same_files; eauto.
  - destruct node as [data | entries].
    + eapply process_leaf_same_files; eauto.
    + eapply (promise_all_invariant (fun s => same_files w (fst s)));
        [| exact Hst | exact Hrun].
      intros task Hin s s' c' Hs Htask.
      apply in_map_iff in Hin as (name & <- & _).
      eapply IH; eauto.
Qed.

Lemma same_files_refl (w : World) : same_files w w.
Proof. repeat split. Qed.

(** The equation of [processEntry] on [depth], as the source writes it:
    a directory is descended into when [depth > 0], with [depth - 1]. *)
Lemma processEntry_equation (entryPath : string) (depth : Z) (topLevel : bool)
      (w : World) (lists : ImportResult) :
  processEntry entryPath depth topLevel (w, lists) =
  match lookup_path w entryPath with
  | None =>
      ((w, lists),
       Thrown (FsError "ENOENT: no such file or directory, stat" entryPath))
  | Some (Dir entries) =>
      if (0 <? depth)%Z then
        promise_all
          (map (fun name =>
                  processEntry (Path.resolve (cwd w) entryPath name)
                               (depth - 1) false)
               (filter Str.first_is_not_dot (map fst entries)))
          (w, lists)
      else process_leaf entryPath topLevel (w, lists)
  | Some (File _) => process_leaf entryPath topLevel (w, lists)
  end.
Proof.
  unfold processEntry. rewrite processEntry_levels_unfold.
  destruct (lookup_path w entryPath) as [[data | entries] |]; try reflexivity.
  - now destruct (Z.to_nat depth).
  - destruct (0 <? depth)%Z eqn:E.
    + apply Z.ltb_lt in E.
      replace (Z.to_nat depth) with (S (Z.to_nat (depth - 1))) by lia.
      reflexivity.
    + apply Z.ltb_ge in E.
      replace (Z.to_nat depth) with O by lia. reflexivity.
Qed.

(* ================================================================== *)
(** ** The open dialog is dismissed *)

(** C10.  When the open dialog of [createMultipleNewLocalFileExtensions]
    resolves to nothing or is cancelled, the handler returns
    [{ added: [], existed: [] }], is not rejected, and leaves the world (the
    registry with it) as it was, whatever the depth and the paths that the
    cancelled dialog reports. *)
Theorem import_cancelled_returns_empty_lists
        (depth : Z) (w : World) (paths : list string) :
  createMultipleNewLocalFileExtensions None depth w
  = (w, Returned {| added := []; existed := [] |})
  /\ createMultipleNewLocalFileExtensions
       (Some {| canceled := true; filePaths := paths |}) depth w
     = (w, Returned {| added := []; existed := [] |}).
Proof. split; reflexivity. Qed.

(* ================================================================== *)
(** ** A directory picked with no depth left *)

Lemma process_leaf_refused (entryPath : string) (st : ScanState) :
  Path.basename entryPath <> MANIFEST_FILE_NAME ->
  process_leaf entryPath true st = (st, Thrown ManifestNamingError).
Proof.
  intros Hname. unfold process_leaf.
  destruct (Path.basename entryPath =? MANIFEST_FILE_NAME) eqn:E.
  - apply String.eqb_eq in E. contradiction.
  - reflexivity.
Qed.

Lemma processEntry_refused (entryPath : string) (depth : Z) (w : World)
      (lists : ImportResult) (entries : list (string * Node)) :
  (depth <= 0)%Z ->
  lookup_path w entryPath = Some (Dir entries) ->
  Path.basename entryPath <> MANIFEST_FILE_NAME ->
  processEntry entryPath depth true (w, lists)
  = ((w, lists), Thrown ManifestNamingError).
Proof.
  intros Hdepth Hdir Hname.
  rewrite processEntry_equation, Hdir.
  replace (0 <? depth)%Z with false by (symmetry; apply Z.ltb_ge; lia).
  now apply process_leaf_refused.
Qed.

(** C1, as the code has it.  A directory picked as a top-level root, with a
    depth of 0 (or below) and a base name other than the manifest file
    name, is treated as any other pick that is neither descended into nor
    named as a manifest: processing it registers nothing and raises
    [ManifestNamingError], and the import is rejected whatever else was
    picked along with it. *)
Theorem directory_root_at_depth_zero_is_refused
        (w : World) (lists : ImportResult) (root : string) (depth : Z)
        (entries : list (string * Node)) :
  (depth <= 0)%Z ->
  lookup_path w root = Some (Dir entries) ->
  Path.basename root <> MANIFEST_FILE_NAME ->
  processEntry root depth true (w, lists)
  = ((w, lists), Thrown ManifestNamingError)
  /\ forall pickedPaths,
      In root pickedPaths ->
      exists e,
        snd (createMultipleNewLocalFileExtensions
               (Some {| canceled := false; filePaths := pickedPaths |})
               depth w)
        = Thrown e.
Proof.
  intros Hdepth Hdir Hname. split.
  - now apply (processEntry_refused root depth w lists entries).
  - intros pickedPaths Hin.
    unfold createMultipleNewLocalFileExtensions. cbv beta iota zeta.
    simpl canceled. cbv iota. simpl filePaths.
    set (tasks := map (fun name => processEntry name depth true) pickedPaths).
    set (start := (w, {| added := []; existed := [] |}) : ScanState).
    destruct (promise_all_rejected
                (fun s : ScanState => same_files w (fst s)) tasks
                (processEntry root depth true)) with (s := start)
      as [e He].
    + intros task Htask s s' c Hs Hrun.
      apply in_map_iff in Htask as (name & <- & _).
      eapply processEntry_same_files; eauto.
    + apply in_map_iff. eauto.
    + intros [w1 lists1] Hs. exists ManifestNamingError.
      rewrite (processEntry_refused root depth w1 lists1 entries); auto.
      now rewrite (same_files_lookup w w1).
    + apply same_files_refl.
    + destruct (promise_all tasks start) as [[w' lists'] c].
      simpl in He. subst c. exists e. reflexivity.
Qed.

(** Witness of C1: [/plugins] picked with depth 0. *)
Lemma directory_root_at_depth_zero_is_refused_witness :
  processEntry "/plugins" 0 true
    (Sample.world Sample.plugins, {| added := []; existed := [] |})
  = ((Sample.world Sample.plugins, {| added := []; existed := [] |}),
     Thrown ManifestNamingError)
  /\ forall pickedPaths,
      In "/plugins" pickedPaths ->
      exists e,
        snd (createMultipleNewLocalFileExtensions
               (Some {| canceled := false; filePaths := pickedPaths |})
               0 (Sample.world Sample.plugins))
        = Thrown e.
Proof.
  eapply (directory_root_at_depth_zero_is_refused
            (Sample.world Sample.plugins) _ "/plugins" 0%Z).
  - lia.
  - vm_compute. reflexivity.
  - vm_compute. discriminate.
Defined.

(** Counterexample to C1 as stated: the directory [/plugins], picked alone
    with depth 0, does not end in the manifest file name, and the import is
    rejected with [ManifestNamingError] instead of returning. *)
Lemma directory_root_at_depth_zero_counterexample :
  option_map Fs.isDirectory
             (lookup_path (Sample.world Sample.plugins) "/plugins")
  = Some true
  /\ Path.basename "/plugins" <> MANIFEST_FILE_NAME
  /\ createMultipleNewLocalFileExtensions
       (Sample.pick ["/plugins"]) 0 (Sample.world Sample.plugins)
     = (Sample.world Sample.plugins, Thrown ManifestNamingError).
Proof.
  split; [vm_compute; reflexivity |].
  split; [vm_compute; discriminate | vm_compute; reflexivity].
Qed.

(* ================================================================== *)
(** ** The validation loop of [writeNewExtensionToDisk] *)

Section ValidationFacts.

Import PackageWriter.

Variable host : Host.

Lemma validate_accepted_prefix (pre rest : list PendingFile) :
  Forall (accepted host) pre ->
  forall index found,
  exists found',
    validate host (pre ++ rest) index found
    = validate host rest (index + length pre) found'.
Proof.
  induction 1 as [| file pre [Hname Hmanifest] _ IH]; intros index found.
  - exists found. simpl. now rewrite Nat.add_0_r.
  - simpl. rewrite Hname.
    destruct (name file =? MANIFEST_FILE_NAME) eqn:E.
    + apply String.eqb_eq in E. destruct (Hmanifest E) as [manifest ->].
      destruct (IH (S index) (Some (manifest, index))) as [found' ->].
      exists found'. f_equal. lia.
    + destruct (IH (S index) found) as [found' ->].
      exists found'. f_equal. lia.
Qed.

Lemma validate_refused (files : list PendingFile) (file : PendingFile) :
  In file files ->
  name_refused host (name file) = true ->
  forall index found, exists e, validate host files index found = Thrown e.
Proof.
  induction files as [| head rest IH]; intros Hin Hrefused index found.
  - destruct Hin.
  - simpl. destruct (name_refused host (name head)) eqn:Ehead; [eauto |].
    destruct Hin as [-> | Hin]; [congruence |].
    destruct (name head =? MANIFEST_FILE_NAME).
    + destruct (read_manifest host head); [| eauto].
      now apply IH.
    + now apply IH.
Qed.

(** No step of the validation touches the world: whatever error ends it
    is thrown with the world as it was. *)
Lemma validation_error_leaves_world (ui : Dialogs) (data : Data) (w : World)
      (e : Error) :
  validate host (files data) 0 None = Thrown e ->
  writeNewExtensionToDisk host ui data w = (w, Thrown e).
Proof.
  intros H. unfold writeNewExtensionToDisk. now rewrite H.
Qed.

(** C2, as the code has it.  When the files before the manifest are
    accepted and the manifest file, itself of an allowed name, is a text
    that parses to an object whose [build] value is truthy, the handler
    throws [ReservedFieldError] out of the validation loop: the world is
    as it was, no directory was created, no file written and nothing
    registered.  (A [build] that is falsy passes the test
    [if (manifest.build)].) *)
Theorem truthy_build_field_is_refused
        (ui : Dialogs) (w : World) (pre post : list PendingFile)
        (file : PendingFile) (dir text : string) (manifest : JsValue) :
  Forall (accepted host) pre ->
  name file = MANIFEST_FILE_NAME ->
  name_refused host (name file) = false ->
  content file = Text text ->
  JSON_parse host text = Some manifest ->
  Js.is_object manifest = true ->
  Js.truthy_opt (Js.get manifest "build") = true ->
  writeNewExtensionToDisk host ui
    {| files := pre ++ file :: post; dirName := dir |} w
  = (w, Thrown (ReservedFieldError (Js.get manifest "build"))).
Proof.
  intros Hpre Hname Hallowed Htext Hparse Hobject Hbuild.
  apply validation_error_leaves_world. simpl files.
  destruct (validate_accepted_prefix pre (file :: post) Hpre 0 None)
    as [found' ->].
  simpl. rewrite Hallowed, Hname, String.eqb_refl.
  unfold read_manifest. now rewrite Htext, Hparse, Hobject, Hbuild.
Qed.

(** C4, as the code has it.  A file whose name fails the allow-list, the
    pattern or the sanitization check makes the handler fail with the
    world as it was, so nothing is written.  The error is
    [InvalidFileError] with the name of that file when the files before
    it are accepted; a manifest that comes earlier in [data.files] is
    parsed before the name is looked at, and its error wins. *)
Theorem refused_name_aborts_without_write
        (ui : Dialogs) (w : World) (pre post : list PendingFile)
        (file : PendingFile) (dir : string) :
  name_refused host (name file) = true ->
  (exists e,
      writeNewExtensionToDisk host ui
        {| files := pre ++ file :: post; dirName := dir |} w
      = (w, Thrown e))
  /\ (Forall (accepted host) pre ->
      writeNewExtensionToDisk host ui
        {| files := pre ++ file :: post; dirName := dir |} w
      = (w, Thrown (InvalidFileError (name file)))).
Proof.
  intros Hrefused. split.
  - destruct (validate_refused (pre ++ file :: post) file) with
      (index := 0) (found := @None (JsValue * nat)) as [e He].
    + apply in_or_app. right. now left.
    + exact Hrefused.
    + exists e. now apply validation_error_leaves_world.
  - intros Hpre. apply validation_error_leaves_world. simpl files.
    destruct (validate_accepted_prefix pre (file :: post) Hpre 0 None)
      as [found' ->].
    simpl. now rewrite Hrefused.
Qed.

(** C6.  When the files pass the validation and the save dialog is
    dismissed (it gives nothing, or an empty path), the handler returns
    [undefined] and the world is the one it started from: no file, no
    directory, the same registry and the same last save directory. *)
Theorem dismissed_save_dialog_is_no_result
        (ui : Dialogs) (data : Data) (w : World)
        (manifest : JsValue) (manifestFile : nat) :
  validate host (files data) 0 None = Returned (Some (manifest, manifestFile)) ->
  Js.truthy_str (showSaveDialog ui (save_prompt host manifest data w)) = false ->
  writeNewExtensionToDisk host ui data w = (w, Returned None).
Proof.
  intros Hvalid Hdismissed. unfold writeNewExtensionToDisk.
  now rewrite Hvalid, Hdismissed.
Qed.

End ValidationFacts.

(** Witness of C2: a manifest with [build] set to ["x"], after a script. *)
Lemma truthy_build_field_is_refused_witness :
  PackageWriter.writeNewExtensionToDisk Sample.host (Sample.choose "/plugins/new")
    (Sample.package
       [Sample.text_file "code.js" "run()";
        Sample.text_file "manifest.json"
                         (Sample.manifest_with "build" (Str.quoted "x"))])
    (Sample.world Sample.plugins)
  = (Sample.world Sample.plugins,
     Thrown (ReservedFieldError (Some (JString "x")))).
Proof.
  apply (truthy_build_field_is_refused Sample.host (Sample.choose "/plugins/new")
           (Sample.world Sample.plugins)
           [Sample.text_file "code.js" "run()"] []
           (Sample.text_file "manifest.json"
                             (Sample.manifest_with "build" (Str.quoted "x")))
           "myplug" (Sample.manifest_with "build" (Str.quoted "x"))
           (JObject [("build", JString "x")])).
  - repeat constructor. simpl. discriminate.
  - reflexivity.
  - vm_compute. reflexivity.
  - reflexivity.
  - vm_compute. reflexivity.
  - reflexivity.
  - reflexivity.
Defined.

(** Counterexample to C2 as stated: the manifest declares [build] as the
    empty string, and the package is written and registered. *)
Lemma falsy_build_field_counterexample :
  Json.parse (Sample.manifest_with "build" (Str.quoted ""))
  = Some (JObject [("build", JString "")])
  /\ PackageWriter.writeNewExtensionToDisk Sample.host
       (Sample.choose "/plugins/new")
       (Sample.package
          [Sample.text_file "manifest.json"
                            (Sample.manifest_with "build" (Str.quoted ""))])
       (Sample.world (Dir []))
     = ({| fs := Dir [("plugins",
                       Dir [("new",
                             Dir [("manifest.json",
                                   File (Text (Json.stringify
                                     (JObject [("build", JString "");
                                               ("name", JString "new")]))))])])];
           cwd := "/";
           registry :=
             {| ExtensionManager.records := [(0%N, "/plugins/new/manifest.json")];
                ExtensionManager.nextId := 1%N;
                ExtensionManager.notifications := 1 |};
           settings := {| lastSavedPluginDir := Some "/plugins";
                          lastExportDir := None; exportDir := None |};
           events := [] |},
        Returned (Some 0%N)).
Proof. split; vm_compute; reflexivity. Qed.

(** Witness of C4: a file with a space in its name, after a script and
    before a manifest that is no JSON. *)
Lemma refused_name_aborts_without_write_witness :
  PackageWriter.name_refused Sample.host "my ui.html" = true
  /\ PackageWriter.writeNewExtensionToDisk Sample.host (Sample.choose "/new")
       (Sample.package
          [Sample.text_file "code.js" "run()"; Sample.text_file "my ui.html" "";
           Sample.text_file "manifest.json" "{"])
       (Sample.world (Dir []))
     = (Sample.world (Dir []), Thrown (InvalidFileError "my ui.html")).
Proof.
  split; [vm_compute; reflexivity |].
  apply (refused_name_aborts_without_write Sample.host (Sample.choose "/new")
           (Sample.world (Dir []))
           [Sample.text_file "code.js" "run()"]
           [Sample.text_file "manifest.json" "{"]
           (Sample.text_file "my ui.html" "") "myplug").
  - vm_compute. reflexivity.
  - repeat constructor. simpl. discriminate.
Defined.

(** Counterexample to C4 as stated: the manifest comes first and is no
    JSON; the handler fails on it before it looks at the refused name. *)
Lemma manifest_parsed_before_later_names_counterexample :
  PackageWriter.name_refused Sample.host "my ui.html" = true
  /\ PackageWriter.writeNewExtensionToDisk Sample.host (Sample.choose "/new")
       (Sample.package
          [Sample.text_file "manifest.json" "{"; Sample.text_file "my ui.html" ""])
       (Sample.world (Dir []))
     = (Sample.world (Dir []), Thrown ManifestParseError).
Proof. split; vm_compute; reflexivity. Qed.

(** Witness of C6: a valid package, and a user who dismisses the dialog. *)
Lemma dismissed_save_dialog_is_no_result_witness :
  PackageWriter.writeNewExtensionToDisk Sample.host Sample.dismiss
    (Sample.package [Sample.text_file "manifest.json" "{}";
                     Sample.text_file "code.js" "run()"])
    (Sample.world Sample.plugins)
  = (Sample.world Sample.plugins, Returned None).
Proof.
  apply (dismissed_save_dialog_is_no_result Sample.host Sample.dismiss _ _
           (JObject []) 0).
  - vm_compute. reflexivity.
  - reflexivity.
Defined.

(* ================================================================== *)
(** ** After the save dialog *)

Section WriteFacts.

Import PackageWriter.

Variable host : Host.

Lemma save_files_return (saveDir : string) (manifest : JsValue)
      (pending : list PendingFile) (w : World) :
  snd (promise_all (map (save_file saveDir manifest) pending) w)
  = Returned tt.
Proof.
  revert w. induction pending as [| file rest IH]; intros w; simpl.
  - reflexivity.
  - destruct (save_file saveDir manifest file w) as [w1 c1] eqn:E1.
    specialize (IH w1).
    destruct (promise_all (map (save_file saveDir manifest) rest) w1)
      as [w2 c2].
    simpl in *. subst c2.
    unfold save_file in E1.
    destruct (writeFile (Path.join saveDir (name file)) (content file) w)
      as [w' []]; inversion E1; reflexivity.
Qed.

(** The steps of lines 234-275, one after the other. *)
Lemma write_package_steps (manifest : JsValue) (manifestFile : nat)
      (pending : list PendingFile) (saveDir : string) (w : World) :
  write_package host manifest manifestFile pending saveDir w =
  let w1 := remember_dir w saveDir in
  if negb (Str.nonempty (Path.basename saveDir)) then
    (w1, Thrown InvalidDirectoryError)
  else
    match lookup_path w saveDir with
    | Some _ => (w1, Thrown DestinationExistsError)
    | None =>
        match Fs.mkdir_p (fs w) (Path.abs_segments (cwd w) saveDir) with
        | None =>
            (w1, Thrown (FsError "EEXIST: file already exists, mkdir" saveDir))
        | Some tree =>
            register_package saveDir
              (fst (promise_all
                      (map (save_file saveDir
                                      (named_manifest manifest saveDir))
                           (named_files host manifest manifestFile pending saveDir))
                      (set_fs w1 tree)))
        end
    end.
Proof.
  unfold write_package, bind, remember_dir. cbv zeta.
  destruct (negb (Str.nonempty (Path.basename saveDir))); [reflexivity |].
  unfold access, mkPath, throw.
  set (w1 := set_settings w
               (set_lastSavedPluginDir (settings w) (Path.parse_dir saveDir))).
  change (lookup_path w1 saveDir) with (lookup_path w saveDir).
  destruct (lookup_path w saveDir); [reflexivity |].
  cbv beta iota.
  change (fs w1) with (fs w). change (cwd w1) with (cwd w).
  destruct (Fs.mkdir_p (fs w) (Path.abs_segments (cwd w) saveDir)) as [tree |];
    [| reflexivity].
  fold (named_manifest manifest saveDir).
  fold (named_files host manifest manifestFile pending saveDir).
  pose proof (save_files_return saveDir (named_manifest manifest saveDir)
                (named_files host manifest manifestFile pending saveDir)
                (set_fs w1 tree)) as Hret.
  destruct (promise_all
              (map (save_file saveDir (named_manifest manifest saveDir))
                   (named_files host manifest manifestFile pending saveDir))
              (set_fs w1 tree)) as [w3 c3].
  simpl in Hret. subst c3. reflexivity.
Qed.

Lemma save_file_frame (saveDir : string) (manifest : JsValue)
      (file : PendingFile) (w w' : World) (c : Completion unit) :
  save_file saveDir manifest file w = (w', c) ->
  settings w' = settings w /\ registry w' = registry w /\ cwd w' = cwd w.
Proof.
  unfold save_file, writeFile. intros H.
  destruct (Fs.write_at (fs w)
              (Path.abs_segments (cwd w) (Path.join saveDir (name file)))
              (content file));
    inversion H; subst; repeat split.
Qed.

Lemma save_files_frame (saveDir : string) (manifest : JsValue)
      (pending : list PendingFile) (w : World) :
  let w' := fst (promise_all (map (save_file saveDir manifest) pending) w) in
  settings w' = settings w /\ registry w' = registry w /\ cwd w' = cwd w.
Proof.
  cbv zeta.
  destruct (promise_all (map (save_file saveDir manifest) pending) w)
    as [w' c] eqn:E.
  simpl.
  apply (promise_all_invariant
           (fun s => settings s = settings w /\ registry s = registry w
                     /\ cwd s = cwd w)
           (map (save_file saveDir manifest) pending)) with (s := w) (c := c);
    [| repeat split | exact E].
  intros task Hin s s' c' (Hs & Hr & Hc) Hrun.
  apply in_map_iff in Hin as (file & <- & _).
  destruct (save_file_frame _ _ _ _ _ _ Hrun) as (Hs' & Hr' & Hc').
  repeat split; congruence.
Qed.

Lemma register_package_settings (saveDir : string) (w : World) :
  settings (fst (register_package saveDir w)) = settings w.
Proof.
  unfold register_package.
  destruct (ExtensionManager.addPath (registry w)
              (Path.join saveDir MANIFEST_FILE_NAME)) as [reg' res].
  now destruct (ExtensionManager.existed res).
Qed.

(** C9.  Once the save dialog has given a destination, the last save
    directory is set to the parent of the destination, whatever comes
    next: it is so when the handler ends, and in particular when it
    throws [InvalidDirectoryError] for an empty base name or
    [DestinationExistsError] for a destination that exists, with the
    files and the registry untouched in both cases. *)
Theorem last_save_directory_is_set_before_the_checks
        (ui : Dialogs) (data : Data) (w : World) (manifest : JsValue)
        (manifestFile : nat) (saveDir : string) :
  validate host (files data) 0 None = Returned (Some (manifest, manifestFile)) ->
  showSaveDialog ui (save_prompt host manifest data w) = Some saveDir ->
  Str.nonempty saveDir = true ->
  let outcome := writeNewExtensionToDisk host ui data w in
  lastSavedPluginDir (settings (fst outcome)) = Some (Path.parse_dir saveDir)
  /\ (Path.basename saveDir = EmptyString ->
      outcome = (remember_dir w saveDir, Thrown InvalidDirectoryError))
  /\ (Path.basename saveDir <> EmptyString ->
      lookup_path w saveDir <> None ->
      outcome = (remember_dir w saveDir, Thrown DestinationExistsError)).
Proof.
  intros Hvalid Hdialog Hsave. cbv zeta.
  unfold writeNewExtensionToDisk.
  rewrite Hvalid, Hdialog. simpl Js.truthy_str. rewrite Hsave.
  simpl negb. cbv iota. simpl Js.template_str.
  rewrite write_package_steps. cbv zeta.
  split; [| split].
  - destruct (negb (Str.nonempty (Path.basename saveDir))); [reflexivity |].
    destruct (lookup_path w saveDir); [reflexivity |].
    destruct (Fs.mkdir_p (fs w) (Path.abs_segments (cwd w) saveDir)) as [tree |];
      [| reflexivity].
    rewrite register_package_settings.
    destruct (save_files_frame saveDir (named_manifest manifest saveDir)
                (named_files host manifest manifestFile (files data) saveDir)
                (set_fs (remember_dir w saveDir) tree)) as (-> & _).
    reflexivity.
  - intros ->. reflexivity.
  - intros Hbase Hexists.
    destruct (Path.basename saveDir); [congruence |]. simpl.
    destruct (lookup_path w saveDir); [reflexivity | congruence].
Qed.

End WriteFacts.

(** Witness of C9: the destination [/], whose base name is empty, and the
    destination [/plugins/a], which exists. *)
Lemma last_save_directory_is_set_before_the_checks_witness :
  PackageWriter.writeNewExtensionToDisk Sample.host (Sample.choose "/")
    (Sample.package [Sample.text_file "manifest.json" "{}"])
    (Sample.world Sample.plugins)
  = (remember_dir (Sample.world Sample.plugins) "/", Thrown InvalidDirectoryError)
  /\ PackageWriter.writeNewExtensionToDisk Sample.host (Sample.choose "/plugins/a")
       (Sample.package [Sample.text_file "manifest.json" "{}"])
       (Sample.world Sample.plugins)
     = (remember_dir (Sample.world Sample.plugins) "/plugins/a",
        Thrown DestinationExistsError)
  /\ lastSavedPluginDir
       (settings (remember_dir (Sample.world Sample.plugins) "/plugins/a"))
     = Some "/plugins".
Proof.
  split; [| split].
  - apply (last_save_directory_is_set_before_the_checks Sample.host
             (Sample.choose "/") _ _ (JObject []) 0 "/");
      vm_compute; reflexivity.
  - apply (last_save_directory_is_set_before_the_checks Sample.host
             (Sample.choose "/plugins/a") _ _ (JObject []) 0 "/plugins/a");
      try (vm_compute; reflexivity); vm_compute; discriminate.
  - reflexivity.
Defined.

(* ================================================================== *)
(** ** The registry *)

Section RegistryFacts.

Import ExtensionManager.

Lemma find_path_In (p : string) (rs : list (Id * string)) (i : Id) :
  find_path p rs = Some i -> In (i, p) rs.
Proof.
  induction rs as [| [j q] rs IH]; simpl; [discriminate |].
  destruct (q =? p) eqn:E.
  - apply String.eqb_eq in E. intros [= ->]. left. now subst.
  - intros H. right. auto.
Qed.

Lemma find_id_In (rs : list (Id * string)) (i : Id) (p : string) :
  NoDup (map fst rs) -> In (i, p) rs -> find_id i rs = Some p.
Proof.
  induction rs as [| [j q] rs IH]; simpl; intros Hnd Hin; [destruct Hin |].
  inversion Hnd as [| ? ? Hj Hrest]; subst.
  destruct Hin as [[= -> ->] | Hin].
  - now rewrite N.eqb_refl.
  - destruct (j =? i)%N eqn:E.
    + apply N.eqb_eq in E. subst j. exfalso. apply Hj.
      apply in_map_iff. exists (i, p). auto.
    + auto.
Qed.

Lemma find_id_app (rs more : list (Id * string)) (i : Id) (p : string) :
  find_id i rs = Some p -> find_id i (rs ++ more) = Some p.
Proof.
  induction rs as [| [j q] rs IH]; simpl; [discriminate |].
  destruct (j =? i)%N; auto.
Qed.

Lemma find_id_fresh (rs : list (Id * string)) (i : Id) (p : string) :
  ~ In i (map fst rs) -> find_id i (rs ++ [(i, p)]) = Some p.
Proof.
  induction rs as [| [j q] rs IH]; simpl; intros Hfresh.
  - now rewrite N.eqb_refl.
  - destruct (j =? i)%N eqn:E.
    + apply N.eqb_eq in E. tauto.
    + apply IH. tauto.
Qed.

Lemma find_path_None (p : string) (rs : list (Id * string)) :
  find_path p rs = None -> ~ In p (map snd rs).
Proof.
  induction rs as [| [j q] rs IH]; simpl; [tauto |].
  destruct (q =? p) eqn:E; [discriminate |].
  apply String.eqb_neq in E. intros H [Hq | Hin]; [congruence | now apply IH].
Qed.

Lemma nextId_fresh (reg : Registry) :
  well_formed reg -> ~ In (nextId reg) (map fst (records reg)).
Proof.
  intros (_ & _ & Hbound) Hin.
  apply in_map_iff in Hin as ([j q] & Hj & Hin). simpl in Hj. subst j.
  rewrite Forall_forall in Hbound. specialize (Hbound _ Hin). simpl in Hbound.
  lia.
Qed.

(** What [addPath] does to the registry, by its two cases. *)
Lemma addPath_cases (reg : Registry) (p : string) :
  (exists i, find_path p (records reg) = Some i
             /\ addPath reg p = (reg, {| id := i; existed := true |}))
  \/ (find_path p (records reg) = None
      /\ addPath reg p
         = ({| records := records reg ++ [(nextId reg, p)];
               nextId := N.succ (nextId reg);
               notifications := S (notifications reg) |},
            {| id := nextId reg; existed := false |})).
Proof.
  unfold addPath. destruct (find_path p (records reg)) as [i |]; eauto.
Qed.

Lemma addPath_well_formed (reg : Registry) (p : string) :
  well_formed reg -> well_formed (fst (addPath reg p)).
Proof.
  intros Hwf.
  destruct (addPath_cases reg p) as [(i & _ & ->) | (Hnone & ->)];
    [exact Hwf |].
  pose proof (nextId_fresh reg Hwf) as Hfresh.
  destruct Hwf as (Hids & Hpaths & Hbound).
  unfold well_formed. simpl. rewrite !map_app. simpl.
  repeat split.
  - apply NoDup_app; repeat split; try assumption.
    + repeat constructor. simpl. tauto.
    + intros x Hx [<- | []]. contradiction.
  - apply NoDup_app; repeat split; try assumption.
    + repeat constructor. simpl. tauto.
    + intros x Hx [<- | []]. now apply (find_path_None p (records reg)).
  - apply Forall_app. split.
    + eapply Forall_impl; [| exact Hbound]. simpl. intros r Hr. lia.
    + repeat constructor. simpl. lia.
Qed.

Lemma addPath_getPath (reg : Registry) (p : string) :
  well_formed reg ->
  getPath (fst (addPath reg p)) (id (snd (addPath reg p))) = Some p.
Proof.
  intros Hwf.
  destruct (addPath_cases reg p) as [(i & Hfind & ->) | (Hnone & ->)];
    simpl; unfold getPath; simpl.
  - apply find_id_In; [apply Hwf | now apply find_path_In].
  - apply find_id_fresh. now apply nextId_fresh.
Qed.

Lemma addPath_keeps_getPath (reg : Registry) (p q : string) (i : Id) :
  getPath reg i = Some q -> getPath (fst (addPath reg p)) i = Some q.
Proof.
  intros H.
  destruct (addPath_cases reg p) as [(j & _ & ->) | (_ & ->)]; [exact H |].
  unfold getPath. simpl. now apply find_id_app.
Qed.

End RegistryFacts.

(* ================================================================== *)
(** ** The two lists of an import *)


Lemma register_entry_collected (ids0 : list Id) (entryPath : string)
      (st st' : ScanState) (c : Completion unit) :
  collected ids0 st ->
  register_entry entryPath st = (st', c) -> collected ids0 st'.
Proof.
  intros (Hwf & Hids & Hexisted) Hrun.
  destruct st as [w lists]. unfold register_entry in Hrun. simpl in *.
  pose proof (addPath_well_formed (registry w) entryPath Hwf) as Hwf'.
  destruct (addPath_cases (registry w) entryPath)
    as [(i & Hfind & Hadd) | (Hnone & Hadd)];
    rewrite Hadd in Hrun, Hwf'; simpl in Hrun, Hwf';
    inversion Hrun; subst; clear Hrun; unfold collected; simpl.
  - split; [assumption | split; [assumption |]].
    apply Forall_app. split; [assumption |].
    repeat constructor.
    apply find_path_In in Hfind.
    unfold ExtensionManager.getAllIds. apply in_map_iff. exists (i, entryPath).
    auto.
  - split; [assumption | split].
    + unfold ExtensionManager.getAllIds in *. simpl.
      rewrite map_app, Hids. simpl. now rewrite app_assoc.
    + eapply Forall_impl; [| exact Hexisted].
      unfold ExtensionManager.getAllIds. simpl. intros i Hi.
      rewrite map_app. apply in_or_app. now left.
Qed.

Lemma process_leaf_collected (ids0 : list Id) (entryPath : string)
      (topLevel : bool) (st st' : ScanState) (c : Completion unit) :
  collected ids0 st ->
  process_leaf entryPath topLevel st = (st', c) -> collected ids0 st'.
Proof.
  intros H Hrun. unfold process_leaf in Hrun.
  destruct (Path.basename entryPath =? MANIFEST_FILE_NAME).
  - eapply register_entry_collected; eauto.
  - destruct topLevel; inversion Hrun; subst; exact H.
Qed.

Lemma processEntry_collected (ids0 : list Id) (levels : nat) :
  forall entryPath topLevel st st' c,
    collected ids0 st ->
    processEntry_levels levels entryPath topLevel st = (st', c) ->
    collected ids0 st'.
Proof.
  induction levels as [| levels IH];
    intros entryPath topLevel [w0 lists] st' c Hst Hrun;
    rewrite processEntry_levels_unfold in Hrun;
    destruct (lookup_path w0 entryPath) as [node |];
    try (inversion Hrun; subst; exact Hst).
  - eapply process_leaf_collected; eauto.
  - destruct node as [data | entries].
    + eapply process_leaf_collected; eauto.
    + eapply (promise_all_invariant (collected ids0));
        [| exact Hst | exact Hrun].
      intros task Hin s s' c' Hs Htask.
      apply in_map_iff in Hin as (name & <- & _).
      eapply IH; eauto.
Qed.




(* ================================================================== *)
(** ** The export loop *)

(** A [writeFile] that is rejected costs a message box and nothing else:
    the loop goes on with the files that remain. *)
Lemma export_goes_on_after_a_failure
      (directoryPath : string) (file : ExportWriter.ExportFile)
      (rest : list ExportWriter.ExportFile) (w w1 : World) :
  mkPath (Path.dirname (Path.join directoryPath (ExportWriter.name file))) w
  = (w1, Returned tt) ->
  writeFile (Path.join directoryPath (ExportWriter.name file))
            (Binary (ExportWriter.buffer file)) w1
  = (w1, false) ->
  ExportWriter.export_all directoryPath (file :: rest) w
  = ExportWriter.export_all directoryPath rest
      (add_event w1
         (MessageBox "error" "Export Failed" "Saving file failed"
                     (ExportWriter.failure_detail (ExportWriter.name file)))).
Proof.
  intros Hmk Hwrite. simpl. unfold bind, ExportWriter.export_file, bind.
  now rewrite Hmk, Hwrite.
Qed.

(** C7, on a batch whose first file cannot be written.  [a.png] and
    [b.png] are exported to [/out], where a directory named [a.png] is in
    the way.  The handler shows one message box, whose detail names
    [a.png] and reads "Remaining files will not be saved."; it then writes
    [b.png] all the same and returns. *)
Theorem export_failure_message_contradicts_the_loop :
  ExportWriter.writeFiles (Sample.choose "/out")
    [Sample.png "a.png"; Sample.png "b.png"] (Sample.world Sample.out_dir)
  = ({| fs := Dir [("out", Dir [("a.png", Dir []);
                                ("b.png", File (Binary [Byte.x89]))])];
        cwd := "/";
        registry := ExtensionManager.empty;
        settings := {| lastSavedPluginDir := None;
                       lastExportDir := Some "/out";
                       exportDir := None |};
        events :=
          [MessageBox "error" "Export Failed" "Saving file failed"
             (Str.quoted "a.png"
              +++ " could not be saved. Remaining files will not be saved.")] |},
     Returned tt).
Proof. vm_compute. reflexivity. Qed.

(* ================================================================== *)
(** ** The directory tree *)

Section TreeFacts.

Import Fs.

Lemma find_node_app (n : Node) (a b : list string) :
  find_node n (a ++ b)
  = match find_node n a with
    | Some m => find_node m b
    | None => None
    end.
Proof.
  revert n. induction a as [| seg a IH]; intros n; simpl.
  - reflexivity.
  - destruct n as [data | entries]; [reflexivity |].
    destruct (Js.assoc seg entries); [apply IH | reflexivity].
Qed.

Lemma assoc_In {A : Type} (key : string) (l : list (string * A)) (v : A) :
  Js.assoc key l = Some v -> In (key, v) l.
Proof.
  induction l as [| [k x] l IH]; simpl; [discriminate |].
  destruct (k =? key) eqn:E.
  - apply String.eqb_eq in E. intros [= ->]. left. now subst.
  - intros H. right. auto.
Qed.

Lemma In_assoc {A : Type} (key : string) (l : list (string * A)) :
  In key (map fst l) -> exists v, Js.assoc key l = Some v.
Proof.
  induction l as [| [k x] l IH]; simpl; [tauto |].
  intros [-> | Hin].
  - rewrite String.eqb_refl. eauto.
  - destruct (k =? key); eauto.
Qed.

Lemma well_formed_entry (entries : list (string * Node)) (name : string)
      (child : Node) :
  well_formed (Dir entries) = true ->
  In (name, child) entries ->
  entry_name name = true /\ well_formed child = true.
Proof.
  simpl. rewrite forallb_forall. intros Hall Hin.
  specialize (Hall _ Hin). simpl in Hall.
  now apply andb_true_iff in Hall.
Qed.

Lemma well_formed_names (entries : list (string * Node)) :
  well_formed (Dir entries) = true ->
  Forall (fun n => entry_name n = true) (map fst entries).
Proof.
  intros Hwf. apply Forall_forall. intros name Hin.
  apply in_map_iff in Hin as ([k child] & <- & Hin).
  now destruct (well_formed_entry entries k child Hwf Hin).
Qed.

Lemma well_formed_find (segs : list string) :
  forall n m,
    well_formed n = true -> find_node n segs = Some m ->
    well_formed m = true /\ Forall (fun s => entry_name s = true) segs.
Proof.
  induction segs as [| seg segs IH]; intros n m Hwf Hfind; simpl in Hfind.
  - inversion Hfind; subst. split; [assumption | constructor].
  - destruct n as [data | entries]; [discriminate |].
    destruct (Js.assoc seg entries) as [child |] eqn:E; [| discriminate].
    apply assoc_In in E.
    destruct (well_formed_entry entries seg child Hwf E) as [Hseg Hchild].
    destruct (IH child m Hchild Hfind) as [Hm Hsegs].
    split; [assumption | now constructor].
Qed.

End TreeFacts.

(* ================================================================== *)
(** ** What a scan reaches *)

Lemma promise_all_reaches {S : Type} (P Q : S -> Prop)
      (tasks : list (Task S unit)) (target : Task S unit) :
  (forall task, In task tasks ->
                forall s s' c, P s -> task s = (s', c) -> P s') ->
  (forall task, In task tasks ->
                forall s s' c, Q s -> task s = (s', c) -> Q s') ->
  In target tasks ->
  (forall s s' c, P s -> target s = (s', c) -> Q s') ->
  forall s s' c, P s -> promise_all tasks s = (s', c) -> Q s'.
Proof.
  induction tasks as [| task rest IH];
    intros HP HQ Hin Htarget s s' c Hs Hrun; [destruct Hin |].
  simpl in Hrun.
  destruct (task s) as [s1 c1] eqn:E1.
  destruct (promise_all rest s1) as [s2 c2] eqn:E2.
  inversion Hrun; subst s2; clear Hrun.
  destruct Hin as [-> | Hin].
  - apply (promise_all_invariant Q rest
             (fun t Ht => HQ t (or_intror Ht)) s1 s' c2); [| exact E2].
    eapply Htarget; eauto.
  - apply (IH (fun t Ht => HP t (or_intror Ht))
              (fun t Ht => HQ t (or_intror Ht)) Hin Htarget s1 s' c2);
      [| exact E2].
    eapply (HP task); [now left | exact Hs | exact E1].
Qed.

Lemma promise_all_returns {S : Type} (P : S -> Prop)
      (tasks : list (Task S unit)) :
  (forall task, In task tasks ->
                forall s s' c, P s -> task s = (s', c) ->
                               P s' /\ c = Returned tt) ->
  forall s s' c, P s -> promise_all tasks s = (s', c) -> c = Returned tt.
Proof.
  induction tasks as [| task rest IH]; intros Hstep s s' c Hs Hrun.
  - inversion Hrun. reflexivity.
  - simpl in Hrun.
    destruct (task s) as [s1 c1] eqn:E1.
    destruct (promise_all rest s1) as [s2 c2] eqn:E2.
    destruct (Hstep task (or_introl eq_refl) s s1 c1 Hs E1) as [Hs1 ->].
    inversion Hrun; subst.
    apply (IH (fun t Ht => Hstep t (or_intror Ht)) s1 s' c Hs1 E2).
Qed.

Section ScanFacts.

Variable w : World.
Variable ids0 : list Id.
Hypothesis tree_well_formed : Fs.well_formed (fs w) = true.

(** The invariant of a scan of [w]. *)
Let scanning (st : ScanState) : Prop :=
  same_files w (fst st) /\ collected ids0 st.

Lemma processEntry_scanning (levels : nat) (entryPath : string)
      (topLevel : bool) (st st' : ScanState) (c : Completion unit) :
  scanning st ->
  processEntry_levels levels entryPath topLevel st = (st', c) ->
  scanning st'.
Proof.
  intros [Hfiles Hcollected] Hrun. split.
  - eapply processEntry_same_files; eauto.
  - eapply processEntry_collected; eauto.
Qed.

Lemma register_entry_reports (entryPath : string) (st st' : ScanState)
      (c : Completion unit) :
  scanning st ->
  register_entry entryPath st = (st', c) -> reported entryPath st'.
Proof.
  intros [_ (Hwf & _)] Hrun. destruct st as [w0 lists].
  unfold register_entry in Hrun. simpl in Hwf.
  pose proof (addPath_getPath (registry w0) entryPath Hwf) as Hget.
  destruct (ExtensionManager.addPath (registry w0) entryPath) as [reg' res].
  simpl in Hget.
  exists (ExtensionManager.id res).
  destruct (ExtensionManager.existed res); inversion Hrun; subst; simpl;
    (split; [| exact Hget]); apply in_or_app; [right | left];
    apply in_or_app; right; now left.
Qed.

Lemma register_entry_keeps_reported (manifestPath entryPath : string)
      (st st' : ScanState) (c : Completion unit) :
  reported manifestPath st ->
  register_entry entryPath st = (st', c) -> reported manifestPath st'.
Proof.
  intros (i & Hin & Hget) Hrun. destruct st as [w0 lists].
  unfold register_entry in Hrun. simpl in Hin, Hget.
  pose proof (addPath_keeps_getPath (registry w0) entryPath _ _ Hget) as Hget'.
  destruct (ExtensionManager.addPath (registry w0) entryPath) as [reg' res].
  simpl in Hget'. exists i.
  destruct (ExtensionManager.existed res); inversion Hrun; subst; simpl;
    (split; [| exact Hget']);
    apply in_app_or in Hin as [Hin | Hin]; apply in_or_app;
    try (left; apply in_or_app; now left);
    try (right; apply in_or_app; now left);
    auto.
Qed.

Lemma processEntry_keeps_reported (manifestPath : string) (levels : nat) :
  forall entryPath topLevel st st' c,
    reported manifestPath st ->
    processEntry_levels levels entryPath topLevel st = (st', c) ->
    reported manifestPath st'.
Proof.
  assert (Hleaf : forall entryPath topLevel st st' c,
             reported manifestPath st ->
             process_leaf entryPath topLevel st = (st', c) ->
             reported manifestPath st').
  { intros entryPath topLevel st st' c Hst Hrun. unfold process_leaf in Hrun.
    destruct (Path.basename entryPath =? MANIFEST_FILE_NAME).
    - eapply register_entry_keeps_reported; eauto.
    - destruct topLevel; inversion Hrun; subst; exact Hst. }
  induction levels as [| levels IH];
    intros entryPath topLevel [w0 lists] st' c Hst Hrun;
    rewrite processEntry_levels_unfold in Hrun;
    destruct (lookup_path w0 entryPath) as [node |];
    try (inversion Hrun; subst; exact Hst).
  - eapply Hleaf; eauto.
  - destruct node as [data | entries].
    + eapply Hleaf; eauto.
    + eapply (promise_all_invariant (reported manifestPath));
        [| exact Hst | exact Hrun].
      intros task Hin s s' c' Hs Htask.
      apply in_map_iff in Hin as (name & <- & _).
      eapply IH; eauto.
Qed.

(** The entries of a directory of [w], seen from a state of the scan. *)
Lemma scanning_lookup (st : ScanState) (p : string) :
  scanning st ->
  lookup_path (fst st) p = Fs.find_node (fs w) (Path.abs_segments (cwd w) p)
  /\ cwd (fst st) = cwd w.
Proof.
  intros [(Hfs & Hcwd & _) _]. unfold lookup_path. now rewrite Hfs, Hcwd.
Qed.

Lemma child_lookup (p name : string) (entries : list (string * Node)) :
  Fs.find_node (fs w) (Path.abs_segments (cwd w) p) = Some (Dir entries) ->
  In name (map fst entries) ->
  Fs.entry_name name = true
  /\ Fs.find_node (fs w)
       (Path.abs_segments (cwd w) (Path.resolve (cwd w) p name))
     = Js.assoc name entries
  /\ exists child, Js.assoc name entries = Some child.
Proof.
  intros Hdir Hin.
  destruct (well_formed_find _ _ _ tree_well_formed Hdir) as [Hwf _].
  pose proof (well_formed_names entries Hwf) as Hnames.
  rewrite Forall_forall in Hnames. specialize (Hnames name Hin).
  split; [assumption | split; [| now apply In_assoc]].
  rewrite abs_segments_resolve by assumption.
  rewrite find_node_app, Hdir. simpl.
  now destruct (Js.assoc name entries).
Qed.

(** Below a path that exists, nothing is rejected. *)
Lemma processEntry_returns (levels : nat) :
  forall entryPath st st' c,
    scanning st ->
    Fs.find_node (fs w) (Path.abs_segments (cwd w) entryPath) <> None ->
    processEntry_levels levels entryPath false st = (st', c) ->
    c = Returned tt.
Proof.
  assert (Hleaf : forall entryPath st st' c,
             process_leaf entryPath false st = (st', c) -> c = Returned tt).
  { intros entryPath st st' c Hrun. unfold process_leaf in Hrun.
    destruct (Path.basename entryPath =? MANIFEST_FILE_NAME).
    - unfold register_entry in Hrun. destruct st as [w0 lists].
      destruct (ExtensionManager.addPath (registry w0) entryPath) as [reg' res].
      destruct (ExtensionManager.existed res); now inversion Hrun.
    - now inversion Hrun. }
  induction levels as [| levels IH];
    intros entryPath [w0 lists] st' c Hst Hexists Hrun;
    rewrite processEntry_levels_unfold in Hrun;
    destruct (scanning_lookup _ entryPath Hst) as [Hlookup Hcwd];
    simpl in Hlookup, Hcwd; rewrite Hlookup in Hrun;
    destruct (Fs.find_node (fs w) (Path.abs_segments (cwd w) entryPath))
      as [node |] eqn:Enode; try congruence.
  - eapply Hleaf; eauto.
  - destruct node as [data | entries]; [eapply Hleaf; eauto |].
    rewrite Hcwd in Hrun.
    eapply (promise_all_returns scanning); [| exact Hst | exact Hrun].
    intros task Hin s s' c' Hs Htask.
    apply in_map_iff in Hin as (name & <- & Hname).
    apply filter_In in Hname as [Hname _].
    split; [eapply processEntry_scanning; eauto |].
    destruct (child_lookup entryPath name entries Enode Hname)
      as (_ & Hchild & child & Hassoc).
    eapply IH; [exact Hs | | exact Htask].
    rewrite Hchild, Hassoc. discriminate.
Qed.

End ScanFacts.

(* ================================================================== *)
(** ** The depth of a scan *)

Lemma abs_segments_descend (cwd : string) (names : list string) :
  forall p,
    Forall (fun n => Fs.entry_name n = true) names ->
    Path.abs_segments cwd (descend cwd p names) = Path.abs_segments cwd p ++ names.
Proof.
  unfold descend.
  induction names as [| n names IH]; intros p Hall; simpl.
  - now rewrite app_nil_r.
  - inversion Hall; subst. rewrite IH by assumption.
    rewrite abs_segments_resolve by assumption. now rewrite <- app_assoc.
Qed.

Section DepthFacts.

Variable w : World.
Variable ids0 : list Id.
Hypothesis tree_well_formed : Fs.well_formed (fs w) = true.

Let scanning (st : ScanState) : Prop :=
  same_files w (fst st) /\ collected ids0 st.

(** A manifest that lies [length names + 1] entries below [entryPath],
    through directories that are not hidden, is reported when that many
    levels are left. *)
Lemma processEntry_reaches (data : Content) (names : list string) :
  forall levels entryPath topLevel st st' c,
    scanning st ->
    Forall (fun n => Str.first_is_not_dot n = true) names ->
    Fs.find_node (fs w)
      (Path.abs_segments (cwd w) entryPath ++ names ++ [MANIFEST_FILE_NAME])
    = Some (File data) ->
    length names < levels ->
    processEntry_levels levels entryPath topLevel st = (st', c) ->
    reported (descend (cwd w) entryPath (names ++ [MANIFEST_FILE_NAME])) st'.
Proof.
  induction names as [| n names IH];
    intros levels entryPath topLevel [w0 lists] st' c Hst Hshown Hfile
           Hlevels Hrun;
    (destruct levels as [| levels]; [simpl in Hlevels; lia |]);
    rewrite processEntry_levels_unfold in Hrun;
    destruct (scanning_lookup w ids0 _ entryPath Hst) as [Hlookup Hcwd];
    simpl in Hlookup, Hcwd; rewrite Hlookup, Hcwd in Hrun;
    rewrite find_node_app in Hfile;
    destruct (Fs.find_node (fs w) (Path.abs_segments (cwd w) entryPath))
      as [[? | entries] |] eqn:Edir; try discriminate;
    simpl in Hfile.
  - (* the manifest is an entry of this directory *)
    destruct (Js.assoc MANIFEST_FILE_NAME entries) as [child |] eqn:Echild;
      [| discriminate].
    inversion Hfile; subst child; clear Hfile.
    pose proof (assoc_In _ _ _ Echild) as Hin.
    assert (Hname : In MANIFEST_FILE_NAME (map fst entries))
      by (apply in_map_iff; exists (MANIFEST_FILE_NAME, File data); auto).
    destruct (child_lookup w tree_well_formed entryPath _ entries Edir Hname)
      as (Hentry & Hchild & _).
    eapply (promise_all_reaches scanning
              (reported (Path.resolve (cwd w) entryPath MANIFEST_FILE_NAME)));
      [ | | | | exact Hst | exact Hrun].
    + intros task Htask s s' c' Hs Hstep.
      apply in_map_iff in Htask as (name & <- & _).
      eapply processEntry_scanning; eauto.
    + intros task Htask s s' c' Hs Hstep.
      apply in_map_iff in Htask as (name & <- & _).
      eapply processEntry_keeps_reported; eauto.
    + apply in_map_iff. exists MANIFEST_FILE_NAME. split; [reflexivity |].
      apply filter_In. split; [assumption | reflexivity].
    + intros [w1 lists1] s' c' Hs Hstep.
      rewrite processEntry_levels_unfold in Hstep.
      destruct (scanning_lookup w ids0 _
                  (Path.resolve (cwd w) entryPath MANIFEST_FILE_NAME) Hs)
        as [Hlookup1 _].
      simpl in Hlookup1. rewrite Hlookup1, Hchild, Echild in Hstep.
      assert (Hleaf : process_leaf
                        (Path.resolve (cwd w) entryPath MANIFEST_FILE_NAME)
                        false (w1, lists1) = (s', c'))
        by (destruct levels; exact Hstep).
      unfold process_leaf in Hleaf.
      rewrite basename_resolve, String.eqb_refl in Hleaf by assumption.
      eapply register_entry_reports; eauto.
  - (* the manifest lies below the entry [n] *)
    destruct (Js.assoc n entries) as [child |] eqn:Echild; [| discriminate].
    pose proof (assoc_In _ _ _ Echild) as Hin.
    assert (Hname : In n (map fst entries))
      by (apply in_map_iff; exists (n, child); auto).
    destruct (child_lookup w tree_well_formed entryPath _ entries Edir Hname)
      as (Hentry & Hchild & _).
    inversion Hshown as [| ? ? Hn Hrest]; subst.
    eapply (promise_all_reaches scanning
              (reported (descend (cwd w) (Path.resolve (cwd w) entryPath n)
                                 (names ++ [MANIFEST_FILE_NAME]))));
      [ | | | | exact Hst | exact Hrun].
    + intros task Htask s s' c' Hs Hstep.
      apply in_map_iff in Htask as (name & <- & _).
      eapply processEntry_scanning; eauto.
    + intros task Htask s s' c' Hs Hstep.
      apply in_map_iff in Htask as (name & <- & _).
      eapply processEntry_keeps_reported; eauto.
    + apply in_map_iff. exists n. split; [reflexivity |].
      apply filter_In. split; assumption.
    + intros s s' c' Hs Hstep.
      eapply (IH levels (Path.resolve (cwd w) entryPath n) false s s' c');
        try eassumption.
      * rewrite abs_segments_resolve by assumption.
        rewrite <- app_assoc. simpl.
        rewrite find_node_app, Edir. simpl. now rewrite Echild.
      * simpl in Hlevels. lia.
Qed.

(** The paths that a scan registers lie no deeper below the root than the
    levels it was given. *)
Lemma register_entry_within (root entryPath : string) (limit : nat)
      (pre : list string) (st st' : ScanState) (c : Completion unit) :
  scanning st ->
  Path.abs_segments (cwd w) entryPath = Path.abs_segments (cwd w) root ++ pre ->
  length pre <= limit ->
  within (cwd w) root limit st ->
  register_entry entryPath st = (st', c) ->
  within (cwd w) root limit st'.
Proof.
  intros [_ (Hwf & _)] Hsegs Hpre Hst Hrun. destruct st as [w0 lists].
  unfold register_entry in Hrun. simpl in Hwf.
  pose proof (addPath_getPath (registry w0) entryPath Hwf) as Hnew.
  pose proof (fun q i => addPath_keeps_getPath (registry w0) entryPath q i)
    as Hold.
  destruct (ExtensionManager.addPath (registry w0) entryPath) as [reg' res].
  simpl in Hnew, Hold.
  assert (Hmine : forall i,
             In i (added lists ++ existed lists) \/ i = ExtensionManager.id res ->
             exists q names,
               ExtensionManager.getPath reg' i = Some q
               /\ Path.abs_segments (cwd w) q
                  = Path.abs_segments (cwd w) root ++ names
               /\ length names <= limit).
  { intros i [Hi | ->].
    - destruct (Hst i Hi) as (q & names & Hget & Hq & Hlen).
      exists q, names. auto.
    - exists entryPath, pre. auto. }
  destruct (ExtensionManager.existed res); inversion Hrun; subst;
    intros i Hi; simpl in Hi |- *; apply Hmine;
    repeat (apply in_app_or in Hi as [Hi | Hi]);
    try (left; apply in_or_app; tauto);
    destruct Hi as [<- | []]; now right.
Qed.

Lemma processEntry_within (root : string) (limit : nat) (levels : nat) :
  forall entryPath topLevel pre st st' c,
    scanning st ->
    Path.abs_segments (cwd w) entryPath = Path.abs_segments (cwd w) root ++ pre ->
    length pre + levels <= limit ->
    within (cwd w) root limit st ->
    processEntry_levels levels entryPath topLevel st = (st', c) ->
    within (cwd w) root limit st'.
Proof.
  assert (Hleaf : forall entryPath topLevel pre st st' c,
             scanning st ->
             Path.abs_segments (cwd w) entryPath
             = Path.abs_segments (cwd w) root ++ pre ->
             length pre <= limit ->
             within (cwd w) root limit st ->
             process_leaf entryPath topLevel st = (st', c) ->
             within (cwd w) root limit st').
  { intros entryPath topLevel pre st st' c Hst Hsegs Hpre Hin Hrun.
    unfold process_leaf in Hrun.
    destruct (Path.basename entryPath =? MANIFEST_FILE_NAME).
    - eapply register_entry_within; eauto.
    - destruct topLevel; inversion Hrun; subst; exact Hin. }
  induction levels as [| levels IH];
    intros entryPath topLevel pre [w0 lists] st' c Hst Hsegs Hpre Hin Hrun;
    rewrite processEntry_levels_unfold in Hrun;
    destruct (scanning_lookup w ids0 _ entryPath Hst) as [Hlookup Hcwd];
    simpl in Hlookup, Hcwd; rewrite Hlookup in Hrun;
    try rewrite Hcwd in Hrun;
    destruct (Fs.find_node (fs w) (Path.abs_segments (cwd w) entryPath))
      as [node |] eqn:Enode;
    try (inversion Hrun; subst; exact Hin).
  - eapply Hleaf; eauto. lia.
  - destruct node as [data | entries]; [eapply Hleaf; eauto; lia |].
    assert (Hgoal : scanning st' /\ within (cwd w) root limit st');
      [| tauto].
    eapply (promise_all_invariant
              (fun s => scanning s /\ within (cwd w) root limit s));
      [| split; [exact Hst | exact Hin] | exact Hrun].
    intros task Htask s s' c' [Hs Hs_in] Hstep.
    apply in_map_iff in Htask as (name & <- & Hname).
    apply filter_In in Hname as [Hname _].
    destruct (child_lookup w tree_well_formed entryPath name entries Enode Hname)
      as (Hentry & _).
    split; [eapply processEntry_scanning; eauto |].
    eapply (IH (Path.resolve (cwd w) entryPath name) false (pre ++ [name]));
      try eassumption.
    + rewrite abs_segments_resolve, Hsegs by assumption.
      now rewrite <- app_assoc.
    + rewrite length_app. simpl. lia.
Qed.

End DepthFacts.

Lemma processEntry_directory_returns
      (w : World) (ids0 : list Id) (levels : nat) (entryPath : string)
      (topLevel : bool) (entries : list (string * Node))
      (st st' : ScanState) (c : Completion unit) :
  Fs.well_formed (fs w) = true ->
  same_files w (fst st) /\ collected ids0 st ->
  Fs.find_node (fs w) (Path.abs_segments (cwd w) entryPath) = Some (Dir entries) ->
  processEntry_levels (S levels) entryPath topLevel st = (st', c) ->
  c = Returned tt.
Proof.
  intros Hwf Hst Hdir Hrun. destruct st as [w0 lists].
  rewrite processEntry_levels_unfold in Hrun.
  destruct (scanning_lookup w ids0 _ entryPath Hst) as [Hlookup Hcwd].
  simpl in Hlookup, Hcwd. rewrite Hlookup, Hdir, Hcwd in Hrun.
  eapply (promise_all_returns
            (fun s => same_files w (fst s) /\ collected ids0 s));
    [| exact Hst | exact Hrun].
  intros task Hin s s' c' Hs Htask.
  apply in_map_iff in Hin as (name & <- & Hname).
  apply filter_In in Hname as [Hname _].
  split; [eapply processEntry_scanning; eauto |].
  destruct (child_lookup w Hwf entryPath name entries Hdir Hname)
    as (_ & Hchild & child & Hassoc).
  eapply (processEntry_returns w ids0 Hwf); [exact Hs | | exact Htask].
  rewrite Hchild, Hassoc. discriminate.
Qed.

(** C5.  [root] is picked alone, with depth [d].  A file named as the
    manifest lies [k = length dirs + 1] entries below it, through the
    directories [dirs], none of which is hidden.  The import reports that
    manifest (it returns, and one of the ids it returns is registered for
    the path of the manifest) if and only if [k <= d]. *)
Theorem manifest_discovered_iff_within_depth
        (w : World) (root : string) (dirs : list string) (data : Content)
        (d : Z) :
  Fs.well_formed (fs w) = true ->
  ExtensionManager.well_formed (registry w) ->
  Forall (fun n => Str.first_is_not_dot n = true) dirs ->
  Fs.find_node (fs w)
    (Path.abs_segments (cwd w) root ++ dirs ++ [MANIFEST_FILE_NAME])
  = Some (File data) ->
  discovers
    (createMultipleNewLocalFileExtensions
       (Some {| canceled := false; filePaths := [root] |}) d w)
    (descend (cwd w) root (dirs ++ [MANIFEST_FILE_NAME]))
  <-> (Z.of_nat (length dirs) + 1 <= d)%Z.
Proof.
  intros Htree Hreg Hshown Hfile.
  set (ids0 := ExtensionManager.getAllIds (registry w)).
  set (start := (w, {| added := []; existed := [] |}) : ScanState).
  assert (Hstart : same_files w (fst start) /\ collected ids0 start).
  { split; [apply same_files_refl |].
    split; [exact Hreg | split]; simpl; [now rewrite app_nil_r | constructor]. }
  (* the root is a directory and the names below it are entry names *)
  pose proof Hfile as Hsplit. rewrite find_node_app in Hsplit.
  destruct (Fs.find_node (fs w) (Path.abs_segments (cwd w) root))
    as [rootNode |] eqn:Eroot; [| discriminate].
  destruct (well_formed_find _ _ _ Htree Eroot) as [HrootNode _].
  destruct (well_formed_find _ _ _ HrootNode Hsplit) as [_ Hnames].
  assert (Hdir : exists entries, rootNode = Dir entries).
  { destruct rootNode as [? | entries]; [| eauto].
    destruct dirs; discriminate. }
  destruct Hdir as [entries ->].
  (* the run of the handler *)
  unfold discovers, createMultipleNewLocalFileExtensions.
  cbv beta iota zeta. simpl canceled. cbv iota. simpl filePaths. simpl map.
  fold start. simpl promise_all. unfold processEntry.
  destruct (processEntry_levels (Z.to_nat d) root true start)
    as [[w' lists] c] eqn:Erun.
  split.
  - (* reported, hence within the depth *)
    intros (lists' & i & Hreturned & Hin & Hget).
    destruct c as [[] | e]; simpl in Hreturned; [| discriminate].
    inversion Hreturned; subst lists'; clear Hreturned. simpl in Hget.
    assert (Hwithin : within (cwd w) root (Z.to_nat d) (w', lists)).
    { eapply (processEntry_within w ids0 Htree root (Z.to_nat d) (Z.to_nat d)
                root true []); [exact Hstart | | | | exact Erun].
      - now rewrite app_nil_r.
      - simpl. lia.
      - intros j []. }
    destruct (Hwithin i Hin) as (q & names & Hq & Hsegs & Hlen).
    simpl in Hq. rewrite Hget in Hq. inversion Hq; subst q; clear Hq.
    rewrite abs_segments_descend in Hsegs by assumption.
    apply app_inv_head in Hsegs. subst names.
    rewrite length_app in Hlen. simpl in Hlen. lia.
  - (* within the depth, hence reported *)
    intros Hdepth.
    assert (Hlevels : length dirs < Z.to_nat d) by lia.
    pose proof (processEntry_reaches w ids0 Htree data dirs (Z.to_nat d) root
                  true start (w', lists) c Hstart Hshown Hfile Hlevels Erun)
      as (i & Hin & Hget).
    assert (Hc : c = Returned tt).
    { destruct (Z.to_nat d) as [| levels] eqn:Ed; [lia |].
      eapply (processEntry_directory_returns w ids0 levels root true entries);
        eauto. }
    subst c. exists lists, i. simpl. auto.
Qed.

(** Witness of C5: [/plugins/b/x/manifest.json] lies three entries below
    [/plugins], and the depth is 3. *)
Lemma manifest_discovered_iff_within_depth_witness :
  discovers
    (createMultipleNewLocalFileExtensions (Sample.pick ["/plugins"]) 3
       (Sample.world Sample.plugins))
    "/plugins/b/x/manifest.json"
  <-> (Z.of_nat (length ["b"; "x"]) + 1 <= 3)%Z.
Proof.
  apply (manifest_discovered_iff_within_depth
           (Sample.world Sample.plugins) "/plugins" ["b"; "x"] (Text "{}") 3).
  - vm_compute. reflexivity.
  - repeat split; constructor.
  - repeat constructor.
  - vm_compute. reflexivity.
Defined.

(** The scenario of section 8 of the specification, run on the code: with
    depth 2 the manifest of [/plugins/a] is found and the one of
    [/plugins/b/x], three entries down, is not; the hidden directory is
    skipped. *)
Example scan_of_plugins_at_depth_2 :
  createMultipleNewLocalFileExtensions (Sample.pick ["/plugins"]) 2
    (Sample.world Sample.plugins)
  = (set_registry (Sample.world Sample.plugins)
       {| ExtensionManager.records := [(0%N, "/plugins/a/manifest.json")];
          ExtensionManager.nextId := 1%N;
          ExtensionManager.notifications := 1 |},
     Returned {| added := [0%N]; existed := [] |}).
Proof. vm_compute. reflexivity. Qed.

(* ================================================================== *)
(** ** Writing into a fresh directory *)

Section WriteTreeFacts.

Import Fs.

Lemma assoc_replace_same (key : string) (v : Node) (l : list (string * Node)) :
  Js.assoc key l <> None -> Js.assoc key (assoc_replace key v l) = Some v.
Proof.
  induction l as [| [k x] l IH]; simpl; [congruence |].
  destruct (k =? key) eqn:E; simpl; rewrite E; auto.
Qed.

Lemma assoc_replace_other (key other : string) (v : Node)
      (l : list (string * Node)) :
  other <> key -> Js.assoc other (assoc_replace key v l) = Js.assoc other l.
Proof.
  intros Hne. induction l as [| [k x] l IH]; simpl; [reflexivity |].
  destruct (k =? key) eqn:E; simpl.
  - apply String.eqb_eq in E. subst k.
    destruct (key =? other) eqn:E'; [| reflexivity].
    apply String.eqb_eq in E'. congruence.
  - now rewrite IH.
Qed.

Lemma assoc_app_fresh {A : Type} (key : string) (v : A)
      (l : list (string * A)) :
  Js.assoc key l = None -> Js.assoc key (l ++ [(key, v)]) = Some v.
Proof.
  induction l as [| [k x] l IH]; simpl.
  - now rewrite String.eqb_refl.
  - destruct (k =? key); [discriminate | exact IH].
Qed.

Lemma assoc_app_other {A : Type} (key other : string) (v : A)
      (l : list (string * A)) :
  other <> key -> Js.assoc other (l ++ [(key, v)]) = Js.assoc other l.
Proof.
  intros Hne. induction l as [| [k x] l IH]; simpl.
  - destruct (key =? other) eqn:E; [| reflexivity].
    apply String.eqb_eq in E. congruence.
  - now rewrite IH.
Qed.

Lemma assoc_replace_files (key : string) (v : Node) (l : list (string * Node)) :
  isDirectory v = false ->
  Forall (fun e => isDirectory (snd e) = false) l ->
  Forall (fun e => isDirectory (snd e) = false) (assoc_replace key v l).
Proof.
  intros Hv. induction 1 as [| [k x] l Hx Hl IH]; simpl; [constructor |].
  destruct (k =? key); constructor; assumption.
Qed.

(** [mkdir -p] of a path that does not exist leaves an empty directory
    there. *)
Lemma mkdir_p_fresh (segs : list string) :
  forall n n',
    mkdir_p n segs = Some n' ->
    find_node n segs = None ->
    find_node n' segs = Some (Dir []).
Proof.
  induction segs as [| seg rest IH]; intros n n' Hmk Hnone.
  - simpl in Hnone. discriminate.
  - destruct n as [data | entries]; [discriminate |].
    simpl in Hmk, Hnone.
    destruct (Js.assoc seg entries) as [child |] eqn:Echild.
    + destruct (mkdir_p child rest) as [child' |] eqn:Emk; [| discriminate].
      inversion Hmk; subst n'. simpl.
      rewrite assoc_replace_same by congruence.
      now apply (IH child).
    + destruct (mkdir_p (Dir []) rest) as [child' |] eqn:Emk; [| discriminate].
      inversion Hmk; subst n'. simpl.
      rewrite assoc_app_fresh by assumption.
      destruct rest as [| seg' rest'].
      * simpl in Emk. now inversion Emk.
      * now apply (IH (Dir [])).
Qed.

(** A file written into a directory that holds files only. *)
Lemma write_at_flat (segs : list string) (name : string) (data : Content) :
  forall n,
    flat_dir n segs ->
    exists n',
      write_at n (segs ++ [name]) data = Some n'
      /\ flat_dir n' segs
      /\ find_node n' (segs ++ [name]) = Some (File data)
      /\ forall other,
          other <> name ->
          find_node n' (segs ++ [other]) = find_node n (segs ++ [other]).
Proof.
  induction segs as [| seg rest IH]; intros n (entries & Hdir & Hfiles).
  - simpl in Hdir. inversion Hdir; subst n; clear Hdir. simpl.
    destruct (Js.assoc name entries) as [child |] eqn:Echild.
    + assert (Hchild : isDirectory child = false).
      { apply assoc_In in Echild. rewrite Forall_forall in Hfiles.
        apply (Hfiles _ Echild). }
      destruct child as [old |]; [| discriminate].
      eexists. split; [reflexivity |]. split; [| split].
      * eexists. split; [reflexivity |]. now apply assoc_replace_files.
      * simpl. rewrite assoc_replace_same by congruence. reflexivity.
      * intros other Hother. simpl. now rewrite assoc_replace_other.
    + eexists. split; [reflexivity |]. split; [| split].
      * eexists. split; [reflexivity |].
        apply Forall_app. split; [assumption | now repeat constructor].
      * simpl. now rewrite assoc_app_fresh.
      * intros other Hother. simpl. now rewrite assoc_app_other.
  - destruct n as [old | es]; [discriminate |].
    simpl in Hdir.
    destruct (Js.assoc seg es) as [child |] eqn:Echild; [| discriminate].
    destruct (IH child) as (child' & Hwrite & (entries' & Hdir' & Hfiles')
                            & Hfound & Hothers).
    { exists entries. auto. }
    exists (Dir (assoc_replace seg child' es)).
    simpl. rewrite Echild, Hwrite.
    rewrite !assoc_replace_same by congruence.
    split; [reflexivity |]. split; [| split].
    + exists entries'. simpl. rewrite assoc_replace_same by congruence. auto.
    + exact Hfound.
    + exact Hothers.
Qed.

End WriteTreeFacts.

Section JoinFacts.

Import Path.

Local Arguments Ascii.eqb : simpl never.
Local Arguments String.eqb : simpl never.

Lemma nonempty_append_r (a b : string) :
  Str.nonempty b = true -> Str.nonempty (a +++ b) = true.
Proof. destruct a; simpl; auto. Qed.

Lemma join_slash_last_nonempty (segs : list string) (name : string) :
  Str.nonempty name = true -> Str.nonempty (join_slash (segs ++ [name])) = true.
Proof.
  intros Hname. induction segs as [| seg segs IH]; simpl; [assumption |].
  destruct (segs ++ [name]) as [| next more] eqn:E.
  - destruct segs; discriminate.
  - now apply nonempty_append_r.
Qed.

Lemma ends_with_slash_child (a name : string) :
  Fs.entry_name name = true -> ends_with_slash (a +++ "/" +++ name) = false.
Proof.
  intros Hname. unfold ends_with_slash.
  rewrite split_slash_app, (split_slash_plain name (entry_name_plain _ Hname)).
  rewrite rev_app_distr. simpl.
  destruct (split_slash_not_nil a) as (seg & rest & ->).
  destruct (rev (seg :: rest)) as [| x xs] eqn:E.
  - apply (f_equal (@length string)) in E. rewrite length_rev in E.
    discriminate.
  - destruct (entry_name_relative _ Hname) as [_ ->]. reflexivity.
Qed.

(** [path.join(saveDir, name)] appends one segment to those of an absolute
    [saveDir]. *)
Lemma abs_segments_join (cwd saveDir name : string) :
  isAbsolute saveDir = true ->
  Fs.entry_name name = true ->
  abs_segments cwd (join saveDir name) = abs_segments cwd saveDir ++ [name].
Proof.
  intros Habs Hname.
  destruct (entry_name_relative _ Hname) as [_ Hne].
  assert (Hsave : Str.nonempty saveDir = true) by (now destruct saveDir).
  unfold join. rewrite Hsave, Hne. unfold normalize.
  rewrite (nonempty_append_r saveDir ("/" +++ name)) by reflexivity.
  rewrite (isAbsolute_app saveDir _ Hsave), Habs. cbn [negb].
  rewrite split_slash_app, (split_slash_plain name (entry_name_plain _ Hname)).
  rewrite normalize_segs_app by (now constructor).
  rewrite join_slash_last_nonempty by assumption. cbn [negb].
  rewrite ends_with_slash_child by assumption.
  change ("/" +++ join_slash (normalize_segs false (split_slash saveDir) ++ [name]))
    with (of_segs (normalize_segs false (split_slash saveDir) ++ [name])).
  rewrite abs_segments_of_segs.
  - unfold abs_segments. now rewrite Habs.
  - apply Forall_app. split; [| now constructor].
    apply normalize_segs_clean, split_slash_segments.
Qed.

End JoinFacts.

(* ================================================================== *)
(** ** The files of a package on disk *)

Section PackageFacts.

Import PackageWriter.

Variable host : Host.

Local Arguments String.eqb : simpl never.

Lemma allowed_name_is_entry_name (n : string) :
  (forall s, Str.has_char Str.slash (sanitizeFileName host s) = false) ->
  name_refused host n = false ->
  Fs.entry_name n = true.
Proof.
  intros Hsanitize Hallowed. unfold name_refused in Hallowed.
  apply orb_false_iff in Hallowed as [Hallowed Hsame].
  apply orb_false_iff in Hallowed as [_ Hpattern].
  apply negb_false_iff in Hsame, Hpattern.
  apply String.eqb_eq in Hsame.
  unfold filename_pattern, Str.skip_word_plus in Hpattern.
  destruct n as [| c n']; [discriminate |].
  destruct (Str.is_word_char c) eqn:Hword; [| discriminate].
  unfold Fs.entry_name.
  rewrite Hsame at 2. rewrite Hsanitize. simpl.
  destruct (String c n' =? ".") eqn:E1.
  { apply String.eqb_eq in E1. inversion E1; subst. discriminate. }
  destruct (String c n' =? "..") eqn:E2.
  { apply String.eqb_eq in E2. inversion E2; subst. discriminate. }
  reflexivity.
Qed.

Lemma validate_names_allowed (pending : list PendingFile) :
  forall index found r,
    validate host pending index found = Returned r ->
    Forall (fun f => name_refused host (name f) = false) pending.
Proof.
  induction pending as [| file rest IH]; intros index found r Hrun;
    [constructor |].
  simpl in Hrun.
  destruct (name_refused host (name file)) eqn:E; [discriminate |].
  constructor; [assumption |].
  destruct (name file =? MANIFEST_FILE_NAME).
  - destruct (read_manifest host file); [eauto | discriminate].
  - eauto.
Qed.

(** The manifest that the loop returns comes from the last file named as
    the manifest, and [manifestFile] is the position of that file. *)
Lemma validate_last_manifest (pending : list PendingFile) :
  forall index found manifest manifestFile,
    validate host pending index found = Returned (Some (manifest, manifestFile)) ->
    (found = Some (manifest, manifestFile)
     /\ Forall (fun g => name g <> MANIFEST_FILE_NAME) pending)
    \/ exists pre file post,
        pending = pre ++ file :: post
        /\ manifestFile = index + length pre
        /\ name file = MANIFEST_FILE_NAME
        /\ read_manifest host file = Returned manifest
        /\ Forall (fun g => name g <> MANIFEST_FILE_NAME) post.
Proof.
  induction pending as [| file rest IH];
    intros index found manifest manifestFile Hrun; simpl in Hrun.
  - left. inversion Hrun. split; [reflexivity | constructor].
  - destruct (name_refused host (name file)); [discriminate |].
    destruct (name file =? MANIFEST_FILE_NAME) eqn:Ename.
    + apply String.eqb_eq in Ename.
      destruct (read_manifest host file) as [m |] eqn:Eread; [| discriminate].
      destruct (IH _ _ _ _ Hrun)
        as [[Hfound Hrest] | (pre & f & post & -> & -> & Hf & Hread & Hpost)].
      * inversion Hfound; subst. right.
        exists [], file, rest. simpl. rewrite Nat.add_0_r. auto.
      * right. exists (file :: pre), f, post. simpl.
        repeat split; auto; lia.
    + apply String.eqb_neq in Ename.
      destruct (IH _ _ _ _ Hrun)
        as [[Hfound Hrest] | (pre & f & post & -> & -> & Hf & Hread & Hpost)].
      * left. split; [assumption | now constructor].
      * right. exists (file :: pre), f, post. simpl.
        repeat split; auto; lia.
Qed.


Lemma content_for_none (n : string) (pending : list PendingFile) :
  Forall (fun g => name g <> n) pending -> content_for n pending = None.
Proof.
  induction 1 as [| g rest Hg _ IH]; simpl; [reflexivity |].
  rewrite IH. apply String.eqb_neq in Hg. now rewrite Hg.
Qed.


(** The files are written one after the other into the directory
    [saveDir], which holds files only; in the end each name holds the
    content of the last file of that name. *)
Lemma save_files_result (saveDir : string) (manifest : JsValue)
      (pending : list PendingFile) :
  forall w,
    Path.isAbsolute saveDir = true ->
    Forall (fun f => Fs.entry_name (name f) = true) pending ->
    flat_dir (fs w) (Path.abs_segments (cwd w) saveDir) ->
    let w' := fst (promise_all (map (save_file saveDir manifest) pending) w) in
    cwd w' = cwd w
    /\ flat_dir (fs w') (Path.abs_segments (cwd w) saveDir)
    /\ forall n,
        Fs.find_node (fs w') (Path.abs_segments (cwd w) saveDir ++ [n])
        = match content_for n pending with
          | Some data => Some (File data)
          | None => Fs.find_node (fs w) (Path.abs_segments (cwd w) saveDir ++ [n])
          end.
Proof.
  induction pending as [| file rest IH]; intros w Habs Hnames Hflat; cbv zeta.
  - simpl. auto.
  - inversion Hnames as [| ? ? Hname Hrest]; subst.
    simpl map. simpl promise_all.
    destruct (write_at_flat (Path.abs_segments (cwd w) saveDir) (name file)
                (content file) (fs w) Hflat)
      as (tree & Hwrite & Hflat' & Hfound & Hothers).
    assert (Hsave : save_file saveDir manifest file w
                    = (set_fs w tree, Returned tt)).
    { unfold save_file, writeFile.
      now rewrite (abs_segments_join (cwd w) saveDir (name file) Habs Hname),
        Hwrite. }
    rewrite Hsave.
    specialize (IH (set_fs w tree) Habs Hrest Hflat'). cbv zeta in IH.
    simpl cwd in IH. simpl fs in IH.
    destruct (promise_all (map (save_file saveDir manifest) rest) (set_fs w tree))
      as [w2 c2].
    simpl fst in *. destruct IH as (Hcwd & Hflat2 & Hall).
    split; [assumption | split; [assumption |]].
    intros n. rewrite Hall. simpl content_for.
    destruct (content_for n rest); [reflexivity |].
    destruct (name file =? n) eqn:E.
    + apply String.eqb_eq in E. subst n. exact Hfound.
    + apply String.eqb_neq in E. apply Hothers. congruence.
Qed.

End PackageFacts.

Lemma assoc_set_fresh {A : Type} (key : string) (v : A)
      (l : list (string * A)) :
  Js.assoc key l = None -> Js.assoc_set key v l = l ++ [(key, v)].
Proof.
  induction l as [| [k x] l IH]; simpl; [reflexivity |].
  destruct (k =? key); [discriminate |].
  intros H. now rewrite IH.
Qed.

Lemma register_package_outcome (saveDir : string) (w : World) :
  ExtensionManager.well_formed (registry w) ->
  let outcome := PackageWriter.register_package saveDir w in
  fs (fst outcome) = fs w /\ cwd (fst outcome) = cwd w
  /\ forall i,
      snd outcome = Returned (Some i) ->
      ExtensionManager.getPath (registry (fst outcome)) i
      = Some (Path.join saveDir MANIFEST_FILE_NAME).
Proof.
  intros Hwf. cbv zeta. unfold PackageWriter.register_package.
  pose proof (addPath_getPath (registry w)
                (Path.join saveDir MANIFEST_FILE_NAME) Hwf) as Hget.
  destruct (ExtensionManager.addPath (registry w)
              (Path.join saveDir MANIFEST_FILE_NAME)) as [reg' res].
  simpl in Hget.
  destruct (ExtensionManager.existed res); simpl; repeat split;
    intros i [= <-]; exact Hget.
Qed.

Lemma assoc_assoc_set {A : Type} (key a : string) (v : A)
      (l : list (string * A)) :
  Js.assoc a (Js.assoc_set key v l)
  = if key =? a then Some v else Js.assoc a l.
Proof.
  induction l as [| [k x] l IH]; simpl.
  - reflexivity.
  - destruct (k =? key) eqn:Ek; simpl.
    + apply String.eqb_eq in Ek. subst k.
      now destruct (key =? a).
    + rewrite IH. destruct (k =? a) eqn:Ea; [| reflexivity].
      apply String.eqb_eq in Ea. subst k.
      now rewrite String.eqb_sym, Ek.
Qed.

Lemma strip_unsafe_removes_separators (s : string) :
  Str.has_char Str.slash (Sample.strip_unsafe s) = false.
Proof.
  induction s as [| c s IH]; [reflexivity |].
  cbn [Sample.strip_unsafe].
  destruct (Sample.unsafe_char c) eqn:Eunsafe; [exact IH |].
  cbn [Str.has_char]. rewrite IH, orb_false_r.
  destruct (Ascii.eqb Str.slash c) eqn:E; [| reflexivity].
  apply Ascii.eqb_eq in E. subst c. discriminate.
Qed.




(** The run of the witness of C8: the package is written and registered. *)
Example package_written_and_registered :
  PackageWriter.writeNewExtensionToDisk Sample.host
    (Sample.choose "/plugins/new")
    (Sample.package
       [Sample.text_file "manifest.json"
                         (Sample.manifest_with "api" (Str.quoted "1.0.0"));
        Sample.text_file "code.js" "run()"])
    (Sample.world (Dir []))
  = ({| fs := Dir [("plugins",
                    Dir [("new",
                          Dir [("manifest.json",
                                File (Text (Json.stringify
                                  (JObject [("api", JString "1.0.0");
                                            ("name", JString "new")]))));
                               ("code.js", File (Text "run()"))])])];
        cwd := "/";
        registry :=
          {| ExtensionManager.records := [(0%N, "/plugins/new/manifest.json")];
             ExtensionManager.nextId := 1%N;
             ExtensionManager.notifications := 1 |};
        settings := {| lastSavedPluginDir := Some "/plugins";
                       lastExportDir := None; exportDir := None |};
        events := [] |},
     Returned (Some 0%N)).
Proof. vm_compute. reflexivity. Qed.

(** A manifest picked by itself is registered whatever the depth. *)
Example picked_manifest_is_registered_at_any_depth :
  createMultipleNewLocalFileExtensions
    (Sample.pick ["/plugins/a/manifest.json"]) (-1)
    (Sample.world Sample.plugins)
  = (set_registry (Sample.world Sample.plugins)
       {| ExtensionManager.records := [(0%N, "/plugins/a/manifest.json")];
          ExtensionManager.nextId := 1%N;
          ExtensionManager.notifications := 1 |},
     Returned {| added := [0%N]; existed := [] |}).
Proof. vm_compute. reflexivity. Qed.

(* ================================================================== *)
(** ** The import as a walk *)

Lemma register_step_same_files (w : World) (st : ScanState) (q : string) :
  same_files w (fst st) -> same_files w (fst (register_step st q)).
Proof.
  intros H. unfold register_step.
  destruct (register_entry q st) as [st' c] eqn:E.
  eapply register_entry_same_files; eauto.
Qed.

Lemma fold_register_same_files (w : World) (manifests : list string) :
  forall st,
    same_files w (fst st) ->
    same_files w (fst (fold_left register_step manifests st)).
Proof.
  induction manifests as [| q rest IH]; intros st H; simpl; [exact H |].
  apply IH. now apply register_step_same_files.
Qed.

Lemma manifests_found_same_files (w w1 : World) (levels : nat) :
  same_files w w1 ->
  forall entryPath,
    manifests_found w1 levels entryPath = manifests_found w levels entryPath.
Proof.
  intros Hsame. pose proof Hsame as (_ & Hcwd & _).
  induction levels as [| levels IH]; intros entryPath; simpl;
    rewrite (same_files_lookup w w1 entryPath Hsame);
    destruct (lookup_path w entryPath) as [[data | entries] |]; try reflexivity.
  rewrite Hcwd. apply flat_map_ext. intros name. apply IH.
Qed.

Lemma promise_all_state_of_walk (w : World) {A : Type}
      (task : A -> Task ScanState unit) (found : A -> list string)
      (items : list A) :
  (forall item st,
      same_files w (fst st) ->
      fst (task item st) = fold_left register_step (found item) st) ->
  forall st,
    same_files w (fst st) ->
    fst (promise_all (map task items) st)
    = fold_left register_step (flat_map found items) st.
Proof.
  intros Htask.
  induction items as [| item rest IH]; intros st Hst; simpl; [reflexivity |].
  specialize (Htask item st Hst).
  destruct (task item st) as [s1 c1]. simpl in Htask. subst s1.
  rewrite fold_left_app.
  specialize (IH (fold_left register_step (found item) st)
                 (fold_register_same_files w _ st Hst)).
  destruct (promise_all (map task rest)
                        (fold_left register_step (found item) st)) as [s2 c2].
  exact IH.
Qed.

(** The state in which [processEntry] ends is the one got by registering,
    one after the other, the manifests that the walk finds. *)
Lemma processEntry_state_of_walk (w : World) (levels : nat) :
  forall entryPath topLevel st,
    same_files w (fst st) ->
    fst (processEntry_levels levels entryPath topLevel st)
    = fold_left register_step (manifests_found w levels entryPath) st.
Proof.
  assert (Hleaf : forall entryPath topLevel st,
             fst (process_leaf entryPath topLevel st)
             = fold_left register_step
                 (if Path.basename entryPath =? MANIFEST_FILE_NAME
                  then [entryPath] else []) st).
  { intros entryPath topLevel st. unfold process_leaf.
    destruct (Path.basename entryPath =? MANIFEST_FILE_NAME);
      [reflexivity | now destruct topLevel]. }
  induction levels as [| levels IH]; intros entryPath topLevel [w0 lists] Hst;
    rewrite processEntry_levels_unfold; simpl manifests_found;
    rewrite (same_files_lookup w w0 entryPath Hst);
    destruct (lookup_path w entryPath) as [[data | entries] |];
    try reflexivity; try apply Hleaf.
  destruct Hst as (Hfs & Hcwd & Hrest). simpl in Hcwd. rewrite Hcwd.
  apply (promise_all_state_of_walk w
           (fun name =>
              processEntry_levels levels
                (Path.resolve (cwd w) entryPath name) false)
           (fun name =>
              manifests_found w levels (Path.resolve (cwd w) entryPath name))).
  - intros name st' Hst'. now apply IH.
  - destruct Hrest. repeat split; assumption.
Qed.

Lemma fold_register_registry (manifests : list string) :
  forall st,
    registry (fst (fold_left register_step manifests st))
    = fold_left add_path manifests (registry (fst st)).
Proof.
  induction manifests as [| q rest IH]; intros [w lists]; simpl;
    [reflexivity |].
  rewrite IH. f_equal. unfold register_step, register_entry, add_path.
  destruct (ExtensionManager.addPath (registry w) q) as [reg' res].
  now destruct (ExtensionManager.existed res).
Qed.

(** The world and the lists with which the handler ends, when the dialog
    gave paths. *)
Lemma import_outcome (pickedPaths : list string) (depth : Z) (w : World) :
  let final :=
    fold_left register_step (picked_manifests w depth pickedPaths)
              (w, {| added := []; existed := [] |}) in
  let outcome :=
    createMultipleNewLocalFileExtensions
      (Some {| canceled := false; filePaths := pickedPaths |}) depth w in
  fst outcome = fst final
  /\ forall lists, snd outcome = Returned lists -> lists = snd final.
Proof.
  cbv zeta. unfold createMultipleNewLocalFileExtensions. cbv zeta.
  simpl canceled. cbv iota. simpl filePaths.
  pose proof (promise_all_state_of_walk w
                (fun name => processEntry name depth true)
                (manifests_found w (Z.to_nat depth)) pickedPaths) as Hwalk.
  specialize (Hwalk (fun item st Hst =>
                       processEntry_state_of_walk w (Z.to_nat depth)
                                                  item true st Hst)).
  specialize (Hwalk (w, {| added := []; existed := [] |}) (same_files_refl w)).
  fold (picked_manifests w depth pickedPaths) in Hwalk.
  destruct (promise_all (map (fun name => processEntry name depth true)
                             pickedPaths)
                        (w, {| added := []; existed := [] |}))
    as [[w' lists'] c].
  simpl in Hwalk. rewrite <- Hwalk.
  destruct c; simpl; split; try reflexivity; intros lists [= <-]; reflexivity.
Qed.

Lemma import_outcome_registry (pickedPaths : list string) (depth : Z)
      (w : World) :
  registry
    (fst (createMultipleNewLocalFileExtensions
            (Some {| canceled := false; filePaths := pickedPaths |}) depth w))
  = fold_left add_path (picked_manifests w depth pickedPaths) (registry w).
Proof.
  destruct (import_outcome pickedPaths depth w) as [-> _].
  apply (fold_register_registry _ (w, {| added := []; existed := [] |})).
Qed.

(** X1.  An import reads the file system and writes the registry only:
    whatever the dialog gave and however the import ends, the files, the
    working directory, the settings and the messages shown are those it
    started with. *)
Theorem import_changes_nothing_but_the_registry
        (dialogResult : option OpenDialogReturnValue) (depth : Z) (w : World) :
  same_files w
    (fst (createMultipleNewLocalFileExtensions dialogResult depth w)).
Proof.
  destruct dialogResult as [[[] paths] |]; try apply same_files_refl.
  destruct (import_outcome paths depth w) as [-> _].
  apply fold_register_same_files, same_files_refl.
Qed.

Lemma add_path_paths (reg : Registry) (p q : string) :
  In q (map snd (ExtensionManager.records (add_path reg p)))
  <-> In q (map snd (ExtensionManager.records reg)) \/ q = p.
Proof.
  unfold add_path, ExtensionManager.addPath.
  destruct (ExtensionManager.find_path p (ExtensionManager.records reg))
    as [i |] eqn:Efind; simpl.
  - split; [tauto |]. intros [Hin | ->]; [exact Hin |].
    apply find_path_In in Efind.
    apply in_map_iff. exists (i, p). auto.
  - rewrite map_app, in_app_iff. simpl. intuition congruence.
Qed.

Lemma fold_add_path_paths (manifests : list string) :
  forall reg q,
    In q (map snd (ExtensionManager.records (fold_left add_path manifests reg)))
    <-> In q (map snd (ExtensionManager.records reg)) \/ In q manifests.
Proof.
  induction manifests as [| p rest IH]; intros reg q; simpl; [tauto |].
  rewrite IH, add_path_paths. intuition congruence.
Qed.

(** X2.  When an import returns, the paths registered are those that were
    registered before it and the manifests that the walk finds from the
    picked paths: each of these is registered, and no other path is.
    This is a statement on the set of the registered paths; it is the
    same in whatever order the entries were processed. *)
Theorem import_registers_the_manifests_of_the_walk
        (pickedPaths : list string) (depth : Z) (w w' : World)
        (lists : ImportResult) :
  createMultipleNewLocalFileExtensions
    (Some {| canceled := false; filePaths := pickedPaths |}) depth w
  = (w', Returned lists) ->
  forall q,
    In q (map snd (ExtensionManager.records (registry w')))
    <-> In q (map snd (ExtensionManager.records (registry w)))
        \/ In q (picked_manifests w depth pickedPaths).
Proof.
  intros Hrun q.
  pose proof (import_outcome_registry pickedPaths depth w) as Hregistry.
  rewrite Hrun in Hregistry. simpl in Hregistry. rewrite Hregistry.
  apply fold_add_path_paths.
Qed.

(** Witness of X2: [/plugins] imported with depth 3, when
    [/plugins/a/manifest.json] is registered already; the path looked at
    is the manifest of [/plugins/b/x]. *)
Lemma import_registers_the_manifests_of_the_walk_witness :
  let w :=
    set_registry (Sample.world Sample.plugins)
      {| ExtensionManager.records := [(4%N, "/plugins/a/manifest.json")];
         ExtensionManager.nextId := 5%N;
         ExtensionManager.notifications := 1 |} in
  In "/plugins/b/x/manifest.json"
     (map snd
        (ExtensionManager.records
           (registry
              (fst (createMultipleNewLocalFileExtensions
                      (Sample.pick ["/plugins"]) 3 w)))))
  <-> In "/plugins/b/x/manifest.json" ["/plugins/a/manifest.json"]
      \/ In "/plugins/b/x/manifest.json"
            ["/plugins/a/manifest.json"; "/plugins/b/x/manifest.json"].
Proof.
  apply (import_registers_the_manifests_of_the_walk ["/plugins"] 3
           (set_registry (Sample.world Sample.plugins)
              {| ExtensionManager.records := [(4%N, "/plugins/a/manifest.json")];
                 ExtensionManager.nextId := 5%N;
                 ExtensionManager.notifications := 1 |})
           _ {| added := [5%N]; existed := [4%N] |}).
  vm_compute. reflexivity.
Defined.

Lemma register_step_cases (st : ScanState) (q : string) :
  (exists i,
      ExtensionManager.find_path q (ExtensionManager.records (registry (fst st)))
      = Some i
      /\ register_step st q
         = (fst st, {| added := added (snd st);
                       existed := existed (snd st) ++ [i] |})
      /\ set_registry (fst st) (registry (fst st)) = fst st)
  \/ (ExtensionManager.find_path q (ExtensionManager.records (registry (fst st)))
      = None
      /\ register_step st q
         = (set_registry (fst st) (add_path (registry (fst st)) q),
            {| added := added (snd st)
                        ++ [ExtensionManager.nextId (registry (fst st))];
               existed := existed (snd st) |})
      /\ ExtensionManager.records (add_path (registry (fst st)) q)
         = ExtensionManager.records (registry (fst st))
           ++ [(ExtensionManager.nextId (registry (fst st)), q)]).
Proof.
  destruct st as [w lists]. unfold register_step, register_entry, add_path.
  simpl fst. simpl snd.
  destruct (addPath_cases (registry w) q) as [(i & Hfind & ->) | (Hnone & ->)];
    simpl.
  - left. exists i. repeat split; try assumption.
    + destruct w; reflexivity.
    + destruct w; reflexivity.
  - right. repeat split; assumption.
Qed.

Lemma fold_register_counts (manifests : list string) :
  forall st,
    let st' := fold_left register_step manifests st in
    length (added (snd st')) + length (existed (snd st'))
    = length (added (snd st)) + length (existed (snd st)) + length manifests
    /\ exists new,
        added (snd st') = added (snd st) ++ new
        /\ ExtensionManager.getAllIds (registry (fst st'))
           = ExtensionManager.getAllIds (registry (fst st)) ++ new.
Proof.
  induction manifests as [| q rest IH]; intros st; cbv zeta; simpl.
  - split; [lia |]. exists []. now rewrite !app_nil_r.
  - destruct (IH (register_step st q)) as (Hcount & new & Hadded & Hids).
    rewrite Hcount, Hadded, Hids. clear IH Hcount Hadded Hids.
    destruct (register_step_cases st q)
      as [(i & _ & -> & _) | (_ & -> & Hrecords)]; simpl.
    + split; [rewrite length_app; simpl; lia |]. exists new. auto.
    + split; [rewrite length_app; simpl; lia |].
      exists (ExtensionManager.nextId (registry (fst st)) :: new).
      unfold ExtensionManager.getAllIds. rewrite Hrecords, map_app. simpl.
      now rewrite <- !app_assoc.
Qed.

(** X3.  When an import returns, it returns one id for each manifest that
    the walk finds (a manifest found twice counts twice), and the ids that
    the registry gained are those of [added], in that order. *)
Theorem import_returns_one_id_per_manifest_found
        (pickedPaths : list string) (depth : Z) (w w' : World)
        (lists : ImportResult) :
  createMultipleNewLocalFileExtensions
    (Some {| canceled := false; filePaths := pickedPaths |}) depth w
  = (w', Returned lists) ->
  length (added lists) + length (existed lists)
  = length (picked_manifests w depth pickedPaths)
  /\ ExtensionManager.getAllIds (registry w')
     = ExtensionManager.getAllIds (registry w) ++ added lists.
Proof.
  intros Hrun.
  destruct (import_outcome pickedPaths depth w) as [Hworld Hlists].
  rewrite Hrun in Hworld, Hlists. simpl in Hworld.
  specialize (Hlists lists eq_refl).
  destruct (fold_register_counts (picked_manifests w depth pickedPaths)
              (w, {| added := []; existed := [] |}))
    as (Hcount & new & Hadded & Hids).
  cbv zeta in Hcount, Hadded, Hids.
  rewrite <- Hlists in Hcount, Hadded. rewrite <- Hworld in Hids.
  simpl in Hcount, Hadded, Hids.
  subst new. split; [exact Hcount | exact Hids].
Qed.

(** Witness of X3: [/plugins] and the manifest of [/plugins/a] picked
    together, with depth 2. *)
Lemma import_returns_one_id_per_manifest_found_witness :
  length [0%N] + length [0%N]
  = length (picked_manifests (Sample.world Sample.plugins) 2
              ["/plugins"; "/plugins/a/manifest.json"])
  /\ ExtensionManager.getAllIds
       {| ExtensionManager.records := [(0%N, "/plugins/a/manifest.json")];
          ExtensionManager.nextId := 1%N;
          ExtensionManager.notifications := 1 |}
     = ExtensionManager.getAllIds ExtensionManager.empty ++ [0%N].
Proof.
  apply (import_returns_one_id_per_manifest_found
           ["/plugins"; "/plugins/a/manifest.json"] 2
           (Sample.world Sample.plugins)
           (set_registry (Sample.world Sample.plugins)
              {| ExtensionManager.records := [(0%N, "/plugins/a/manifest.json")];
                 ExtensionManager.nextId := 1%N;
                 ExtensionManager.notifications := 1 |})
           {| added := [0%N]; existed := [0%N] |}).
  vm_compute. reflexivity.
Defined.

Lemma manifests_found_are_named (w : World) (levels : nat) :
  forall entryPath q,
    In q (manifests_found w levels entryPath) ->
    Path.basename q = MANIFEST_FILE_NAME.
Proof.
  assert (Hleaf : forall entryPath q,
             In q (if Path.basename entryPath =? MANIFEST_FILE_NAME
                   then [entryPath] else []) ->
             Path.basename q = MANIFEST_FILE_NAME).
  { intros entryPath q.
    destruct (Path.basename entryPath =? MANIFEST_FILE_NAME) eqn:E;
      [| intros []].
    intros [<- | []]. now apply String.eqb_eq. }
  induction levels as [| levels IH]; intros entryPath q; simpl;
    destruct (lookup_path w entryPath) as [[data | entries] |];
    try (intros []); try apply Hleaf.
  intros Hin. apply in_flat_map in Hin as (name & _ & Hin).
  eapply IH; eauto.
Qed.

Lemma fold_add_path_records (manifests : list string) :
  forall reg,
  exists new,
    ExtensionManager.records (fold_left add_path manifests reg)
    = ExtensionManager.records reg ++ new
    /\ Forall (fun record => In (snd record) manifests) new.
Proof.
  induction manifests as [| q rest IH]; intros reg; simpl.
  - exists []. split; [now rewrite app_nil_r | constructor].
  - destruct (IH (add_path reg q)) as (new & -> & Hnew).
    assert (Hlater : Forall (fun record => q = snd record \/ In (snd record) rest)
                            new)
      by (eapply Forall_impl; [| exact Hnew]; simpl; auto).
    unfold add_path.
    destruct (addPath_cases reg q) as [(i & _ & ->) | (_ & ->)]; simpl.
    + exists new. auto.
    + exists ((ExtensionManager.nextId reg, q) :: new).
      rewrite <- app_assoc. split; [reflexivity |].
      constructor; [now left | assumption].
Qed.

(** X4.  An import removes and changes no record of the registry, and
    every record that it appends is for a path whose base name is the
    manifest file name. *)
Theorem import_appends_records_of_manifests_only
        (dialogResult : option OpenDialogReturnValue) (depth : Z) (w : World) :
  exists new,
    ExtensionManager.records
      (registry (fst (createMultipleNewLocalFileExtensions
                        dialogResult depth w)))
    = ExtensionManager.records (registry w) ++ new
    /\ Forall (fun record => Path.basename (snd record) = MANIFEST_FILE_NAME)
              new.
Proof.
  destruct dialogResult as [[[] paths] |];
    try (exists []; split; [now rewrite app_nil_r | constructor]).
  rewrite import_outcome_registry.
  destruct (fold_add_path_records (picked_manifests w depth paths) (registry w))
    as (new & -> & Hnew).
  exists new. split; [reflexivity |].
  eapply Forall_impl; [| exact Hnew]. simpl. intros record Hin.
  apply in_flat_map in Hin as (root & _ & Hin).
  eapply manifests_found_are_named; eauto.
Qed.

Lemma find_path_app (q : string) (rs more : list (Id * string)) (i : Id) :
  ExtensionManager.find_path q rs = Some i ->
  ExtensionManager.find_path q (rs ++ more) = Some i.
Proof.
  induction rs as [| [j p] rs IH]; simpl; [discriminate |].
  destruct (p =? q); auto.
Qed.

Lemma find_path_last (q : string) (rs : list (Id * string)) (i : Id) :
  ExtensionManager.find_path q (rs ++ [(i, q)]) <> None.
Proof.
  induction rs as [| [j p] rs IH]; simpl.
  - rewrite String.eqb_refl. discriminate.
  - destruct (p =? q); [discriminate | exact IH].
Qed.

Lemma add_path_registers (reg : Registry) (q : string) :
  ExtensionManager.find_path q (ExtensionManager.records (add_path reg q))
  <> None.
Proof.
  unfold add_path.
  destruct (addPath_cases reg q) as [(i & Hfind & ->) | (_ & ->)]; simpl.
  - congruence.
  - apply find_path_last.
Qed.

Lemma add_path_keeps_registered (reg : Registry) (q q' : string) :
  ExtensionManager.find_path q (ExtensionManager.records reg) <> None ->
  ExtensionManager.find_path q (ExtensionManager.records (add_path reg q'))
  <> None.
Proof.
  intros H. unfold add_path.
  destruct (addPath_cases reg q') as [(i & _ & ->) | (_ & ->)]; simpl;
    [exact H |].
  destruct (ExtensionManager.find_path q (ExtensionManager.records reg))
    as [i |] eqn:E; [| congruence].
  now rewrite (find_path_app q _ _ i E).
Qed.

Lemma fold_add_path_registers (manifests : list string) :
  forall reg q,
    In q manifests
    \/ ExtensionManager.find_path q (ExtensionManager.records reg) <> None ->
    ExtensionManager.find_path q
      (ExtensionManager.records (fold_left add_path manifests reg))
    <> None.
Proof.
  induction manifests as [| p rest IH]; intros reg q H; simpl.
  - destruct H as [[] | H]. exact H.
  - apply IH. destruct H as [[-> | Hin] | Hreg].
    + right. apply add_path_registers.
    + now left.
    + right. now apply add_path_keeps_registered.
Qed.

Lemma fold_register_of_registered (manifests : list string) :
  forall st,
    Forall (fun q =>
              ExtensionManager.find_path q
                (ExtensionManager.records (registry (fst st))) <> None)
           manifests ->
    fst (fold_left register_step manifests st) = fst st
    /\ added (snd (fold_left register_step manifests st)) = added (snd st).
Proof.
  induction manifests as [| q rest IH]; intros st Hall; simpl; [auto |].
  inversion Hall as [| ? ? Hq Hrest]; subst.
  destruct (register_step_cases st q)
    as [(i & _ & Hstep & _) | (Hnone & _)]; [| congruence].
  rewrite Hstep.
  apply (IH (fst st, {| added := added (snd st);
                        existed := existed (snd st) ++ [i] |})).
  exact Hrest.
Qed.

(** X5.  An import that is run again on the outcome of the first, with the
    same paths and depth, registers nothing: it leaves the registry as the
    first left it, and the [added] it returns is empty. *)
Theorem second_import_adds_nothing
        (dialogResult : option OpenDialogReturnValue) (depth : Z) (w : World) :
  let w1 := fst (createMultipleNewLocalFileExtensions dialogResult depth w) in
  let again := createMultipleNewLocalFileExtensions dialogResult depth w1 in
  registry (fst again) = registry w1
  /\ forall lists, snd again = Returned lists -> added lists = [].
Proof.
  destruct dialogResult as [[[] paths] |]; cbv zeta;
    try (split; [reflexivity | intros lists [= <-]; reflexivity]).
  set (w1 := fst (createMultipleNewLocalFileExtensions
                    (Some {| canceled := false; filePaths := paths |}) depth w)).
  assert (Hsame : same_files w w1)
    by (destruct (import_outcome paths depth w) as [Hw _]; subst w1;
        rewrite Hw; apply fold_register_same_files, same_files_refl).
  assert (Hfound : picked_manifests w1 depth paths
                   = picked_manifests w depth paths).
  { unfold picked_manifests. apply flat_map_ext. intros root.
    now apply manifests_found_same_files. }
  assert (Hall : Forall
                   (fun q =>
                      ExtensionManager.find_path q
                        (ExtensionManager.records (registry w1)) <> None)
                   (picked_manifests w1 depth paths)).
  { rewrite Hfound. apply Forall_forall. intros q Hq. subst w1.
    rewrite import_outcome_registry.
    apply fold_add_path_registers. now left. }
  destruct (import_outcome paths depth w1) as [Hworld Hlists].
  destruct (fold_register_of_registered (picked_manifests w1 depth paths)
              (w1, {| added := []; existed := [] |}) Hall) as [Hfst Hadded].
  split.
  - rewrite Hworld, Hfst. reflexivity.
  - intros lists Hreturned. rewrite (Hlists lists Hreturned). exact Hadded.
Qed.

(* ================================================================== *)
(** ** What a picked path can be *)

(** A picked path on which [processEntry] is rejected, whatever the
    registry holds, rejects the import. *)
Lemma import_rejected_by (w : World) (root : string) (depth : Z)
      (pickedPaths : list string) :
  (forall w1 lists1,
      same_files w w1 ->
      exists e, snd (processEntry root depth true (w1, lists1)) = Thrown e) ->
  In root pickedPaths ->
  exists e,
    snd (createMultipleNewLocalFileExtensions
           (Some {| canceled := false; filePaths := pickedPaths |}) depth w)
    = Thrown e.
Proof.
  intros Hroot Hin.
  unfold createMultipleNewLocalFileExtensions. cbv beta iota zeta.
  simpl canceled. cbv iota. simpl filePaths.
  set (tasks := map (fun name => processEntry name depth true) pickedPaths).
  set (start := (w, {| added := []; existed := [] |}) : ScanState).
  destruct (promise_all_rejected
              (fun s : ScanState => same_files w (fst s)) tasks
              (processEntry root depth true)) with (s := start)
    as [e He].
  - intros task Htask s s' c Hs Hrun.
    apply in_map_iff in Htask as (name & <- & _).
    eapply processEntry_same_files; eauto.
  - apply in_map_iff. eauto.
  - intros [w1 lists1] Hs. now apply Hroot.
  - apply same_files_refl.
  - destruct (promise_all tasks start) as [[w' lists'] c].
    simpl in He. subst c. exists e. reflexivity.
Qed.

(** X6.  A file picked in the dialog whose base name is not the manifest
    file name is refused at every depth: processing it registers nothing
    and raises [ManifestNamingError], and the import is rejected whatever
    else was picked. *)
Theorem picked_file_of_another_name_is_refused
        (w : World) (lists : ImportResult) (root : string) (depth : Z)
        (data : Content) :
  lookup_path w root = Some (File data) ->
  Path.basename root <> MANIFEST_FILE_NAME ->
  processEntry root depth true (w, lists)
  = ((w, lists), Thrown ManifestNamingError)
  /\ forall pickedPaths,
      In root pickedPaths ->
      exists e,
        snd (createMultipleNewLocalFileExtensions
               (Some {| canceled := false; filePaths := pickedPaths |})
               depth w)
        = Thrown e.
Proof.
  intros Hfile Hname.
  assert (Hroot : forall w1 lists1,
             same_files w w1 ->
             processEntry root depth true (w1, lists1)
             = ((w1, lists1), Thrown ManifestNamingError)).
  { intros w1 lists1 Hsame.
    rewrite processEntry_equation, (same_files_lookup w w1 root Hsame), Hfile.
    now apply process_leaf_refused. }
  split; [apply Hroot, same_files_refl |].
  intros pickedPaths Hin. apply (import_rejected_by w root); [| exact Hin].
  intros w1 lists1 Hsame. exists ManifestNamingError.
  now rewrite Hroot.
Qed.

(** Witness of X6: the script of [/plugins/a], picked with its manifest. *)
Lemma picked_file_of_another_name_is_refused_witness :
  processEntry "/plugins/a/code.js" 5 true
    (Sample.world Sample.plugins, {| added := []; existed := [] |})
  = ((Sample.world Sample.plugins, {| added := []; existed := [] |}),
     Thrown ManifestNamingError)
  /\ forall pickedPaths,
      In "/plugins/a/code.js" pickedPaths ->
      exists e,
        snd (createMultipleNewLocalFileExtensions
               (Some {| canceled := false; filePaths := pickedPaths |})
               5 (Sample.world Sample.plugins))
        = Thrown e.
Proof.
  apply (picked_file_of_another_name_is_refused
           (Sample.world Sample.plugins) _ "/plugins/a/code.js" 5
           (Text "run()")).
  - vm_compute. reflexivity.
  - vm_compute. discriminate.
Defined.

(** X7.  An entry picked in the dialog that is not descended into (a file,
    or a directory when the depth is 0 or less) and whose base name is the
    manifest file name is registered under the picked path, at every
    depth: the import returns an id registered for that path. *)
Theorem picked_manifest_is_registered_at_every_depth
        (w : World) (root : string) (depth : Z) (node : Node) :
  ExtensionManager.well_formed (registry w) ->
  lookup_path w root = Some node ->
  not_descended node depth = true ->
  Path.basename root = MANIFEST_FILE_NAME ->
  discovers
    (createMultipleNewLocalFileExtensions
       (Some {| canceled := false; filePaths := [root] |}) depth w)
    root.
Proof.
  intros Hreg Hnode Hleaf Hname.
  unfold discovers, createMultipleNewLocalFileExtensions.
  cbv beta iota zeta. simpl canceled. cbv iota. simpl filePaths. simpl map.
  simpl promise_all.
  assert (Hrun : processEntry root depth true (w, {| added := []; existed := [] |})
                 = register_entry root (w, {| added := []; existed := [] |})).
  { rewrite processEntry_equation, Hnode.
    unfold process_leaf. rewrite Hname, String.eqb_refl.
    destruct node as [data | entries]; [reflexivity |].
    unfold not_descended in Hleaf. simpl in Hleaf.
    apply negb_true_iff in Hleaf. now rewrite Hleaf. }
  rewrite Hrun. unfold register_entry.
  pose proof (addPath_getPath (registry w) root Hreg) as Hget.
  destruct (ExtensionManager.addPath (registry w) root) as [reg' res].
  simpl in Hget.
  destruct (ExtensionManager.existed res); simpl;
    eexists; exists (ExtensionManager.id res);
    (split; [reflexivity |]); (split; [simpl; auto | exact Hget]).
Qed.

(** Witness of X7: the manifest of [/plugins/a], picked with depth -1. *)
Lemma picked_manifest_is_registered_at_every_depth_witness :
  discovers
    (createMultipleNewLocalFileExtensions
       (Some {| canceled := false; filePaths := ["/plugins/a/manifest.json"] |})
       (-1) (Sample.world Sample.plugins))
    "/plugins/a/manifest.json".
Proof.
  apply (picked_manifest_is_registered_at_every_depth
           (Sample.world Sample.plugins) "/plugins/a/manifest.json" (-1)
           (File (Text "{}"))).
  - repeat split; constructor.
  - vm_compute. reflexivity.
  - reflexivity.
  - vm_compute. reflexivity.
Defined.

Section ReturnFacts.

Variable w : World.
Hypothesis tree_well_formed : Fs.well_formed (fs w) = true.

(** Below an entry that exists, every entry that is listed exists, and
    nothing but a top-level pick can be refused. *)
Lemma entry_scan_returns (levels : nat) :
  forall entryPath st st' c,
    same_files w (fst st) ->
    lookup_path w entryPath <> None ->
    processEntry_levels levels entryPath false st = (st', c) ->
    c = Returned tt.
Proof.
  assert (Hleaf : forall entryPath st st' c,
             process_leaf entryPath false st = (st', c) -> c = Returned tt).
  { intros entryPath st st' c Hrun. unfold process_leaf in Hrun.
    destruct (Path.basename entryPath =? MANIFEST_FILE_NAME).
    - unfold register_entry in Hrun. destruct st as [w0 lists].
      destruct (ExtensionManager.addPath (registry w0) entryPath) as [reg' res].
      destruct (ExtensionManager.existed res); now inversion Hrun.
    - now inversion Hrun. }
  induction levels as [| levels IH];
    intros entryPath [w0 lists] st' c Hst Hexists Hrun;
    rewrite processEntry_levels_unfold in Hrun;
    rewrite (same_files_lookup w w0 entryPath Hst) in Hrun;
    destruct (lookup_path w entryPath) as [node |] eqn:Enode; try congruence.
  - eapply Hleaf; eauto.
  - destruct node as [data | entries]; [eapply Hleaf; eauto |].
    pose proof Hst as (_ & Hcwd & _). simpl in Hcwd. rewrite Hcwd in Hrun.
    eapply (promise_all_returns (fun s : ScanState => same_files w (fst s)));
      [| exact Hst | exact Hrun].
    intros task Hin s s' c' Hs Htask.
    apply in_map_iff in Hin as (name & <- & Hname).
    apply filter_In in Hname as [Hname _].
    split; [eapply processEntry_same_files; eauto |].
    destruct (child_lookup w tree_well_formed entryPath name entries Enode Hname)
      as (_ & Hchild & child & Hassoc).
    eapply IH; [exact Hs | | exact Htask].
    unfold lookup_path. rewrite Hchild, Hassoc. discriminate.
Qed.

Lemma directory_scan_returns (levels : nat) (entryPath : string)
      (topLevel : bool) (entries : list (string * Node))
      (st st' : ScanState) (c : Completion unit) :
  same_files w (fst st) ->
  lookup_path w entryPath = Some (Dir entries) ->
  processEntry_levels (S levels) entryPath topLevel st = (st', c) ->
  c = Returned tt.
Proof.
  intros Hst Hdir Hrun. destruct st as [w0 lists].
  rewrite processEntry_levels_unfold in Hrun.
  rewrite (same_files_lookup w w0 entryPath Hst), Hdir in Hrun.
  pose proof Hst as (_ & Hcwd & _). simpl in Hcwd. rewrite Hcwd in Hrun.
  eapply (promise_all_returns (fun s : ScanState => same_files w (fst s)));
    [| exact Hst | exact Hrun].
  intros task Hin s s' c' Hs Htask.
  apply in_map_iff in Hin as (name & <- & Hname).
  apply filter_In in Hname as [Hname _].
  split; [eapply processEntry_same_files; eauto |].
  destruct (child_lookup w tree_well_formed entryPath name entries Hdir Hname)
    as (_ & Hchild & child & Hassoc).
  eapply entry_scan_returns; [exact Hs | | exact Htask].
  unfold lookup_path. rewrite Hchild, Hassoc. discriminate.
Qed.

End ReturnFacts.

(** X8.  When every picked path is a directory and the depth is at least
    1, the import returns: below a directory nothing is refused for its
    name, whatever the directories hold. *)
Theorem import_of_directories_returns
        (w : World) (pickedPaths : list string) (depth : Z) :
  Fs.well_formed (fs w) = true ->
  Forall (fun root => exists entries, lookup_path w root = Some (Dir entries))
         pickedPaths ->
  (1 <= depth)%Z ->
  exists lists,
    snd (createMultipleNewLocalFileExtensions
           (Some {| canceled := false; filePaths := pickedPaths |}) depth w)
    = Returned lists.
Proof.
  intros Htree Hdirs Hdepth.
  unfold createMultipleNewLocalFileExtensions. cbv beta iota zeta.
  simpl canceled. cbv iota. simpl filePaths.
  destruct (promise_all (map (fun name => processEntry name depth true)
                             pickedPaths)
                        (w, {| added := []; existed := [] |}))
    as [[w' lists] c] eqn:Erun.
  assert (Hc : c = Returned tt).
  { eapply (promise_all_returns (fun s : ScanState => same_files w (fst s)))
      with (s := (w, {| added := []; existed := [] |}));
      [| exact (same_files_refl w) | exact Erun].
    intros task Hin s s' c' Hs Htask.
    apply in_map_iff in Hin as (root & <- & Hroot).
    split; [eapply processEntry_same_files; eauto |].
    rewrite Forall_forall in Hdirs. destruct (Hdirs root Hroot) as [entries Hdir].
    unfold processEntry in Htask.
    destruct (Z.to_nat depth) as [| levels] eqn:Elevels; [lia |].
    eapply (directory_scan_returns w Htree); eauto. }
  subst c. exists lists. reflexivity.
Qed.

(** Witness of X8: [/plugins] and [/plugins/b] picked with depth 1. *)
Lemma import_of_directories_returns_witness :
  exists lists,
    snd (createMultipleNewLocalFileExtensions
           (Some {| canceled := false;
                    filePaths := ["/plugins"; "/plugins/b"] |})
           1 (Sample.world Sample.plugins))
    = Returned lists.
Proof.
  apply (import_of_directories_returns (Sample.world Sample.plugins)
           ["/plugins"; "/plugins/b"] 1).
  - vm_compute. reflexivity.
  - repeat constructor; eexists; vm_compute; reflexivity.
  - lia.
Defined.

(* ================================================================== *)
(** ** Hidden entries *)

(** The manifests of a walk lie below its start, through entries that are
    not hidden, no deeper than the levels given. *)
Lemma manifests_found_below (w : World) (levels : nat) :
  Fs.well_formed (fs w) = true ->
  forall entryPath q,
    In q (manifests_found w levels entryPath) ->
    exists names,
      Path.abs_segments (cwd w) q = Path.abs_segments (cwd w) entryPath ++ names
      /\ Forall (fun n => Str.first_is_not_dot n = true) names
      /\ length names <= levels.
Proof.
  intros Htree.
  assert (Hleaf : forall (n : nat) entryPath q,
             In q (if Path.basename entryPath =? MANIFEST_FILE_NAME
                   then [entryPath] else []) ->
             exists names,
               Path.abs_segments (cwd w) q
               = Path.abs_segments (cwd w) entryPath ++ names
               /\ Forall (fun n => Str.first_is_not_dot n = true) names
               /\ length names <= n).
  { intros n entryPath q.
    destruct (Path.basename entryPath =? MANIFEST_FILE_NAME); [| intros []].
    intros [<- | []]. exists []. rewrite app_nil_r.
    repeat split; [constructor | simpl; lia]. }
  induction levels as [| levels IH]; intros entryPath q; simpl;
    unfold lookup_path;
    destruct (Fs.find_node (fs w) (Path.abs_segments (cwd w) entryPath))
      as [[data | entries] |] eqn:Enode;
    try (intros []); try apply Hleaf.
  intros Hin. apply in_flat_map in Hin as (name & Hname & Hin).
  apply filter_In in Hname as [Hname Hshown].
  destruct (child_lookup w Htree entryPath name entries Enode Hname)
    as (Hentry & _).
  destruct (IH _ _ Hin) as (names & Hsegs & Hall & Hlen).
  exists (name :: names).
  rewrite Hsegs, abs_segments_resolve by assumption.
  rewrite <- app_assoc. repeat split; [now constructor | simpl; lia].
Qed.

(** Every id that is pushed is registered for one of the manifests
    registered so far. *)
Lemma fold_register_ids (manifests : list string) :
  forall st known,
    ExtensionManager.well_formed (registry (fst st)) ->
    (forall i, In i (added (snd st) ++ existed (snd st)) ->
               exists q, In q known
                         /\ ExtensionManager.getPath (registry (fst st)) i
                            = Some q) ->
    let st' := fold_left register_step manifests st in
    forall i, In i (added (snd st') ++ existed (snd st')) ->
              exists q, In q (known ++ manifests)
                        /\ ExtensionManager.getPath (registry (fst st')) i
                           = Some q.
Proof.
  induction manifests as [| p rest IH]; intros st known Hwf Hknown; cbv zeta;
    simpl fold_left.
  - rewrite app_nil_r. exact Hknown.
  - replace (known ++ p :: rest) with ((known ++ [p]) ++ rest)
      by (now rewrite <- app_assoc).
    apply IH.
    + unfold register_step, register_entry. destruct st as [w lists].
      pose proof (addPath_well_formed (registry w) p Hwf) as Hwf'.
      destruct (ExtensionManager.addPath (registry w) p) as [reg' res].
      now destruct (ExtensionManager.existed res).
    + destruct st as [w lists]. simpl in Hwf, Hknown.
      unfold register_step, register_entry.
      pose proof (addPath_getPath (registry w) p Hwf) as Hnew.
      pose proof (fun q i => addPath_keeps_getPath (registry w) p q i) as Hold.
      destruct (ExtensionManager.addPath (registry w) p) as [reg' res].
      simpl in Hnew, Hold.
      assert (Hmine : forall i,
                 In i (added lists ++ existed lists)
                 \/ i = ExtensionManager.id res ->
                 exists q, In q (known ++ [p])
                           /\ ExtensionManager.getPath reg' i = Some q).
      { intros i [Hi | ->].
        - destruct (Hknown i Hi) as (q & Hq & Hget).
          exists q. split; [apply in_or_app; now left | now apply Hold].
        - exists p. split; [apply in_or_app; right; now left | exact Hnew]. }
      destruct (ExtensionManager.existed res); simpl; intros i Hi;
        apply Hmine;
        repeat (apply in_app_or in Hi as [Hi | Hi]);
        try (left; apply in_or_app; tauto);
        destruct Hi as [<- | []]; now right.
Qed.

(** X9.  A manifest that lies below the picked root through a directory
    whose name starts with a dot is never reported, however deep the
    import goes. *)
Theorem hidden_directories_are_skipped
        (w : World) (root : string) (dirs : list string) (data : Content)
        (depth : Z) :
  Fs.well_formed (fs w) = true ->
  ExtensionManager.well_formed (registry w) ->
  Exists (fun n => Str.first_is_not_dot n = false) dirs ->
  Fs.find_node (fs w)
    (Path.abs_segments (cwd w) root ++ dirs ++ [MANIFEST_FILE_NAME])
  = Some (File data) ->
  ~ discovers
      (createMultipleNewLocalFileExtensions
         (Some {| canceled := false; filePaths := [root] |}) depth w)
      (descend (cwd w) root (dirs ++ [MANIFEST_FILE_NAME])).
Proof.
  intros Htree Hreg Hhidden Hfile (lists & i & Hreturned & Hin & Hget).
  (* the names below the root are entry names *)
  rewrite find_node_app in Hfile.
  destruct (Fs.find_node (fs w) (Path.abs_segments (cwd w) root))
    as [rootNode |] eqn:Eroot; [| discriminate].
  destruct (well_formed_find _ _ _ Htree Eroot) as [HrootNode _].
  destruct (well_formed_find _ _ _ HrootNode Hfile) as [_ Hnames].
  (* the id is registered for a manifest of the walk *)
  destruct (import_outcome [root] depth w) as [Hworld Hlists].
  rewrite (Hlists lists Hreturned) in Hin. rewrite Hworld in Hget.
  destruct (fold_register_ids (picked_manifests w depth [root])
              (w, {| added := []; existed := [] |}) [] Hreg)
    with (i := i) as (q & Hq & Hpath).
  - intros j [].
  - exact Hin.
  - rewrite Hget in Hpath. inversion Hpath; subst q; clear Hpath.
    simpl in Hq. unfold picked_manifests in Hq. simpl in Hq.
    rewrite app_nil_r in Hq.
    destruct (manifests_found_below w (Z.to_nat depth) Htree root _ Hq)
      as (names & Hsegs & Hshown & _).
    rewrite abs_segments_descend in Hsegs by assumption.
    apply app_inv_head in Hsegs. subst names.
    apply Forall_app in Hshown as [Hshown _].
    apply Exists_exists in Hhidden as (n & Hn & Hdot).
    rewrite Forall_forall in Hshown. specialize (Hshown n Hn). congruence.
Qed.

(** Witness of X9: the manifest of [/plugins/.cache], with depth 9. *)
Lemma hidden_directories_are_skipped_witness :
  ~ discovers
      (createMultipleNewLocalFileExtensions
         (Some {| canceled := false; filePaths := ["/plugins"] |}) 9
         (Sample.world Sample.plugins))
      "/plugins/.cache/manifest.json".
Proof.
  apply (hidden_directories_are_skipped (Sample.world Sample.plugins)
           "/plugins" [".cache"] (Text "{}") 9).
  - vm_compute. reflexivity.
  - repeat split; constructor.
  - constructor. reflexivity.
  - vm_compute. reflexivity.
Defined.

(* ================================================================== *)
(** ** More on [writeNewExtensionToDisk] *)

Section PackageRunFacts.

Import PackageWriter.

Variable host : Host.

Local Arguments String.eqb : simpl never.

(** Files that are not named as the manifest leave [manifest] and
    [manifestFile] as they are. *)
Lemma validate_without_manifest (pending : list PendingFile) :
  Forall (fun f => name_refused host (name f) = false) pending ->
  Forall (fun f => name f <> MANIFEST_FILE_NAME) pending ->
  forall index found, validate host pending index found = Returned found.
Proof.
  induction pending as [| file rest IH]; intros Hallowed Hnames index found;
    [reflexivity |].
  inversion Hallowed as [| ? ? Hfile Hrest]; subst.
  inversion Hnames as [| ? ? Hname Hothers]; subst.
  simpl. rewrite Hfile. apply String.eqb_neq in Hname. rewrite Hname.
  now apply IH.
Qed.

(** The handler once the checks of lines 190-249 are passed. *)
Lemma package_run (ui : Dialogs) (data : Data) (w : World)
      (manifest : JsValue) (manifestFile : nat) (saveDir : string)
      (tree : Node) :
  validate host (files data) 0 None = Returned (Some (manifest, manifestFile)) ->
  showSaveDialog ui (save_prompt host manifest data w) = Some saveDir ->
  Path.basename saveDir <> EmptyString ->
  lookup_path w saveDir = None ->
  Fs.mkdir_p (fs w) (Path.abs_segments (cwd w) saveDir) = Some tree ->
  writeNewExtensionToDisk host ui data w
  = register_package saveDir
      (fst (promise_all
              (map (save_file saveDir (named_manifest manifest saveDir))
                   (named_files host manifest manifestFile (files data) saveDir))
              (set_fs (remember_dir w saveDir) tree))).
Proof.
  intros Hvalid Hdialog Hbase Hfree Hmk.
  assert (Hsave : Str.nonempty saveDir = true).
  { destruct saveDir; [| reflexivity]. now elim Hbase. }
  unfold writeNewExtensionToDisk.
  rewrite Hvalid, Hdialog. simpl Js.truthy_str. rewrite Hsave.
  cbn [negb]. simpl Js.template_str.
  rewrite write_package_steps. cbv zeta.
  destruct (Path.basename saveDir); [congruence |].
  cbn [Str.nonempty negb]. now rewrite Hfree, Hmk.
Qed.

(** The names of a package that passed the validation are entry names,
    also once the content of the manifest is replaced. *)
Lemma named_files_entry_names (manifest : JsValue) (manifestFile : nat)
      (pending : list PendingFile) (saveDir : string)
      (index : nat) (found r : option (JsValue * nat)) :
  (forall s, Str.has_char Str.slash (sanitizeFileName host s) = false) ->
  validate host pending index found = Returned r ->
  Forall (fun f => Fs.entry_name (name f) = true)
         (named_files host manifest manifestFile pending saveDir).
Proof.
  intros Hsanitize Hvalid.
  pose proof (validate_names_allowed host _ _ _ _ Hvalid) as Hallowed.
  assert (Hnames : Forall (fun f => Fs.entry_name (name f) = true) pending).
  { eapply Forall_impl; [| exact Hallowed]. simpl. intros f Hf.
    now apply (allowed_name_is_entry_name host). }
  unfold named_files.
  destruct (Js.truthy_opt (Js.get manifest "name")); [assumption |].
  generalize (JSON_stringify host (named_manifest manifest saveDir) 2).
  intros text. clear Hvalid Hallowed. revert manifestFile.
  induction Hnames as [| f rest Hf Hrest IH]; intros [| k]; simpl;
    constructor; auto.
Qed.

End PackageRunFacts.

Section KeepFacts.

Import Fs.

(** [mkdir -p] keeps the files of the tree. *)
Lemma mkdir_p_keeps (segs : list string) :
  forall n n' q data,
    mkdir_p n segs = Some n' ->
    find_node n q = Some (File data) ->
    find_node n' q = Some (File data).
Proof.
  induction segs as [| seg rest IH]; intros n n' q data Hmk Hfile.
  - destruct n; simpl in Hmk; [discriminate |]. now inversion Hmk; subst.
  - destruct n as [old | entries]; [discriminate |].
    destruct q as [| s qs]; [discriminate |].
    simpl in Hmk, Hfile |- *.
    destruct (Js.assoc s entries) as [target |] eqn:Etarget; [| discriminate].
    destruct (Js.assoc seg entries) as [child |] eqn:Echild.
    + destruct (mkdir_p child rest) as [child' |] eqn:Emk; [| discriminate].
      inversion Hmk; subst n'; clear Hmk. simpl.
      destruct (String.eqb_spec s seg) as [-> | Hne].
      * rewrite assoc_replace_same by congruence.
        rewrite Echild in Etarget. inversion Etarget; subst target.
        now apply (IH child).
      * rewrite assoc_replace_other by assumption. now rewrite Etarget.
    + destruct (mkdir_p (Dir []) rest) as [child' |]; [| discriminate].
      inversion Hmk; subst n'; clear Hmk. simpl.
      destruct (String.eqb_spec s seg) as [-> | Hne]; [congruence |].
      rewrite assoc_app_other by assumption. now rewrite Etarget.
Qed.

(** A write keeps the files that are not its target. *)
Lemma write_at_keeps (segs : list string) (new : Content) :
  forall n n' q data,
    write_at n segs new = Some n' ->
    find_node n q = Some (File data) ->
    q <> segs ->
    find_node n' q = Some (File data).
Proof.
  induction segs as [| seg rest IH]; intros n n' q data Hwrite Hfile Hne.
  - destruct n as [old | entries]; [| discriminate].
    destruct q as [| s qs]; [congruence | discriminate].
  - destruct n as [old | entries]; [discriminate |].
    destruct q as [| s qs]; [discriminate |].
    simpl in Hwrite, Hfile |- *.
    destruct (Js.assoc s entries) as [target |] eqn:Etarget; [| discriminate].
    destruct (Js.assoc seg entries) as [child |] eqn:Echild.
    + destruct (write_at child rest new) as [child' |] eqn:Ew; [| discriminate].
      inversion Hwrite; subst n'; clear Hwrite. simpl.
      destruct (String.eqb_spec s seg) as [-> | Hs].
      * rewrite assoc_replace_same by congruence.
        rewrite Echild in Etarget. inversion Etarget; subst target.
        apply (IH child); [assumption | assumption | congruence].
      * rewrite assoc_replace_other by assumption. now rewrite Etarget.
    + destruct rest; [| discriminate].
      inversion Hwrite; subst n'; clear Hwrite. simpl.
      destruct (String.eqb_spec s seg) as [-> | Hs]; [congruence |].
      rewrite assoc_app_other by assumption. now rewrite Etarget.
Qed.

End KeepFacts.

(** The writes of a package keep every file that was there before the
    destination was created. *)
Lemma save_files_keep (saveDir : string) (manifest : JsValue)
      (pending : list PackageWriter.PendingFile) (w0 w : World) :
  Path.isAbsolute saveDir = true ->
  Forall (fun f => Fs.entry_name (PackageWriter.name f) = true) pending ->
  lookup_path w0 saveDir = None ->
  cwd w = cwd w0 ->
  (forall q data, Fs.find_node (fs w0) q = Some (File data) ->
                  Fs.find_node (fs w) q = Some (File data)) ->
  let w' :=
    fst (promise_all (map (PackageWriter.save_file saveDir manifest) pending) w)
  in
  forall q data, Fs.find_node (fs w0) q = Some (File data) ->
                 Fs.find_node (fs w') q = Some (File data).
Proof.
  intros Habs Hnames Hfree Hcwd Hkept. cbv zeta.
  destruct (promise_all (map (PackageWriter.save_file saveDir manifest) pending) w)
    as [w' c] eqn:Erun.
  simpl fst.
  apply (promise_all_invariant
           (fun s => cwd s = cwd w0
                     /\ forall q data,
                         Fs.find_node (fs w0) q = Some (File data) ->
                         Fs.find_node (fs s) q = Some (File data))
           (map (PackageWriter.save_file saveDir manifest) pending))
    with (s := w) (c := c); [| now split | exact Erun].
  intros task Hin s s' c' (Hc & Hk) Hrun.
  apply in_map_iff in Hin as (file & <- & Hfile).
  rewrite Forall_forall in Hnames. specialize (Hnames file Hfile).
  unfold PackageWriter.save_file, writeFile in Hrun.
  rewrite Hc, (abs_segments_join (cwd w0) saveDir _ Habs Hnames) in Hrun.
  destruct (Fs.write_at (fs s)
              (Path.abs_segments (cwd w0) saveDir ++ [PackageWriter.name file])
              (PackageWriter.content file)) as [tree |] eqn:Ew;
    inversion Hrun; subst s'; simpl; (split; [assumption |]); [| assumption].
  intros q data Hq.
  apply (write_at_keeps _ _ _ _ _ _ Ew (Hk q data Hq)).
  intros ->. unfold lookup_path in Hfree.
  rewrite find_node_app, Hfree in Hq. discriminate.
Qed.

(** X10.  A package none of whose files is named as the manifest (an
    empty package among them) is refused with [NoManifestError] once all
    its names have passed the checks: the save dialog is not opened and
    the world stays as it was. *)
Theorem package_without_manifest_is_refused
        (host : Host) (ui : Dialogs) (data : PackageWriter.Data) (w : World) :
  Forall (fun f => PackageWriter.name_refused host (PackageWriter.name f) = false)
         (PackageWriter.files data) ->
  Forall (fun f => PackageWriter.name f <> MANIFEST_FILE_NAME)
         (PackageWriter.files data) ->
  PackageWriter.writeNewExtensionToDisk host ui data w
  = (w, Thrown NoManifestError).
Proof.
  intros Hallowed Hnames. unfold PackageWriter.writeNewExtensionToDisk.
  now rewrite (validate_without_manifest host _ Hallowed Hnames).
Qed.

(** Witness of X10: a package that holds [code.js] only. *)
Lemma package_without_manifest_is_refused_witness :
  PackageWriter.writeNewExtensionToDisk Sample.host
    (Sample.choose "/plugins/new")
    (Sample.package [Sample.text_file "code.js" "run()"])
    (Sample.world Sample.plugins)
  = (Sample.world Sample.plugins, Thrown NoManifestError).
Proof.
  apply (package_without_manifest_is_refused Sample.host).
  - repeat constructor.
  - repeat constructor; discriminate.
Defined.

(** X11.  The manifest is read when the loop comes to it: when the files
    before it are accepted and the manifest file, of an allowed name, is
    not a text, does not parse, or parses to something that is no object,
    the handler throws the error of that test with the world as it was,
    whatever the files after it are. *)
Theorem unreadable_manifest_is_refused
        (host : Host) (ui : Dialogs) (w : World)
        (pre post : list PackageWriter.PendingFile)
        (file : PackageWriter.PendingFile) (dir : string) :
  Forall (accepted host) pre ->
  PackageWriter.name file = MANIFEST_FILE_NAME ->
  PackageWriter.name_refused host (PackageWriter.name file) = false ->
  match PackageWriter.content file with
  | Binary _ => True
  | Text text =>
      match JSON_parse host text with
      | None => True
      | Some manifest => Js.is_object manifest = false
      end
  end ->
  PackageWriter.writeNewExtensionToDisk host ui
    {| PackageWriter.files := pre ++ file :: post;
       PackageWriter.dirName := dir |} w
  = (w, Thrown match PackageWriter.content file with
               | Binary _ => ManifestTypeError
               | Text text =>
                   match JSON_parse host text with
                   | None => ManifestParseError
                   | Some _ => ManifestShapeError
                   end
               end).
Proof.
  intros Hpre Hname Hallowed Hbad.
  apply validation_error_leaves_world. simpl PackageWriter.files.
  destruct (validate_accepted_prefix host pre (file :: post) Hpre 0 None)
    as [found' ->].
  simpl. rewrite Hallowed, Hname, String.eqb_refl.
  unfold PackageWriter.read_manifest.
  destruct (PackageWriter.content file) as [text | bytes]; [| reflexivity].
  destruct (JSON_parse host text) as [manifest |]; [| reflexivity].
  now rewrite Hbad.
Qed.

(** Witness of X11: the manifest text [12] parses to a number; the file
    after it has a name that would be refused. *)
Lemma unreadable_manifest_is_refused_witness :
  PackageWriter.writeNewExtensionToDisk Sample.host
    (Sample.choose "/plugins/new")
    {| PackageWriter.files :=
         [Sample.text_file "code.js" "run()"]
         ++ Sample.text_file "manifest.json" "12"
         :: [Sample.text_file "a/b" "x"];
       PackageWriter.dirName := "myplug" |}
    (Sample.world Sample.plugins)
  = (Sample.world Sample.plugins, Thrown ManifestShapeError).
Proof.
  apply (unreadable_manifest_is_refused Sample.host
           (Sample.choose "/plugins/new") (Sample.world Sample.plugins)
           [Sample.text_file "code.js" "run()"]
           [Sample.text_file "a/b" "x"]
           (Sample.text_file "manifest.json" "12") "myplug").
  - repeat constructor. discriminate.
  - reflexivity.
  - reflexivity.
  - vm_compute. reflexivity.
Defined.

Lemma register_package_files (saveDir : string) (w : World) :
  fs (fst (PackageWriter.register_package saveDir w)) = fs w
  /\ cwd (fst (PackageWriter.register_package saveDir w)) = cwd w.
Proof.
  unfold PackageWriter.register_package.
  destruct (ExtensionManager.addPath (registry w)
              (Path.join saveDir MANIFEST_FILE_NAME)) as [reg' res].
  now destruct (ExtensionManager.existed res).
Qed.

(** Once the checks are passed, the destination holds the files of the
    package and nothing else, whatever the registry answers. *)
Lemma package_on_disk (host : Host) (ui : Dialogs) (data : PackageWriter.Data)
      (w : World) (manifest : JsValue) (manifestFile : nat) (saveDir : string) :
  (forall s, Str.has_char Str.slash (sanitizeFileName host s) = false) ->
  PackageWriter.validate host (PackageWriter.files data) 0 None
  = Returned (Some (manifest, manifestFile)) ->
  showSaveDialog ui (PackageWriter.save_prompt host manifest data w)
  = Some saveDir ->
  Path.isAbsolute saveDir = true ->
  Path.basename saveDir <> EmptyString ->
  lookup_path w saveDir = None ->
  Fs.mkdir_p (fs w) (Path.abs_segments (cwd w) saveDir) <> None ->
  let outcome := PackageWriter.writeNewExtensionToDisk host ui data w in
  cwd (fst outcome) = cwd w
  /\ forall n,
      Fs.find_node (fs (fst outcome)) (Path.abs_segments (cwd w) saveDir ++ [n])
      = option_map File
          (content_for n (named_files host manifest manifestFile
                                      (PackageWriter.files data) saveDir)).
Proof.
  intros Hsanitize Hvalid Hdialog Habs Hbase Hfree Hmkdir. cbv zeta.
  destruct (Fs.mkdir_p (fs w) (Path.abs_segments (cwd w) saveDir))
    as [tree |] eqn:Emk; [| congruence].
  rewrite (package_run host ui data w manifest manifestFile saveDir tree)
    by assumption.
  set (w1 := set_fs (remember_dir w saveDir) tree).
  set (pending := named_files host manifest manifestFile
                              (PackageWriter.files data) saveDir).
  assert (Hempty : Fs.find_node (fs w1) (Path.abs_segments (cwd w1) saveDir)
                   = Some (Dir [])).
  { apply (mkdir_p_fresh _ (fs w) tree Emk). exact Hfree. }
  assert (Hflat : flat_dir (fs w1) (Path.abs_segments (cwd w1) saveDir)).
  { exists []. split; [exact Hempty | constructor]. }
  pose proof (named_files_entry_names host manifest manifestFile _ saveDir
                _ _ _ Hsanitize Hvalid) as Hnames.
  destruct (save_files_result saveDir (named_manifest manifest saveDir)
              pending w1 Habs Hnames Hflat) as (Hcwd & _ & Hall).
  destruct (register_package_files saveDir
              (fst (promise_all
                      (map (PackageWriter.save_file saveDir
                              (named_manifest manifest saveDir)) pending) w1)))
    as [-> ->].
  split; [exact Hcwd |].
  intros n. change (cwd w1) with (cwd w) in Hall, Hempty. rewrite Hall.
  destruct (content_for n pending); [reflexivity |].
  rewrite find_node_app, Hempty. simpl. reflexivity.
Qed.

Lemma content_for_distinct (pending : list PackageWriter.PendingFile)
      (file : PackageWriter.PendingFile) :
  NoDup (map PackageWriter.name pending) ->
  In file pending ->
  content_for (PackageWriter.name file) pending
  = Some (PackageWriter.content file).
Proof.
  induction pending as [| head rest IH]; intros Hdistinct Hin; [destruct Hin |].
  inversion Hdistinct as [| ? ? Hfresh Hrest]; subst.
  simpl. destruct Hin as [-> | Hin].
  - rewrite content_for_none, String.eqb_refl; [reflexivity |].
    apply Forall_forall. intros g Hg Hsame. apply Hfresh.
    rewrite <- Hsame. now apply in_map.
  - now rewrite IH.
Qed.

Lemma content_for_named (n : string) (pending : list PackageWriter.PendingFile) :
  In n (map PackageWriter.name pending) ->
  exists data, content_for n pending = Some data.
Proof.
  induction pending as [| head rest IH]; intros Hin; [destruct Hin |].
  simpl. destruct (content_for n rest) as [data |] eqn:Erest; [eauto |].
  destruct Hin as [<- | Hin].
  - rewrite String.eqb_refl. eauto.
  - destruct (IH Hin) as [data Hdata]. discriminate.
Qed.

Lemma set_content_names (index : nat) (text : string)
      (pending : list PackageWriter.PendingFile) :
  map PackageWriter.name (PackageWriter.set_content index text pending)
  = map PackageWriter.name pending.
Proof.
  revert index. induction pending as [| file rest IH]; intros [| k]; simpl;
    try reflexivity.
  now rewrite IH.
Qed.

(** X12.  A package whose manifest has a name, and whose files have
    distinct names, is written as it was given: once the checks are
    passed, every file is found at [path.join(saveDir, name)] with its
    content, and the new directory holds no other entry.  The host is
    assumed to have a [sanitizeFileName] that removes separators, and the
    dialog to give an absolute path. *)
Theorem named_package_is_written_as_given
        (host : Host) (ui : Dialogs) (data : PackageWriter.Data) (w : World)
        (manifest : JsValue) (manifestFile : nat) (saveDir : string) :
  (forall s, Str.has_char Str.slash (sanitizeFileName host s) = false) ->
  PackageWriter.validate host (PackageWriter.files data) 0 None
  = Returned (Some (manifest, manifestFile)) ->
  NoDup (map PackageWriter.name (PackageWriter.files data)) ->
  Js.truthy_opt (Js.get manifest "name") = true ->
  showSaveDialog ui (PackageWriter.save_prompt host manifest data w)
  = Some saveDir ->
  Path.isAbsolute saveDir = true ->
  Path.basename saveDir <> EmptyString ->
  lookup_path w saveDir = None ->
  Fs.mkdir_p (fs w) (Path.abs_segments (cwd w) saveDir) <> None ->
  let outcome := PackageWriter.writeNewExtensionToDisk host ui data w in
  (forall file,
      In file (PackageWriter.files data) ->
      lookup_path (fst outcome) (Path.join saveDir (PackageWriter.name file))
      = Some (File (PackageWriter.content file)))
  /\ (forall n,
         ~ In n (map PackageWriter.name (PackageWriter.files data)) ->
         Fs.find_node (fs (fst outcome))
                      (Path.abs_segments (cwd w) saveDir ++ [n])
         = None).
Proof.
  intros Hsanitize Hvalid Hdistinct Hnamed Hdialog Habs Hbase Hfree Hmkdir
         outcome.
  destruct (package_on_disk host ui data w manifest manifestFile saveDir)
    as [Hcwd Hall]; try assumption.
  fold outcome in Hcwd, Hall.
  unfold named_files in Hall. rewrite Hnamed in Hall.
  split.
  - intros file Hin. unfold lookup_path. rewrite Hcwd.
    rewrite abs_segments_join; [| assumption |].
    + now rewrite Hall, content_for_distinct.
    + pose proof (validate_names_allowed host _ _ _ _ Hvalid) as Hallowed.
      rewrite Forall_forall in Hallowed.
      apply (allowed_name_is_entry_name host); auto.
  - intros n Hn. rewrite Hall, content_for_none; [reflexivity |].
    apply Forall_forall. intros g Hg Hsame. apply Hn.
    rewrite <- Hsame. now apply in_map.
Qed.

(** Witness of X12: a package of two files, saved as [/plugins/new]. *)
Lemma named_package_is_written_as_given_witness :
  let files :=
    [Sample.text_file "manifest.json"
                      (Sample.manifest_with "name" (Str.quoted "mine"));
     Sample.text_file "code.js" "run()"] in
  let outcome :=
    PackageWriter.writeNewExtensionToDisk Sample.host
      (Sample.choose "/plugins/new") (Sample.package files)
      (Sample.world Sample.plugins) in
  (forall file,
      In file files ->
      lookup_path (fst outcome)
                  (Path.join "/plugins/new" (PackageWriter.name file))
      = Some (File (PackageWriter.content file)))
  /\ (forall n,
         ~ In n (map PackageWriter.name files) ->
         Fs.find_node (fs (fst outcome)) (["plugins"; "new"] ++ [n]) = None).
Proof.
  apply (named_package_is_written_as_given Sample.host
           (Sample.choose "/plugins/new")
           (Sample.package
              [Sample.text_file "manifest.json"
                                (Sample.manifest_with "name" (Str.quoted "mine"));
               Sample.text_file "code.js" "run()"])
           (Sample.world Sample.plugins)
           (JObject [("name", JString "mine")]) 0 "/plugins/new").
  - exact strip_unsafe_removes_separators.
  - vm_compute. reflexivity.
  - repeat constructor; simpl; intuition discriminate.
  - reflexivity.
  - reflexivity.
  - reflexivity.
  - vm_compute. discriminate.
  - vm_compute. reflexivity.
  - vm_compute. discriminate.
Defined.

(** X13.  The handler never overwrites: whatever the request and whatever
    the outcome, every file that was on disk is still there with its
    content.  The host is assumed to have a [sanitizeFileName] that
    removes separators, and the dialog to give absolute paths. *)
Theorem package_writer_keeps_existing_files
        (host : Host) (ui : Dialogs) (data : PackageWriter.Data) (w : World)
        (segs : list string) (old : Content) :
  (forall s, Str.has_char Str.slash (sanitizeFileName host s) = false) ->
  (forall options p,
      showSaveDialog ui options = Some p -> Path.isAbsolute p = true) ->
  Fs.find_node (fs w) segs = Some (File old) ->
  Fs.find_node
    (fs (fst (PackageWriter.writeNewExtensionToDisk host ui data w))) segs
  = Some (File old).
Proof.
  intros Hsanitize Hui Hold.
  unfold PackageWriter.writeNewExtensionToDisk.
  destruct (PackageWriter.validate host (PackageWriter.files data) 0 None)
    as [[[manifest manifestFile] |] | e] eqn:Hvalid; try exact Hold.
  destruct (showSaveDialog ui (PackageWriter.save_prompt host manifest data w))
    as [saveDir |] eqn:Hdialog; [| exact Hold].
  simpl Js.truthy_str.
  destruct (Str.nonempty saveDir); [| exact Hold].
  cbn [negb]. simpl Js.template_str.
  rewrite write_package_steps. cbv zeta.
  destruct (negb (Str.nonempty (Path.basename saveDir))); [exact Hold |].
  destruct (lookup_path w saveDir) eqn:Hfree; [exact Hold |].
  destruct (Fs.mkdir_p (fs w) (Path.abs_segments (cwd w) saveDir))
    as [tree |] eqn:Emk; [| exact Hold].
  destruct (register_package_files saveDir
              (fst (promise_all
                      (map (PackageWriter.save_file saveDir
                              (named_manifest manifest saveDir))
                           (named_files host manifest manifestFile
                                        (PackageWriter.files data) saveDir))
                      (set_fs (remember_dir w saveDir) tree))))
    as [-> _].
  apply (save_files_keep saveDir (named_manifest manifest saveDir)
           (named_files host manifest manifestFile
                        (PackageWriter.files data) saveDir)
           w (set_fs (remember_dir w saveDir) tree)).
  - exact (Hui _ _ Hdialog).
  - exact (named_files_entry_names host manifest manifestFile _ saveDir
             _ _ _ Hsanitize Hvalid).
  - exact Hfree.
  - reflexivity.
  - intros q data' Hq. simpl. exact (mkdir_p_keeps _ _ _ _ _ Emk Hq).
  - exact Hold.
Qed.

(** Witness of X13: a package with a file [code.js] saved as
    [/plugins/new] leaves [/plugins/a/code.js] as it was. *)
Lemma package_writer_keeps_existing_files_witness :
  Fs.find_node
    (fs (fst (PackageWriter.writeNewExtensionToDisk Sample.host
                (Sample.choose "/plugins/new")
                (Sample.package
                   [Sample.text_file "manifest.json" "{}";
                    Sample.text_file "code.js" "walk()"])
                (Sample.world Sample.plugins))))
    ["plugins"; "a"; "code.js"]
  = Some (File (Text "run()")).
Proof.
  apply (package_writer_keeps_existing_files Sample.host).
  - exact strip_unsafe_removes_separators.
  - intros options p [= <-]. reflexivity.
  - reflexivity.
Defined.

(** X14.  Once the checks are passed and the path of the new manifest is
    not registered yet, the handler returns a fresh id, the next one of
    the registry, and leaves one more record, for
    [path.join(saveDir, MANIFEST_FILE_NAME)].  This holds whatever the
    writes did: a failed write is logged and does not stop the
    registration. *)
Theorem new_package_is_registered_under_a_fresh_id
        (host : Host) (ui : Dialogs) (data : PackageWriter.Data) (w : World)
        (manifest : JsValue) (manifestFile : nat) (saveDir : string) :
  PackageWriter.validate host (PackageWriter.files data) 0 None
  = Returned (Some (manifest, manifestFile)) ->
  showSaveDialog ui (PackageWriter.save_prompt host manifest data w)
  = Some saveDir ->
  Path.basename saveDir <> EmptyString ->
  lookup_path w saveDir = None ->
  Fs.mkdir_p (fs w) (Path.abs_segments (cwd w) saveDir) <> None ->
  ExtensionManager.find_path (Path.join saveDir MANIFEST_FILE_NAME)
                             (ExtensionManager.records (registry w)) = None ->
  let outcome := PackageWriter.writeNewExtensionToDisk host ui data w in
  snd outcome = Returned (Some (ExtensionManager.nextId (registry w)))
  /\ ExtensionManager.records (registry (fst outcome))
     = ExtensionManager.records (registry w)
       ++ [(ExtensionManager.nextId (registry w),
            Path.join saveDir MANIFEST_FILE_NAME)]
  /\ ExtensionManager.notifications (registry (fst outcome))
     = S (ExtensionManager.notifications (registry w)).
Proof.
  intros Hvalid Hdialog Hbase Hfree Hmkdir Hnew. cbv zeta.
  destruct (Fs.mkdir_p (fs w) (Path.abs_segments (cwd w) saveDir))
    as [tree |] eqn:Emk; [| congruence].
  rewrite (package_run host ui data w manifest manifestFile saveDir tree)
    by assumption.
  destruct (save_files_frame saveDir (named_manifest manifest saveDir)
              (named_files host manifest manifestFile
                           (PackageWriter.files data) saveDir)
              (set_fs (remember_dir w saveDir) tree)) as (_ & Hregistry & _).
  unfold PackageWriter.register_package, ExtensionManager.addPath.
  rewrite Hregistry. simpl registry. rewrite Hnew. simpl. auto.
Qed.

(** Witness of X14: a package saved as [/plugins/new], with nothing
    registered before. *)
Lemma new_package_is_registered_under_a_fresh_id_witness :
  let outcome :=
    PackageWriter.writeNewExtensionToDisk Sample.host
      (Sample.choose "/plugins/new")
      (Sample.package [Sample.text_file "manifest.json" "{}"])
      (Sample.world Sample.plugins) in
  snd outcome = Returned (Some 0%N)
  /\ ExtensionManager.records (registry (fst outcome))
     = [] ++ [(0%N, Path.join "/plugins/new" MANIFEST_FILE_NAME)]
  /\ ExtensionManager.notifications (registry (fst outcome)) = 1.
Proof.
  apply (new_package_is_registered_under_a_fresh_id Sample.host
           (Sample.choose "/plugins/new")
           (Sample.package [Sample.text_file "manifest.json" "{}"])
           (Sample.world Sample.plugins) (JObject []) 0 "/plugins/new").
  - vm_compute. reflexivity.
  - reflexivity.
  - vm_compute. discriminate.
  - vm_compute. reflexivity.
  - vm_compute. discriminate.
  - reflexivity.
Defined.

(** X15.  There is no rollback.  When the path of the new manifest is
    registered already (a record left of a directory that is gone), the
    handler throws [UnexpectedDuplicateError] after the package was
    written: the registry is as it was, and the manifest file is on disk
    in the new directory. *)
Theorem stale_record_fails_after_the_package_is_written
        (host : Host) (ui : Dialogs) (data : PackageWriter.Data) (w : World)
        (manifest : JsValue) (manifestFile : nat) (saveDir : string)
        (i : Id) :
  (forall s, Str.has_char Str.slash (sanitizeFileName host s) = false) ->
  PackageWriter.validate host (PackageWriter.files data) 0 None
  = Returned (Some (manifest, manifestFile)) ->
  showSaveDialog ui (PackageWriter.save_prompt host manifest data w)
  = Some saveDir ->
  Path.isAbsolute saveDir = true ->
  Path.basename saveDir <> EmptyString ->
  lookup_path w saveDir = None ->
  Fs.mkdir_p (fs w) (Path.abs_segments (cwd w) saveDir) <> None ->
  ExtensionManager.find_path (Path.join saveDir MANIFEST_FILE_NAME)
                             (ExtensionManager.records (registry w)) = Some i ->
  let outcome := PackageWriter.writeNewExtensionToDisk host ui data w in
  snd outcome = Thrown UnexpectedDuplicateError
  /\ registry (fst outcome) = registry w
  /\ exists text,
      lookup_path (fst outcome) (Path.join saveDir MANIFEST_FILE_NAME)
      = Some (File text).
Proof.
  intros Hsanitize Hvalid Hdialog Habs Hbase Hfree Hmkdir Hstale outcome.
  destruct (package_on_disk host ui data w manifest manifestFile saveDir)
    as [Hcwd Hall]; try assumption.
  fold outcome in Hcwd, Hall.
  assert (Hrun : snd outcome = Thrown UnexpectedDuplicateError
                 /\ registry (fst outcome) = registry w).
  { subst outcome.
    destruct (Fs.mkdir_p (fs w) (Path.abs_segments (cwd w) saveDir))
      as [tree |] eqn:Emk; [| congruence].
    rewrite (package_run host ui data w manifest manifestFile saveDir tree)
      by assumption.
    destruct (save_files_frame saveDir (named_manifest manifest saveDir)
                (named_files host manifest manifestFile
                             (PackageWriter.files data) saveDir)
                (set_fs (remember_dir w saveDir) tree)) as (_ & Hregistry & _).
    unfold PackageWriter.register_package, ExtensionManager.addPath.
    rewrite Hregistry. simpl registry. rewrite Hstale. simpl.
    split; [reflexivity |].
    destruct (fst (promise_all _ _)); simpl in *. congruence. }
  destruct Hrun as [Hthrown Hregistry].
  split; [exact Hthrown |]. split; [exact Hregistry |].
  destruct (content_for_named MANIFEST_FILE_NAME
              (named_files host manifest manifestFile
                           (PackageWriter.files data) saveDir))
    as [text Htext].
  { assert (Hin : In MANIFEST_FILE_NAME
                     (map PackageWriter.name (PackageWriter.files data))).
    { destruct (validate_last_manifest host _ _ _ _ _ Hvalid)
        as [[Hfound _] | (pre & file & post & -> & _ & Hfile & _)];
        [discriminate |].
      rewrite map_app. apply in_or_app. right. left. exact Hfile. }
    unfold named_files.
    destruct (Js.truthy_opt (Js.get manifest "name")); [exact Hin |].
    now rewrite set_content_names. }
  exists text. unfold lookup_path. rewrite Hcwd.
  rewrite abs_segments_join by (assumption || reflexivity).
  now rewrite Hall, Htext.
Qed.

(** Witness of X15: [/plugins/new/manifest.json] has the id 7 and the
    directory [/plugins/new] is gone. *)
Lemma stale_record_fails_after_the_package_is_written_witness :
  let w :=
    set_registry (Sample.world Sample.plugins)
      {| ExtensionManager.records := [(7%N, "/plugins/new/manifest.json")];
         ExtensionManager.nextId := 8%N;
         ExtensionManager.notifications := 1 |} in
  let outcome :=
    PackageWriter.writeNewExtensionToDisk Sample.host
      (Sample.choose "/plugins/new")
      (Sample.package [Sample.text_file "manifest.json" "{}"]) w in
  snd outcome = Thrown UnexpectedDuplicateError
  /\ registry (fst outcome) = registry w
  /\ exists text,
      lookup_path (fst outcome) (Path.join "/plugins/new" MANIFEST_FILE_NAME)
      = Some (File text).
Proof.
  apply (stale_record_fails_after_the_package_is_written Sample.host
           (Sample.choose "/plugins/new")
           (Sample.package [Sample.text_file "manifest.json" "{}"])
           (set_registry (Sample.world Sample.plugins)
              {| ExtensionManager.records := [(7%N, "/plugins/new/manifest.json")];
                 ExtensionManager.nextId := 8%N;
                 ExtensionManager.notifications := 1 |})
           (JObject []) 0 "/plugins/new" 7%N).
  - exact strip_unsafe_removes_separators.
  - vm_compute. reflexivity.
  - reflexivity.
  - reflexivity.
  - vm_compute. discriminate.
  - vm_compute. reflexivity.
  - vm_compute. discriminate.
  - reflexivity.
Defined.

(* ================================================================== *)
(** ** More on [writeFiles] *)

Section ExportFacts.

Import ExportWriter.

Lemma export_file_frame (directoryPath : string) (file : ExportFile)
      (w : World) :
  export_frame w (export_file directoryPath file w).
Proof.
  unfold export_frame, export_file, bind, mkPath, writeFile.
  destruct (Fs.mkdir_p (fs w)
              (Path.abs_segments (cwd w)
                 (Path.dirname (Path.join directoryPath (name file)))))
    as [tree |]; simpl.
  - destruct (Fs.write_at tree _ _); simpl; repeat split; discriminate.
  - repeat split. intros e [= <-]. eauto.
Qed.

Lemma export_all_frame (directoryPath : string) (files : list ExportFile) :
  forall w, export_frame w (export_all directoryPath files w).
Proof.
  induction files as [| file rest IH]; intros w.
  - repeat split. discriminate.
  - simpl export_all. unfold bind.
    pose proof (export_file_frame directoryPath file w) as Hfile.
    destruct (export_file directoryPath file w) as [w1 [[] | e]].
    + destruct Hfile as (Hr & Hc & Hs & _). simpl in Hr, Hc, Hs.
      destruct (IH w1) as (Hr' & Hc' & Hs' & He').
      repeat split; try congruence. exact He'.
    + exact Hfile.
Qed.

Lemma export_into_frame (directoryPath : string) (files : list ExportFile)
      (w : World) :
  export_frame w (export_into directoryPath files w).
Proof.
  unfold export_into.
  destruct (negb (Str.nonempty directoryPath)).
  - repeat split. discriminate.
  - apply export_all_frame.
Qed.

End ExportFacts.

(** The loop is rejected by a [mkPath] only: the files before the one it
    stopped at were exported, a failed write among them passed over. *)
Lemma export_all_rejected (directoryPath : string)
      (files : list ExportWriter.ExportFile) :
  forall w w' e,
    ExportWriter.export_all directoryPath files w = (w', Thrown e) ->
    exists pre file post,
      files = pre ++ file :: post
      /\ ExportWriter.export_all directoryPath pre w = (w', Returned tt)
      /\ mkPath (Path.dirname
                   (Path.join directoryPath (ExportWriter.name file))) w'
         = (w', Thrown e).
Proof.
  induction files as [| file rest IH]; intros w w' e Hrun; [discriminate |].
  simpl in Hrun. unfold bind in Hrun.
  destruct (ExportWriter.export_file directoryPath file w)
    as [w1 [[] | e1]] eqn:Efile.
  - destruct (IH _ _ _ Hrun) as (pre & stopped & post & -> & Hpre & Hmk).
    exists (file :: pre), stopped, post.
    split; [reflexivity |]. split; [| exact Hmk].
    simpl. unfold bind. now rewrite Efile.
  - inversion Hrun; subst w1 e1; clear Hrun.
    exists [], file, rest. split; [reflexivity |]. split.
    + unfold ExportWriter.export_file, bind in Efile.
      destruct (mkPath (Path.dirname
                          (Path.join directoryPath (ExportWriter.name file))) w)
        as [w2 [[] | e2]] eqn:Emk.
      * destruct (writeFile _ _ w2) as [w3 []]; discriminate.
      * inversion Efile; subst w2. unfold mkPath in Emk.
        destruct (Fs.mkdir_p (fs w) _); inversion Emk; reflexivity.
    + unfold ExportWriter.export_file, bind in Efile.
      destruct (mkPath (Path.dirname
                          (Path.join directoryPath (ExportWriter.name file))) w)
        as [w2 [[] | e2]] eqn:Emk.
      * destruct (writeFile _ _ w2) as [w3 []]; discriminate.
      * inversion Efile; subst w2 e2. unfold mkPath in Emk |- *.
        destruct (Fs.mkdir_p (fs w) _) eqn:Etree; inversion Emk; subst.
        now rewrite Etree.
Qed.

(** X16.  An export never touches the registry, the working directory,
    the last plugin directory or the configured export directory, and a
    failed write never rejects it.  When the handler is rejected with
    [e], the files it loops over (those of the request, or the one file
    under the name taken from the save dialog) are [pre], [file] and
    [post]: the files of [pre] were exported, a failed write among them
    reported and passed over, and [e] is the rejection of [mkPath] for
    the directory of [file], in the world that [pre] left, which is the
    world the handler ends in. *)
Theorem export_is_rejected_by_mkPath_only
        (ui : Dialogs) (files : list ExportWriter.ExportFile) (w : World) :
  let outcome := ExportWriter.writeFiles ui files w in
  registry (fst outcome) = registry w
  /\ cwd (fst outcome) = cwd w
  /\ lastSavedPluginDir (settings (fst outcome)) = lastSavedPluginDir (settings w)
  /\ exportDir (settings (fst outcome)) = exportDir (settings w)
  /\ forall e,
      snd outcome = Thrown e ->
      exists directoryPath remembered pending pre file post,
        (pending = files
         \/ exists original newName,
             files = [original]
             /\ pending = [{| ExportWriter.name := newName;
                              ExportWriter.buffer :=
                                ExportWriter.buffer original |}])
        /\ pending = pre ++ file :: post
        /\ ExportWriter.export_all directoryPath pre
             (set_settings w (set_lastExportDir (settings w) remembered))
           = (fst outcome, Returned tt)
        /\ mkPath (Path.dirname
                     (Path.join directoryPath (ExportWriter.name file)))
                  (fst outcome)
           = (fst outcome, Thrown e).
Proof.
  cbv zeta.
  assert (Hstart : forall d directoryPath pending,
             (pending = files
              \/ exists original newName,
                  files = [original]
                  /\ pending = [{| ExportWriter.name := newName;
                                   ExportWriter.buffer :=
                                     ExportWriter.buffer original |}]) ->
             let outcome :=
               (ExportWriter.set_export_dir d ;;;
                ExportWriter.export_into directoryPath pending) w in
             registry (fst outcome) = registry w
             /\ cwd (fst outcome) = cwd w
             /\ lastSavedPluginDir (settings (fst outcome))
                = lastSavedPluginDir (settings w)
             /\ exportDir (settings (fst outcome)) = exportDir (settings w)
             /\ forall e,
                 snd outcome = Thrown e ->
                 exists directoryPath remembered pending pre file post,
                   (pending = files
                    \/ exists original newName,
                        files = [original]
                        /\ pending = [{| ExportWriter.name := newName;
                                         ExportWriter.buffer :=
                                           ExportWriter.buffer original |}])
                   /\ pending = pre ++ file :: post
                   /\ ExportWriter.export_all directoryPath pre
                        (set_settings w
                           (set_lastExportDir (settings w) remembered))
                      = (fst outcome, Returned tt)
                   /\ mkPath (Path.dirname
                                (Path.join directoryPath
                                           (ExportWriter.name file)))
                             (fst outcome)
                      = (fst outcome, Thrown e)).
  { intros d directoryPath pending Hpending. cbv zeta.
    unfold bind, ExportWriter.set_export_dir.
    set (w0 := set_settings w (set_lastExportDir (settings w) d)).
    destruct (export_into_frame directoryPath pending w0)
      as (Hr & Hc & Hs & _).
    rewrite Hr, Hc, Hs. repeat split.
    intros e He. unfold ExportWriter.export_into in He |- *.
    destruct (negb (Str.nonempty directoryPath)); [discriminate |].
    destruct (ExportWriter.export_all directoryPath pending w0)
      as [w' c] eqn:Erun.
    simpl in He. subst c.
    destruct (export_all_rejected _ _ _ _ _ Erun)
      as (pre & file & post & Hsplit & Hpre & Hmk).
    exists directoryPath, d, pending, pre, file, post. simpl. auto. }
  assert (Hsame : registry w = registry w /\ cwd w = cwd w
                  /\ lastSavedPluginDir (settings w)
                     = lastSavedPluginDir (settings w)
                  /\ exportDir (settings w) = exportDir (settings w)
                  /\ forall e, @Returned unit tt = Thrown e ->
                       exists directoryPath remembered pending pre file post,
                         (pending = files
                          \/ exists original newName,
                              files = [original]
                              /\ pending
                                 = [{| ExportWriter.name := newName;
                                       ExportWriter.buffer :=
                                         ExportWriter.buffer original |}])
                         /\ pending = pre ++ file :: post
                         /\ ExportWriter.export_all directoryPath pre
                              (set_settings w
                                 (set_lastExportDir (settings w) remembered))
                            = (w, Returned tt)
                         /\ mkPath (Path.dirname
                                      (Path.join directoryPath
                                                 (ExportWriter.name file))) w
                            = (w, Thrown e)).
  { repeat split. discriminate. }
  unfold ExportWriter.writeFiles.
  destruct files as [| file rest]; [exact Hsame |].
  destruct (ExportWriter.single_plain_file (file :: rest)) as [single |] eqn:Es.
  - destruct (Js.truthy_str (showSaveDialog ui _)); [| exact Hsame].
    apply Hstart. right.
    unfold ExportWriter.single_plain_file in Es.
    destruct rest; [| discriminate].
    destruct (negb (Str.has_char Str.slash (ExportWriter.name file)));
      [| discriminate].
    inversion Es; subst single. eauto.
  - destruct (showOpenDialog ui _) as [[| directoryPath [| ? ?]] |];
      try exact Hsame.
    apply Hstart. now left.
Qed.

Section DirnameFacts.

Import Path.

Local Arguments Ascii.eqb : simpl never.
Local Arguments String.eqb : simpl never.

Lemma last_part_of_segs (names : list string) (name : string) :
  Forall (fun n => Fs.entry_name n = true) names ->
  Fs.entry_name name = true ->
  last_part (of_segs (names ++ [name])) = Some (EmptyString :: names, name).
Proof.
  intros Hall Hname. unfold last_part.
  rewrite split_of_segs.
  - change (EmptyString :: names ++ [name])
      with ((EmptyString :: names) ++ [name]).
    rewrite rev_app_distr. simpl rev at 1. simpl app at 1.
    rewrite drop_empty_entry by assumption.
    now rewrite rev_app_distr, rev_involutive.
  - apply Forall_app. split; [assumption | now constructor].
  - destruct names; discriminate.
Qed.

(** The directory of a normalised absolute path. *)
Lemma dirname_of_segs (names : list string) (name : string) :
  Forall (fun n => Fs.entry_name n = true) names ->
  Fs.entry_name name = true ->
  dirname (of_segs (names ++ [name])) = of_segs names
  /\ parse_dir (of_segs (names ++ [name])) = of_segs names.
Proof.
  intros Hall Hname. unfold dirname, parse_dir.
  rewrite last_part_of_segs by assumption.
  destruct names as [| n1 [| n2 rest]]; [split; reflexivity | |].
  - inversion Hall as [| ? ? Hn1 _]; subst.
    destruct (entry_name_relative _ Hn1) as [_ ->]. split; reflexivity.
  - split; reflexivity.
Qed.

Lemma join_of_segs (cwd dir name : string) :
  isAbsolute dir = true ->
  Fs.entry_name name = true ->
  join dir name = of_segs (abs_segments cwd dir ++ [name]).
Proof.
  intros Habs Hname.
  destruct (entry_name_relative _ Hname) as [_ Hne].
  assert (Hdir : Str.nonempty dir = true) by (now destruct dir).
  unfold join. rewrite Hdir, Hne. unfold normalize.
  rewrite (nonempty_append_r dir ("/" +++ name)) by reflexivity.
  rewrite (isAbsolute_app dir _ Hdir), Habs. cbn [negb].
  rewrite split_slash_app, (split_slash_plain name (entry_name_plain _ Hname)).
  rewrite normalize_segs_app by (now constructor).
  rewrite join_slash_last_nonempty by assumption. cbn [negb].
  rewrite ends_with_slash_child by assumption.
  unfold abs_segments. rewrite Habs. reflexivity.
Qed.

(** [path.dirname(path.join(dir, name))] is [dir] again. *)
Lemma abs_segments_dirname_join (cwd dir name : string) :
  isAbsolute dir = true ->
  Fs.entry_name name = true ->
  abs_segments cwd (dirname (join dir name)) = abs_segments cwd dir.
Proof.
  intros Habs Hname.
  rewrite (join_of_segs cwd) by assumption.
  destruct (dirname_of_segs (abs_segments cwd dir) name
              (abs_segments_clean cwd dir) Hname) as [-> _].
  apply abs_segments_of_segs, abs_segments_clean.
Qed.

Lemma has_char_app (c : ascii) (a b : string) :
  Str.has_char c (a +++ b) = Str.has_char c a || Str.has_char c b.
Proof.
  induction a as [| d a IH]; simpl; [reflexivity |].
  now rewrite IH, orb_assoc.
Qed.

Lemma last_dot_plain (c : ascii) (s : string) :
  Str.has_char c s = false ->
  forall i ext, last_dot s = Some (i, ext) -> Str.has_char c ext = false.
Proof.
  induction s as [| d s IH]; intros Hplain i ext Hdot; [discriminate |].
  simpl in Hplain, Hdot. apply orb_false_iff in Hplain as [Hd Hs].
  destruct (last_dot s) as [[j e] |].
  - inversion Hdot; subst. now apply (IH Hs j).
  - destruct (Ascii.eqb d Str.dot); [| discriminate].
    inversion Hdot; subst. simpl. now rewrite Hd, Hs.
Qed.

Lemma drop_empty_In (x : string) (l : list string) :
  In x (drop_empty l) -> In x l.
Proof.
  induction l as [| seg rest IH]; simpl; [auto |].
  destruct (Str.nonempty seg); [auto |]. intros H. right. now apply IH.
Qed.

Lemma basename_plain (p : string) :
  Str.has_char Str.slash (basename p) = false.
Proof.
  unfold basename, last_part.
  destruct (drop_empty (rev (split_slash p))) as [| base before] eqn:E;
    [reflexivity |].
  assert (Hin : In base (split_slash p)).
  { apply in_rev. apply drop_empty_In. rewrite E. now left. }
  pose proof (split_slash_segments p) as Hall.
  rewrite Forall_forall in Hall. now apply Hall.
Qed.

Lemma extname_plain (p : string) :
  Str.has_char Str.slash (extname p) = false.
Proof.
  unfold extname.
  destruct (last_dot (basename p)) as [[[| i] ext] |] eqn:E; try reflexivity.
  destruct (basename p =? ".."); [reflexivity |].
  exact (last_dot_plain _ _ (basename_plain p) _ _ E).
Qed.

(** A name stays an entry name when an extension is appended. *)
Lemma entry_name_append (base ext : string) :
  Fs.entry_name base = true ->
  Str.has_char Str.slash ext = false ->
  Fs.entry_name (base +++ ext) = true.
Proof.
  intros Hbase Hext. pose proof (entry_name_plain _ Hbase) as Hplain.
  unfold Fs.entry_name in *.
  repeat (apply andb_true_iff in Hbase as [Hbase ?]).
  rewrite has_char_app, Hplain, Hext.
  destruct base as [| c base]; [discriminate |].
  simpl Str.nonempty. cbn [negb orb andb].
  destruct (String.eqb_spec (String c base +++ ext) ".") as [E | _].
  { simpl in E. inversion E as [[Hc Hrest]].
    destruct base; [| discriminate]. subst c. discriminate. }
  destruct (String.eqb_spec (String c base +++ ext) "..") as [E | _];
    [| reflexivity].
  simpl in E. inversion E as [[Hc Hrest]]. subst c.
  destruct base as [| d base]; [discriminate |].
  simpl in Hrest. inversion Hrest as [[Hd Hnil]]. subst d.
  destruct base; [discriminate | discriminate].
Qed.

End DirnameFacts.

Section ExportRunFacts.

Import ExportWriter.

Lemma assoc_replace_id (key : string) (v : Node) (l : list (string * Node)) :
  Js.assoc key l = Some v -> Fs.assoc_replace key v l = l.
Proof.
  induction l as [| [k x] l IH]; simpl; [reflexivity |].
  destruct (k =? key) eqn:E.
  - now intros [= ->].
  - intros H. now rewrite IH.
Qed.

(** [mkdir -p] of a directory that exists changes nothing. *)
Lemma mkdir_p_existing (segs : list string) :
  forall n entries,
    Fs.find_node n segs = Some (Dir entries) -> Fs.mkdir_p n segs = Some n.
Proof.
  induction segs as [| seg rest IH]; intros n entries Hdir.
  - simpl in Hdir. inversion Hdir; subst. reflexivity.
  - destruct n as [old | es]; [discriminate |].
    simpl in Hdir |- *.
    destruct (Js.assoc seg es) as [child |] eqn:Echild; [| discriminate].
    rewrite (IH child entries Hdir). now rewrite assoc_replace_id.
Qed.

(** One file exported into a directory that holds files only. *)
Lemma export_file_flat (directoryPath : string) (file : ExportFile)
      (w : World) :
  Path.isAbsolute directoryPath = true ->
  Fs.entry_name (name file) = true ->
  flat_dir (fs w) (Path.abs_segments (cwd w) directoryPath) ->
  exists tree,
    export_file directoryPath file w = (set_fs w tree, Returned tt)
    /\ flat_dir tree (Path.abs_segments (cwd w) directoryPath)
    /\ Fs.find_node tree (Path.abs_segments (cwd w) directoryPath ++ [name file])
       = Some (File (Binary (buffer file)))
    /\ forall other,
        other <> name file ->
        Fs.find_node tree (Path.abs_segments (cwd w) directoryPath ++ [other])
        = Fs.find_node (fs w)
            (Path.abs_segments (cwd w) directoryPath ++ [other]).
Proof.
  intros Habs Hname Hflat.
  destruct (write_at_flat _ (name file) (Binary (buffer file)) (fs w) Hflat)
    as (tree & Hwrite & Hflat' & Hfound & Hothers).
  exists tree. split; [| auto].
  unfold export_file, bind, mkPath, writeFile.
  rewrite abs_segments_dirname_join by assumption.
  destruct Hflat as (entries & Hdir & _).
  rewrite (mkdir_p_existing _ _ _ Hdir). simpl.
  rewrite abs_segments_join by assumption.
  rewrite Hwrite. destruct w; reflexivity.
Qed.

(** The loop over files of distinct names, into a directory that holds
    files only. *)
Lemma export_all_flat (directoryPath : string) (files : list ExportFile) :
  Path.isAbsolute directoryPath = true ->
  Forall (fun f => Fs.entry_name (name f) = true) files ->
  NoDup (map name files) ->
  forall w,
    flat_dir (fs w) (Path.abs_segments (cwd w) directoryPath) ->
    exists tree,
      export_all directoryPath files w = (set_fs w tree, Returned tt)
      /\ (forall f,
             In f files ->
             Fs.find_node tree
               (Path.abs_segments (cwd w) directoryPath ++ [name f])
             = Some (File (Binary (buffer f))))
      /\ forall other,
          ~ In other (map name files) ->
          Fs.find_node tree (Path.abs_segments (cwd w) directoryPath ++ [other])
          = Fs.find_node (fs w)
              (Path.abs_segments (cwd w) directoryPath ++ [other]).
Proof.
  intros Habs. induction files as [| file rest IH];
    intros Hnames Hdistinct w Hflat.
  - exists (fs w). simpl. split; [now destruct w |].
    split; [intros f [] | reflexivity].
  - inversion Hnames as [| ? ? Hname Hrest]; subst.
    inversion Hdistinct as [| ? ? Hfresh Hothers]; subst.
    destruct (export_file_flat directoryPath file w Habs Hname Hflat)
      as (tree1 & Hrun1 & Hflat1 & Hfound1 & Hkept1).
    destruct (IH Hrest Hothers (set_fs w tree1) Hflat1)
      as (tree & Hrun & Hfound & Hkept).
    exists tree. simpl export_all. unfold bind. rewrite Hrun1, Hrun.
    split; [reflexivity |]. simpl cwd in *. simpl fs in *. split.
    + intros f [<- | Hin]; [| now apply Hfound].
      now rewrite Hkept.
    + intros other Hother. simpl in Hother.
      rewrite Hkept by tauto. apply Hkept1. intros ->. tauto.
Qed.

End ExportRunFacts.

(** X17.  Several files exported into a directory: when the directory
    picked in the dialog exists and holds files only, and the files have
    distinct plain names, every file is found at
    [path.join(directoryPath, name)] with its bytes, no message box is
    shown, and the directory is remembered as the last export
    directory. *)
Theorem export_into_a_directory_writes_every_file
        (ui : Dialogs) (files : list ExportWriter.ExportFile) (w : World)
        (directoryPath : string) :
  ExportWriter.single_plain_file files = None ->
  files <> [] ->
  showOpenDialog ui
    {| open_properties := ["openDirectory"; "createDirectory"];
       open_buttonLabel := "Save";
       open_defaultPath :=
         Js.or_str (lastExportDir (settings w)) (exportDir (settings w)) |}
  = Some [directoryPath] ->
  Path.isAbsolute directoryPath = true ->
  Forall (fun f => Fs.entry_name (ExportWriter.name f) = true) files ->
  NoDup (map ExportWriter.name files) ->
  flat_dir (fs w) (Path.abs_segments (cwd w) directoryPath) ->
  let outcome := ExportWriter.writeFiles ui files w in
  snd outcome = Returned tt
  /\ events (fst outcome) = events w
  /\ lastExportDir (settings (fst outcome)) = Some directoryPath
  /\ forall f,
      In f files ->
      lookup_path (fst outcome) (Path.join directoryPath (ExportWriter.name f))
      = Some (File (Binary (ExportWriter.buffer f))).
Proof.
  intros Hsingle Hfiles Hdialog Habs Hnames Hdistinct Hflat. cbv zeta.
  unfold ExportWriter.writeFiles.
  destruct files as [| file rest]; [congruence |].
  rewrite Hsingle, Hdialog.
  unfold bind, ExportWriter.set_export_dir, ExportWriter.export_into.
  assert (Hdir : Str.nonempty directoryPath = true)
    by (now destruct directoryPath).
  rewrite Hdir. cbn [negb].
  set (w1 := set_settings w (set_lastExportDir (settings w) directoryPath)).
  destruct (export_all_flat directoryPath (file :: rest) Habs Hnames Hdistinct
              w1 Hflat) as (tree & Hrun & Hfound & _).
  rewrite Hrun. simpl. repeat split.
  intros f Hin. unfold lookup_path. simpl fs. simpl cwd.
  rewrite abs_segments_join; [now apply Hfound | assumption |].
  rewrite Forall_forall in Hnames. now apply Hnames.
Qed.

(** Witness of X17: two files exported into [/plugins/a]. *)
Lemma export_into_a_directory_writes_every_file_witness :
  let outcome :=
    ExportWriter.writeFiles (Sample.choose "/plugins/a")
      [Sample.png "a.png"; Sample.png "b.png"] (Sample.world Sample.plugins) in
  snd outcome = Returned tt
  /\ events (fst outcome) = []
  /\ lastExportDir (settings (fst outcome)) = Some "/plugins/a"
  /\ forall f,
      In f [Sample.png "a.png"; Sample.png "b.png"] ->
      lookup_path (fst outcome) (Path.join "/plugins/a" (ExportWriter.name f))
      = Some (File (Binary (ExportWriter.buffer f))).
Proof.
  apply (export_into_a_directory_writes_every_file
           (Sample.choose "/plugins/a")
           [Sample.png "a.png"; Sample.png "b.png"]
           (Sample.world Sample.plugins) "/plugins/a").
  - reflexivity.
  - discriminate.
  - reflexivity.
  - reflexivity.
  - repeat constructor.
  - repeat constructor; simpl; intuition discriminate.
  - eexists. split; [vm_compute; reflexivity | repeat constructor].
Defined.

(** X18.  One file with a plain name, saved through the save dialog as
    the normalised absolute path [/dirs/base], whose directory exists and
    holds files only: the bytes are written into that directory under
    [base] when [base] has an extension, and under [base] followed by the
    extension of the original name when it has none; no message box is
    shown and the directory is remembered as the last export directory. *)
Theorem single_file_is_saved_under_the_chosen_name
        (ui : Dialogs) (file : ExportWriter.ExportFile) (w : World)
        (dirs : list string) (base : string) :
  Str.has_char Str.slash (ExportWriter.name file) = false ->
  showSaveDialog ui
    {| save_title := None;
       save_defaultPath :=
         Js.template_str
           (Js.or_str (lastExportDir (settings w)) (exportDir (settings w)))
         +++ "/" +++ Path.basename (ExportWriter.name file) |}
  = Some (Path.of_segs (dirs ++ [base])) ->
  Forall (fun n => Fs.entry_name n = true) dirs ->
  Fs.entry_name base = true ->
  flat_dir (fs w) dirs ->
  let saved :=
    if Path.extname base =? EmptyString
    then base +++ Path.extname (ExportWriter.name file) else base in
  let outcome := ExportWriter.writeFiles ui [file] w in
  snd outcome = Returned tt
  /\ events (fst outcome) = events w
  /\ lastExportDir (settings (fst outcome)) = Some (Path.of_segs dirs)
  /\ Fs.find_node (fs (fst outcome)) (dirs ++ [saved])
     = Some (File (Binary (ExportWriter.buffer file))).
Proof.
  intros Hplain Hdialog Hdirs Hbase Hflat saved. cbv zeta.
  unfold ExportWriter.writeFiles, ExportWriter.single_plain_file.
  rewrite Hplain. cbn [negb]. rewrite Hdialog.
  change (Js.truthy_str (Some (Path.of_segs (dirs ++ [base])))) with true.
  cbv iota. cbn [Js.template_str].
  rewrite (basename_of_segs dirs base Hdirs Hbase).
  destruct (dirname_of_segs dirs base Hdirs Hbase) as [-> ->].
  fold saved.
  assert (Hsaved : Fs.entry_name saved = true).
  { subst saved. destruct (Path.extname base =? EmptyString); [| assumption].
    apply entry_name_append; [assumption | apply extname_plain]. }
  unfold bind, ExportWriter.set_export_dir, ExportWriter.export_into.
  change (Str.nonempty (Path.of_segs dirs)) with true. cbn [negb].
  set (w1 := set_settings w (set_lastExportDir (settings w) (Path.of_segs dirs))).
  destruct (export_file_flat (Path.of_segs dirs)
              {| ExportWriter.name := saved;
                 ExportWriter.buffer := ExportWriter.buffer file |} w1)
    as (tree & Hrun & _ & Hfound & _).
  - reflexivity.
  - exact Hsaved.
  - now rewrite abs_segments_of_segs.
  - simpl ExportWriter.export_all. unfold bind. rewrite Hrun. simpl.
    repeat split.
    rewrite abs_segments_of_segs in Hfound by assumption. exact Hfound.
Qed.

(** Witness of X18: [shot.png] saved as [/plugins/a/cover]. *)
Lemma single_file_is_saved_under_the_chosen_name_witness :
  let outcome :=
    ExportWriter.writeFiles (Sample.choose "/plugins/a/cover")
      [Sample.png "shot.png"] (Sample.world Sample.plugins) in
  snd outcome = Returned tt
  /\ events (fst outcome) = []
  /\ lastExportDir (settings (fst outcome)) = Some "/plugins/a"
  /\ Fs.find_node (fs (fst outcome)) (["plugins"; "a"] ++ ["cover.png"])
     = Some (File (Binary [Byte.x89])).
Proof.
  apply (single_file_is_saved_under_the_chosen_name
           (Sample.choose "/plugins/a/cover") (Sample.png "shot.png")
           (Sample.world Sample.plugins) ["plugins"; "a"] "cover").
  - reflexivity.
  - reflexivity.
  - repeat constructor.
  - reflexivity.
  - eexists. split; [vm_compute; reflexivity | repeat constructor].
Defined.

(** X19.  A directory that cannot be made ends the export: when the
    files before [file] were exported and [mkPath] fails for the
    directory of [file], the handler is rejected with that error, and
    neither [file] nor any file after it is written or reported in a
    message box. *)
Theorem export_stops_when_a_directory_cannot_be_made
        (ui : Dialogs) (pre post : list ExportWriter.ExportFile)
        (file : ExportWriter.ExportFile) (w w1 : World)
        (directoryPath : string) :
  ExportWriter.single_plain_file (pre ++ file :: post) = None ->
  showOpenDialog ui
    {| open_properties := ["openDirectory"; "createDirectory"];
       open_buttonLabel := "Save";
       open_defaultPath :=
         Js.or_str (lastExportDir (settings w)) (exportDir (settings w)) |}
  = Some [directoryPath] ->
  Str.nonempty directoryPath = true ->
  ExportWriter.export_all directoryPath pre
    (set_settings w (set_lastExportDir (settings w) directoryPath))
  = (w1, Returned tt) ->
  Fs.mkdir_p (fs w1)
    (Path.abs_segments (cwd w1)
       (Path.dirname (Path.join directoryPath (ExportWriter.name file))))
  = None ->
  ExportWriter.writeFiles ui (pre ++ file :: post) w
  = (w1, Thrown (FsError "EEXIST: file already exists, mkdir"
                   (Path.dirname
                      (Path.join directoryPath (ExportWriter.name file))))).
Proof.
  intros Hsingle Hdialog Hdir Hpre Hmkdir.
  unfold ExportWriter.writeFiles.
  destruct (pre ++ file :: post) as [| first others] eqn:Efiles.
  { destruct pre; discriminate. }
  rewrite Hsingle, Hdialog.
  unfold bind at 1. unfold ExportWriter.set_export_dir at 1.
  unfold ExportWriter.export_into. rewrite Hdir. cbn [negb].
  rewrite <- Efiles. clear Efiles Hsingle Hdialog.
  revert Hpre.
  generalize (set_settings w (set_lastExportDir (settings w) directoryPath)).
  induction pre as [| head pre IH]; intros w0 Hpre.
  - simpl in Hpre. inversion Hpre; subst w0.
    simpl. unfold bind, ExportWriter.export_file, bind, mkPath.
    now rewrite Hmkdir.
  - simpl in Hpre |- *. unfold bind in Hpre |- *.
    destruct (ExportWriter.export_file directoryPath head w0)
      as [w0' [[] | e]]; [| discriminate].
    now apply IH.
Qed.

(** Witness of X19: [/plugins/a/code.js] is a file, so that no directory
    can be made for [code.js/x.png]; [b.png] is not written. *)
Lemma export_stops_when_a_directory_cannot_be_made_witness :
  ExportWriter.writeFiles (Sample.choose "/plugins/a")
    ([Sample.png "a.png"] ++ Sample.png "code.js/x.png" :: [Sample.png "b.png"])
    (Sample.world Sample.plugins)
  = (fst (ExportWriter.export_all "/plugins/a" [Sample.png "a.png"]
            (set_settings (Sample.world Sample.plugins)
               (set_lastExportDir (settings (Sample.world Sample.plugins))
                                  "/plugins/a"))),
     Thrown (FsError "EEXIST: file already exists, mkdir"
               (Path.dirname (Path.join "/plugins/a" "code.js/x.png")))).
Proof.
  apply (export_stops_when_a_directory_cannot_be_made
           (Sample.choose "/plugins/a") [Sample.png "a.png"]
           [Sample.png "b.png"] (Sample.png "code.js/x.png")
           (Sample.world Sample.plugins)).
  - reflexivity.
  - reflexivity.
  - reflexivity.
  - vm_compute. reflexivity.
  - vm_compute. reflexivity.
Defined.

(* ================================================================== *)
(** ** The plugin menu *)

Section PluginMenuFacts.

Import PluginMenu.

Variable ActionName : Type.
Variable render : ActionName -> string.

Local Arguments String.eqb : simpl never.

(** Induction on a plugin menu item, submenus included. *)
Lemma MenuItem_nested_ind (P : MenuItem ActionName -> Prop) :
  (forall name menuAction disabled visible,
      P (RunMenuAction ActionName name menuAction disabled visible)) ->
  P (Separator ActionName) ->
  (forall name submenu, Forall P submenu -> P (Submenu ActionName name submenu)) ->
  forall input, P input.
Proof.
  intros Hrun Hseparator Hsubmenu.
  fix IH 1. intros [name menuAction disabled visible | | name submenu].
  - apply Hrun.
  - exact Hseparator.
  - apply Hsubmenu. induction submenu as [| item rest IHrest];
      constructor; [apply IH | exact IHrest].
Qed.

(** The conversion keeps the actions, in document order. *)
Lemma converted_actions (input : MenuItem ActionName) :
  flat_map normal_action (items_of (electronOfPluginMenuItem _ render input))
  = action_items _ input.
Proof.
  induction input as [name menuAction disabled visible | | name submenu IH]
    using MenuItem_nested_ind; try reflexivity.
  change (flat_map normal_action
            (flat_map items_of
               (map (electronOfPluginMenuItem _ render) submenu))
          = flat_map (action_items _) submenu).
  induction IH as [| item rest Hitem _ IHrest]; [reflexivity |].
  cbn [map flat_map]. now rewrite flat_map_app, Hitem, IHrest.
Qed.

Lemma click_emits (item : ElectronItem) (channel : string) (action : JsValue) :
  handlePluginMenuAction (Some item) true = Some (AppEmit channel action)
  <-> channel = "handlePluginMenuAction"
      /\ In (Some action) (normal_action item)
      /\ Js.truthy action = true /\ is_manage action = false.
Proof.
  unfold handlePluginMenuAction.
  destruct item as [label enabled visible [stored |] | | label submenu]; simpl.
  - rewrite andb_true_r.
    destruct (Js.truthy stored) eqn:Etruthy, (is_manage stored) eqn:Emanage;
      (split;
       [ try discriminate; intros [= <- <-]; auto
       | intros (-> & [[= ->] | []] & Ht & Hm); congruence ]).
  - split; [discriminate | intros (_ & [[=] | []] & _)].
  - split; [discriminate | intros (_ & [] & _)].
  - split; [discriminate | intros (_ & [] & _)].
Qed.

End PluginMenuFacts.

(** X20.  What the menu built from a plugin menu emits.  A click, with a
    window, on some item of the converted menu (submenus included) emits
    [action] on the channel [handlePluginMenuAction] exactly when
    [action] is the [menuAction] of an action item of the plugin menu, is
    truthy and is not of the type [manage]: every such action can be
    emitted, and nothing else ever is. *)
Theorem converted_menu_emits_the_actions_of_the_plugin_menu
        (ActionName : Type) (render : ActionName -> string)
        (pluginMenuData : list (PluginMenu.MenuItem ActionName))
        (action : JsValue) :
  (exists item,
      In item (flat_map PluginMenu.items_of
                 (map (PluginMenu.electronOfPluginMenuItem _ render)
                      pluginMenuData))
      /\ PluginMenu.handlePluginMenuAction (Some item) true
         = Some (PluginMenu.AppEmit "handlePluginMenuAction" action))
  <-> (In (Some action)
          (flat_map (PluginMenu.action_items _) pluginMenuData)
       /\ Js.truthy action = true
       /\ PluginMenu.is_manage action = false).
Proof.
  assert (Hactions :
            flat_map PluginMenu.normal_action
              (flat_map PluginMenu.items_of
                 (map (PluginMenu.electronOfPluginMenuItem _ render)
                      pluginMenuData))
            = flat_map (PluginMenu.action_items _) pluginMenuData).
  { induction pluginMenuData as [| input rest IH]; [reflexivity |].
    cbn [map flat_map].
    now rewrite flat_map_app, converted_actions, IH. }
  rewrite <- Hactions. split.
  - intros (item & Hin & Hclick).
    apply click_emits in Hclick as (_ & Hnormal & Htruthy & Hmanage).
    repeat split; try assumption.
    apply in_flat_map. eauto.
  - intros (Hin & Htruthy & Hmanage).
    apply in_flat_map in Hin as (item & Hin & Hnormal).
    exists item. split; [exact Hin |].
    apply click_emits. auto.
Qed.

(** X21.  Without a window a click does nothing, and with one it never
    emits an action of the type [manage]: such an action opens
    [/my_plugins] instead. *)
Theorem manage_action_opens_the_plugins_page
        (item : PluginMenu.ElectronItem) (window : bool) :
  PluginMenu.handlePluginMenuAction None window = None
  /\ PluginMenu.handlePluginMenuAction (Some item) false = None
  /\ (forall channel action,
         PluginMenu.handlePluginMenuAction (Some item) window
         = Some (PluginMenu.AppEmit channel action) ->
         PluginMenu.is_manage action = false)
  /\ (forall url,
         PluginMenu.handlePluginMenuAction (Some item) window
         = Some (PluginMenu.HandleUrl url) ->
         url = "/my_plugins"
         /\ exists action,
             PluginMenu.pluginMenuAction_of item = Some action
             /\ PluginMenu.is_manage action = true).
Proof.
  unfold PluginMenu.handlePluginMenuAction.
  split; [reflexivity |].
  destruct (PluginMenu.pluginMenuAction_of item) as [stored |];
    [| repeat split; discriminate].
  rewrite andb_false_r.
  split; [reflexivity |].
  destruct (Js.truthy stored && window);
    [| repeat split; discriminate].
  destruct (PluginMenu.is_manage stored) eqn:Emanage; split;
    try discriminate.
  - intros url [= <-]. eauto.
  - intros channel action [= _ <-]. exact Emanage.
Qed.

Section ActionMapFacts.

Import PluginMenu.

Local Arguments String.eqb : simpl never.

Lemma AppItem_nested_ind (P : AppItem -> Prop) :
  (forall label action, P (MenuEntry label action None)) ->
  (forall label action items,
      Forall P items -> P (MenuEntry label action (Some items))) ->
  forall item, P item.
Proof.
  intros Hleaf Hsubmenu.
  fix IH 1. intros [label action [items |]].
  - apply Hsubmenu. induction items as [| item rest IHrest];
      constructor; [apply IH | exact IHrest].
  - apply Hleaf.
Qed.

Lemma find_app {A : Type} (p : A -> bool) (l1 l2 : list A) :
  find p (l1 ++ l2)
  = match find p l1 with
    | Some y => Some y
    | None => find p l2
    end.
Proof.
  induction l1 as [| y l1 IH]; simpl; [reflexivity |].
  now destruct (p y).
Qed.

Lemma latest_app (a : string) (met1 met2 : list AppItem)
      (map map1 : list (string * AppItem)) :
  Js.assoc a map1 = latest a met1 map ->
  latest a met2 map1 = latest a (met1 ++ met2) map.
Proof.
  unfold latest. intros ->. rewrite rev_app_distr, find_app.
  now destruct (find (has_action a) (rev met2)).
Qed.

Lemma parseMenu_latest (a : string) (items : list AppItem) :
  Forall (fun item => forall map,
              Js.assoc a (parseItem item map)
              = latest a (entries_of item) map) items ->
  forall map,
    Js.assoc a (parseMenu items map) = latest a (flat_map entries_of items) map.
Proof.
  unfold parseMenu.
  induction 1 as [| item rest Hitem _ IH]; intros map; [reflexivity |].
  cbn [fold_left flat_map]. rewrite IH.
  apply latest_app, Hitem.
Qed.

Lemma parseItem_latest (a : string) (item : AppItem) :
  forall map,
    Js.assoc a (parseItem item map) = latest a (entries_of item) map.
Proof.
  induction item as [label action | label action items IH]
    using AppItem_nested_ind; intros map.
  - cbn [parseItem entries_of]. unfold latest. simpl rev. simpl find.
    unfold has_action. simpl action_of.
    destruct (Js.truthy_str action); simpl; [| reflexivity].
    rewrite assoc_assoc_set.
    now destruct (Js.template_str action =? a).
  - change (parseItem (MenuEntry label action (Some items)) map)
      with (parseMenu items
              (if Js.truthy_str action
               then Js.assoc_set (Js.template_str action)
                                 (MenuEntry label action (Some items)) map
               else map)).
    rewrite (parseMenu_latest a items IH).
    change (entries_of (MenuEntry label action (Some items)))
      with ([MenuEntry label action (Some items)]
              ++ flat_map entries_of items).
    apply latest_app.
    unfold latest. simpl rev. simpl find.
    unfold has_action. simpl action_of.
    destruct (Js.truthy_str action); simpl; [| reflexivity].
    rewrite assoc_assoc_set.
    now destruct (Js.template_str action =? a).
Qed.

End ActionMapFacts.

(** X22.  The map of [buildActionToMenuItemMap] holds, under each key,
    the last item of that action in document order, submenus included;
    a key that is the action of no item is missing, and an item whose
    action is empty or missing is stored nowhere. *)
Theorem action_map_holds_the_last_item_of_each_action
        (menu : list PluginMenu.AppItem) (a : string) :
  Js.assoc a (PluginMenu.buildActionToMenuItemMap menu)
  = find (PluginMenu.has_action a)
         (rev (flat_map PluginMenu.entries_of menu)).
Proof.
  unfold PluginMenu.buildActionToMenuItemMap.
  rewrite parseMenu_latest.
  - unfold PluginMenu.latest. simpl.
    now destruct (find (PluginMenu.has_action a)
                       (rev (flat_map PluginMenu.entries_of menu))).
  - apply Forall_forall. intros item _. apply parseItem_latest.
Qed.

(* ================================================================== *)
(** ** Opening the directory of an extension *)

(** X23.  The directory opened for a package that was just written is the
    directory picked in the save dialog: when [writeNewExtensionToDisk]
    returns an id, [openExtensionDirectory] of that id hands the
    normalised form of [saveDir] to [shell.openPath]. *)
Theorem written_package_opens_the_chosen_directory
        (host : Host) (ui : Dialogs) (data : PackageWriter.Data) (w : World)
        (manifest : JsValue) (manifestFile : nat) (saveDir : string) (i : Id) :
  ExtensionManager.well_formed (registry w) ->
  PackageWriter.validate host (PackageWriter.files data) 0 None
  = Returned (Some (manifest, manifestFile)) ->
  showSaveDialog ui (PackageWriter.save_prompt host manifest data w)
  = Some saveDir ->
  Path.isAbsolute saveDir = true ->
  snd (PackageWriter.writeNewExtensionToDisk host ui data w)
  = Returned (Some i) ->
  openExtensionDirectory i
    (fst (PackageWriter.writeNewExtensionToDisk host ui data w))
  = Returned (Path.of_segs (Path.abs_segments (cwd w) saveDir)).
Proof.
  intros Hreg Hvalid Hdialog Habs.
  assert (Hsave : Str.nonempty saveDir = true) by (now destruct saveDir).
  unfold PackageWriter.writeNewExtensionToDisk.
  rewrite Hvalid, Hdialog. simpl Js.truthy_str. rewrite Hsave.
  cbn [negb]. simpl Js.template_str.
  rewrite write_package_steps. cbv zeta.
  destruct (negb (Str.nonempty (Path.basename saveDir))); [discriminate |].
  destruct (lookup_path w saveDir); [discriminate |].
  destruct (Fs.mkdir_p (fs w) (Path.abs_segments (cwd w) saveDir))
    as [tree |]; [| discriminate].
  destruct (save_files_frame saveDir (named_manifest manifest saveDir)
              (named_files host manifest manifestFile
                           (PackageWriter.files data) saveDir)
              (set_fs (remember_dir w saveDir) tree)) as (_ & Hregistry & _).
  set (w3 := fst (promise_all _ _)) in *.
  assert (Hreg3 : ExtensionManager.well_formed (registry w3))
    by (rewrite Hregistry; exact Hreg).
  destruct (register_package_outcome saveDir w3 Hreg3) as (_ & _ & Hid).
  intros Hreturned. unfold openExtensionDirectory.
  rewrite (Hid i Hreturned).
  rewrite (join_of_segs (cwd w)) by (assumption || reflexivity).
  destruct (dirname_of_segs (Path.abs_segments (cwd w) saveDir)
              MANIFEST_FILE_NAME (abs_segments_clean (cwd w) saveDir))
    as [_ ->]; reflexivity.
Qed.

(** Witness of X23: the package saved as [/plugins/../plugins/new/]. *)
Lemma written_package_opens_the_chosen_directory_witness :
  openExtensionDirectory 0%N
    (fst (PackageWriter.writeNewExtensionToDisk Sample.host
            (Sample.choose "/plugins/../plugins/new/")
            (Sample.package [Sample.text_file "manifest.json" "{}"])
            (Sample.world Sample.plugins)))
  = Returned (Path.of_segs
                (Path.abs_segments "/" "/plugins/../plugins/new/")).
Proof.
  apply (written_package_opens_the_chosen_directory Sample.host
           (Sample.choose "/plugins/../plugins/new/")
           (Sample.package [Sample.text_file "manifest.json" "{}"])
           (Sample.world Sample.plugins) (JObject []) 0).
  - repeat split; constructor.
  - vm_compute. reflexivity.
  - reflexivity.
  - reflexivity.
  - vm_compute. reflexivity.
Defined.

(* ================================================================== *)
(** ** The printer of the sample host *)

Lemma JsValue_nested_ind (P : JsValue -> Prop) :
  P JNull ->
  (forall b, P (JBool b)) ->
  (forall n, P (JNumber n)) ->
  (forall s, P (JString s)) ->
  (forall elems named, Forall P elems -> P (JArray elems named)) ->
  (forall props, Forall (fun kv => P (snd kv)) props -> P (JObject props)) ->
  forall v, P v.
Proof.
  intros Hnull Hbool Hnumber Hstring Harray Hobject.
  fix IH 1. intros [| b | n | s | elems named | props].
  - exact Hnull.
  - apply Hbool.
  - apply Hnumber.
  - apply Hstring.
  - apply Harray. induction elems as [| e rest IHrest];
      constructor; [apply IH | exact IHrest].
  - apply Hobject. induction props as [| [k x] rest IHrest];
      constructor; [apply IH | exact IHrest].
Qed.

Lemma map_agrees {A B : Type} (f g : A -> B) (l : list A) :
  Forall (fun x => f x = g x) l -> map f l = map g l.
Proof. induction 1; simpl; congruence. Qed.

Lemma print_gap_two (v : JsValue) :
  forall level, Json.print_gap 2 level v = Json.print level v.
Proof.
  induction v as [| b | n | s | elems named IH | props IH]
    using JsValue_nested_ind; intros level; try reflexivity.
  - destruct elems as [| e rest]; [reflexivity |].
    change (Json.print_gap 2 level (JArray (e :: rest) named))
      with ("[" +++ Json.newline
            +++ String.concat ("," +++ Json.newline)
                  (map (fun x => Json.spaces (2 * S level)
                                 +++ Json.print_gap 2 (S level) x) (e :: rest))
            +++ Json.newline +++ Json.spaces (2 * level) +++ "]").
    change (Json.print level (JArray (e :: rest) named))
      with ("[" +++ Json.newline
            +++ String.concat ("," +++ Json.newline)
                  (map (fun x => Json.spaces (2 * S level)
                                 +++ Json.print (S level) x) (e :: rest))
            +++ Json.newline +++ Json.spaces (2 * level) +++ "]").
    do 4 f_equal. apply map_agrees.
    eapply Forall_impl; [| exact IH]. simpl. intros x Hx. now rewrite Hx.
  - destruct props as [| kv rest]; [reflexivity |].
    change (Json.print_gap 2 level (JObject (kv :: rest)))
      with ("{" +++ Json.newline
            +++ String.concat ("," +++ Json.newline)
                  (map (fun x => Json.spaces (2 * S level)
                                 +++ Json.quote (fst x) +++ ": "
                                 +++ Json.print_gap 2 (S level) (snd x))
                       (kv :: rest))
            +++ Json.newline +++ Json.spaces (2 * level) +++ "}").
    change (Json.print level (JObject (kv :: rest)))
      with ("{" +++ Json.newline
            +++ String.concat ("," +++ Json.newline)
                  (map (fun x => Json.spaces (2 * S level)
                                 +++ Json.quote (fst x) +++ ": "
                                 +++ Json.print (S level) (snd x))
                       (kv :: rest))
            +++ Json.newline +++ Json.spaces (2 * level) +++ "}").
    do 4 f_equal. apply map_agrees.
    eapply Forall_impl; [| exact IH]. simpl. intros x Hx. now rewrite Hx.
Qed.

(** With [space] 2 the printer of the sample host is [Json.stringify]. *)
Lemma stringify_space_two (v : JsValue) :
  Json.stringify_space v 2 = Json.stringify v.
Proof. apply print_gap_two. Qed.
